(** * Orders and stock: a shallow embedding of the order service

    The development follows the Go packages of the repository:
    - [domain]: products, order items, orders and order statuses;
    - [repository]: the in-memory store ([MemoryStore], [MemoryOrders],
      [MemoryTx]) with its identifier counters;
    - [service]: [ProductService] and [OrderService] ([CreateOrder],
      [GetOrder], [CancelOrder], [PartialReturn]).

    Go's [int64] is a [Z] kept in the signed 64-bit range by [wrap64];
    [float64] is Rocq's primitive binary64 float; Go maps are [gmap]s; a
    [time.Time] is a [Z] and the clock reading of a call is an argument.
    Store operations run in a state-and-error monad in which an error keeps
    the mutations made so far (the transaction manager does no rollback).
    The locks of the store are left out: calls are taken one at a time. *)

From Stdlib Require Import ZArith Lia List String Floats.
From stdpp Require Import base option list gmap fin_maps.
Import ListNotations.

Local Open Scope Z_scope.

(** ** 64-bit signed integers *)

Module Int64.

Definition min_int64 : Z := - 2 ^ 63.
Definition max_int64 : Z := 2 ^ 63 - 1.

(** Two's complement wrap-around of Go's [int64] arithmetic. *)
Definition wrap64 (z : Z) : Z := (z + 2 ^ 63) mod 2 ^ 64 - 2 ^ 63.

Definition add64 (a b : Z) : Z := wrap64 (a + b).
Definition sub64 (a b : Z) : Z := wrap64 (a - b).

Definition in_int64 (z : Z) : Prop := min_int64 <= z <= max_int64.

End Int64.
Import Int64.

(** ** package domain *)

Record Product := mkProduct {
  Product_ID : Z;
  Name : string;
  SKU : string;
  Price : float;
  Stock : Z
}.

Inductive OrderStatus :=
| OrderStatusPending
| OrderStatusConfirmed
| OrderStatusCancelled.

Record OrderItem := mkItem {
  ProductID : Z;
  Quantity : Z
}.

Record Order := mkOrder {
  Order_ID : Z;
  CustomerName : string;
  Items : list OrderItem;
  Status : OrderStatus;
  CreatedAt : Z;
  UpdatedAt : Z
}.

#[global] Instance OrderStatus_eq_dec : EqDecision OrderStatus.
Proof. solve_decision. Defined.

#[global] Instance OrderItem_eq_dec : EqDecision OrderItem.
Proof. solve_decision. Defined.

(** Field assignments on the local copies the services work on. *)
Definition set_Product_ID (p : Product) (id : Z) : Product :=
  mkProduct id (Name p) (SKU p) (Price p) (Stock p).
Definition set_Stock (p : Product) (n : Z) : Product :=
  mkProduct (Product_ID p) (Name p) (SKU p) (Price p) n.
Definition set_Quantity (it : OrderItem) (n : Z) : OrderItem :=
  mkItem (ProductID it) n.
Definition set_Order_ID (o : Order) (id : Z) : Order :=
  mkOrder id (CustomerName o) (Items o) (Status o) (CreatedAt o) (UpdatedAt o).
Definition set_Status (o : Order) (st : OrderStatus) : Order :=
  mkOrder (Order_ID o) (CustomerName o) (Items o) st (CreatedAt o) (UpdatedAt o).
Definition set_Items (o : Order) (its : list OrderItem) : Order :=
  mkOrder (Order_ID o) (CustomerName o) its (Status o) (CreatedAt o) (UpdatedAt o).
Definition set_CreatedAt (o : Order) (t : Z) : Order :=
  mkOrder (Order_ID o) (CustomerName o) (Items o) (Status o) t (UpdatedAt o).
Definition set_UpdatedAt (o : Order) (t : Z) : Order :=
  mkOrder (Order_ID o) (CustomerName o) (Items o) (Status o) (CreatedAt o) t.

(** ** package repository *)

Inductive error :=
| ErrInvalidInput
| ErrNotFound
| ErrNotEnoughStock
| ErrInvalidState.

Inductive result (A : Type) :=
| Ok (a : A)
| Err (e : error).
Arguments Ok {A} a.
Arguments Err {A} e.

Definition is_ok {A} (r : result A) : bool :=
  match r with Ok _ => true | Err _ => false end.

Record MemoryStore := mkStore {
  nextProdID : Z;
  nextOrderID : Z;
  productsByID : gmap Z Product;
  ordersByID : gmap Z Order
}.

Definition NewMemoryStore : MemoryStore := mkStore 1 1 ∅ ∅.

Definition set_products (m : MemoryStore) (ps : gmap Z Product) : MemoryStore :=
  mkStore (nextProdID m) (nextOrderID m) ps (ordersByID m).
Definition set_orders (m : MemoryStore) (os : gmap Z Order) : MemoryStore :=
  mkStore (nextProdID m) (nextOrderID m) (productsByID m) os.

(** A computation over the store: it returns a value or an error, and in
    both cases the store as it stands (nothing is rolled back). *)
Definition M (A : Type) : Type := MemoryStore -> result A * MemoryStore.

Definition ret {A} (a : A) : M A := fun m => (Ok a, m).
Definition fail {A} (e : error) : M A := fun m => (Err e, m).
Definition bind {A B} (c : M A) (k : A -> M B) : M B :=
  fun m => match c m with
           | (Ok a, m') => k a m'
           | (Err e, m') => (Err e, m')
           end.

Notation "'let*' x ':=' c 'in' k" := (bind c (fun x => k))
  (at level 10, x name, c at level 100, k at level 200).
Notation "'do*' c 'in' k" := (bind c (fun _ => k))
  (at level 10, c at level 100, k at level 200).

(** [for _, x := range xs { acc = body(acc, x) }] with early return on error. *)
Fixpoint foldM {A B} (body : B -> A -> M B) (acc : B) (xs : list A) : M B :=
  match xs with
  | [] => ret acc
  | x :: xs' => let* acc' := body acc x in foldM body acc' xs'
  end.

Module Products.

Definition Create (p : Product) : M Product := fun m =>
  let p' := set_Product_ID p (nextProdID m) in
  (Ok p', mkStore (add64 (nextProdID m) 1) (nextOrderID m)
                  (<[Product_ID p' := p']> (productsByID m)) (ordersByID m)).

Definition GetByID (id : Z) : M Product := fun m =>
  match productsByID m !! id with
  | None => (Err ErrNotFound, m)
  | Some p => (Ok p, m)
  end.

Definition Update (p : Product) : M unit := fun m =>
  match productsByID m !! Product_ID p with
  | None => (Err ErrNotFound, m)
  | Some _ => (Ok tt, set_products m (<[Product_ID p := p]> (productsByID m)))
  end.

Definition Delete (id : Z) : M unit := fun m =>
  match productsByID m !! id with
  | None => (Err ErrNotFound, m)
  | Some _ => (Ok tt, set_products m (delete id (productsByID m)))
  end.

End Products.

(** [now] is the instant [time.Now().UTC()] reads. *)
Module Orders.

Definition Create (now : Z) (o : Order) : M Order := fun m =>
  let o' := set_UpdatedAt (set_CreatedAt (set_Order_ID o (nextOrderID m)) now) now in
  (Ok o', mkStore (nextProdID m) (add64 (nextOrderID m) 1)
                  (productsByID m) (<[Order_ID o' := o']> (ordersByID m))).

Definition GetByID (id : Z) : M Order := fun m =>
  match ordersByID m !! id with
  | None => (Err ErrNotFound, m)
  | Some o => (Ok o, m)
  end.

Definition Update (now : Z) (o : Order) : M Order := fun m =>
  match ordersByID m !! Order_ID o with
  | None => (Err ErrNotFound, m)
  | Some _ =>
      let o' := set_UpdatedAt o now in
      (Ok o', set_orders m (<[Order_ID o' := o']> (ordersByID m)))
  end.

End Orders.

(** [MemoryTx.WithTransaction] takes the write lock and runs [fn]; the
    sequential meaning is [fn] itself, with whatever it returns. *)
Definition WithTransaction {A} (fn : M A) : M A := fn.

(** ** package service: ProductService *)

Module ProductService.

Definition Create (p : Product) : M Product :=
  if (String.eqb (Name p) "" || String.eqb (SKU p) ""
      || PrimFloat.ltb (Price p) 0%float || (Stock p <? 0))%bool
  then fail ErrInvalidInput
  else Products.Create p.

Definition GetByID (id : Z) : M Product :=
  if id <=? 0 then fail ErrInvalidInput else Products.GetByID id.

Definition Update (p : Product) : M Product :=
  if ((Product_ID p <=? 0) || String.eqb (Name p) ""
      || PrimFloat.ltb (Price p) 0%float || (Stock p <? 0))%bool
  then fail ErrInvalidInput
  else do* Products.Update p in ret p.

Definition Delete (id : Z) : M unit :=
  if id <=? 0 then fail ErrInvalidInput else Products.Delete id.

End ProductService.

(** ** package service: OrderService *)

Module OrderService.

(** The field check both [CreateOrder] and [PartialReturn] run over their
    item arguments before entering the transaction. *)
Definition invalid_item (it : OrderItem) : bool :=
  (ProductID it <=? 0) || (Quantity it <=? 0).

(** Body of the first loop of [CreateOrder]: read the product from the
    store, check the line against the stock just read, and keep the
    decremented copy in [productCopies] under the product's identifier. *)
Definition reserve (productCopies : gmap Z Product) (it : OrderItem)
  : M (gmap Z Product) :=
  let* p := Products.GetByID (ProductID it) in
  if Stock p <? Quantity it then fail ErrNotEnoughStock
  else
    let p' := set_Stock p (sub64 (Stock p) (Quantity it)) in
    ret (<[Product_ID p' := p']> productCopies).

(** Second loop of [CreateOrder]: [for _, p := range productCopies]. Go
    leaves the iteration order of a map unspecified; [persist_list] takes
    the products in the order given and [persist] fixes the one of
    [map_to_list] ([persist_list_Permutation] shows the order is immaterial). *)
Definition persist_list (ps : list Product) : M unit :=
  foldM (fun _ p => Products.Update p) tt ps.

Definition persist (productCopies : gmap Z Product) : M unit :=
  persist_list (snd <$> map_to_list productCopies).

Definition CreateOrder (now : Z) (customer : string) (items : list OrderItem)
  : M Order :=
  if (String.eqb customer "" || Nat.eqb (length items) 0)%bool
  then fail ErrInvalidInput
  else if existsb invalid_item items then fail ErrInvalidInput
  else
    WithTransaction (
      let* productCopies := foldM reserve ∅ items in
      do* persist productCopies in
      Orders.Create now (mkOrder 0 customer items OrderStatusConfirmed 0 0)).

Definition GetOrder (id : Z) : M Order :=
  if id <=? 0 then fail ErrInvalidInput else Orders.GetByID id.

(** [p, err := GetByID(id); p.Stock += n; Update(p)], the restoration
    written out in [CancelOrder] and in each branch of [PartialReturn]. *)
Definition restore_stock (id n : Z) : M unit :=
  let* p := Products.GetByID id in
  Products.Update (set_Stock p (add64 (Stock p) n)).

Definition CancelOrder (now : Z) (id : Z) : M Order :=
  if id <=? 0 then fail ErrInvalidInput
  else
    WithTransaction (
      let* o := Orders.GetByID id in
      if decide (Status o = OrderStatusConfirmed) then
        do* foldM (fun _ it => restore_stock (ProductID it) (Quantity it))
                  tt (Items o) in
        Orders.Update now (set_Status o OrderStatusCancelled)
      else fail ErrInvalidState).

(** [m[k] += q] on a [map[int64]int64] (a missing key reads as zero). *)
Definition map_add (m : gmap Z Z) (k q : Z) : gmap Z Z :=
  <[k := add64 (default 0 (m !! k)) q]> m.

Definition qtyByProduct (items : list OrderItem) : gmap Z Z :=
  fold_left (fun m it => map_add m (ProductID it) (Quantity it)) items ∅.

(** The check of the second loop of [PartialReturn], entry by entry. *)
Definition exceeds (qty : gmap Z Z) (r : OrderItem) : bool :=
  default 0 (qty !! ProductID r) <? Quantity r.

(** The inner loop computing [totalReturn] for a product. *)
Definition totalReturn (returns : list OrderItem) (pid : Z) : Z :=
  fold_left (fun t r => if ProductID r =? pid then add64 t (Quantity r) else t)
            returns 0.

(** Body of the main loop of [PartialReturn]; the loop state is
    [(newItems, consumed)]. *)
Definition return_step (returns : list OrderItem)
    (acc : list OrderItem * gmap Z Z) (it : OrderItem)
  : M (list OrderItem * gmap Z Z) :=
  let '(newItems, consumed) := acc in
  let ret_ := default 0 (consumed !! ProductID it) in
  let total := totalReturn returns (ProductID it) in
  if total <=? ret_ then ret (newItems ++ [it], consumed)
  else
    let canReturn := Quantity it in
    let needReturn := sub64 total ret_ in
    if needReturn <? canReturn then
      let it' := set_Quantity it (sub64 (Quantity it) needReturn) in
      do* restore_stock (ProductID it) needReturn in
      ret (newItems ++ [it'], map_add consumed (ProductID it) needReturn)
    else if needReturn =? canReturn then
      do* restore_stock (ProductID it) needReturn in
      ret (newItems, map_add consumed (ProductID it) needReturn)
    else
      do* restore_stock (ProductID it) canReturn in
      ret (newItems, map_add consumed (ProductID it) canReturn).

Definition PartialReturn (now : Z) (id : Z) (returns : list OrderItem)
  : M Order :=
  if ((id <=? 0) || Nat.eqb (length returns) 0)%bool then fail ErrInvalidInput
  else if existsb invalid_item returns then fail ErrInvalidInput
  else
    WithTransaction (
      let* o := Orders.GetByID id in
      if decide (Status o = OrderStatusConfirmed) then
        let qty := qtyByProduct (Items o) in
        if existsb (exceeds qty) returns then fail ErrInvalidInput
        else
          let* acc := foldM (return_step returns) ([], ∅) (Items o) in
          Orders.Update now (set_Items o (fst acc))
      else fail ErrInvalidState).

End OrderService.

(** ** Observations on a store *)

Definition stock_of (m : MemoryStore) (id : Z) : option Z :=
  Stock <$> productsByID m !! id.

(** Run a computation for its store, or for its result. *)
Definition exec {A} (c : M A) (m : MemoryStore) : MemoryStore := snd (c m).
Definition eval {A} (c : M A) (m : MemoryStore) : result A := fst (c m).

(** ** Quantities over line items *)

(** Quantity of product [pid] over a list of line items, as an exact sum:
    the demand of a submitted order, the quantity an order holds, or the
    quantity a return asks for. *)
Definition quantity_for (pid : Z) (items : list OrderItem) : Z :=
  fold_right (fun it acc => if decide (ProductID it = pid)
                            then Quantity it + acc else acc) 0 items.

(** The last line of [items] that names product [pid], if any. *)
Fixpoint last_line (pid : Z) (items : list OrderItem) : option OrderItem :=
  match items with
  | [] => None
  | it :: rest =>
      match last_line pid rest with
      | Some it' => Some it'
      | None => if decide (ProductID it = pid) then Some it else None
      end
  end.

(** A product as [CreateOrder] leaves it when [line] is the last line
    naming it: the stock less the quantity of that one line. *)
Definition reserved (line : option OrderItem) (p : Product) : Product :=
  match line with
  | Some it => set_Stock p (Stock p - Quantity it)
  | None => p
  end.

(** ** Store invariants *)

(** Every record is filed under its own identifier. *)
Definition products_keyed (m : MemoryStore) : Prop :=
  map_Forall (fun k p => Product_ID p = k) (productsByID m).

Definition orders_keyed (m : MemoryStore) : Prop :=
  map_Forall (fun k o => Order_ID o = k) (ordersByID m).

(** The product counter is positive and ahead of every stored product. *)
Definition prod_counter_fresh (m : MemoryStore) : Prop :=
  0 < nextProdID m /\
  forall k, nextProdID m <= k -> productsByID m !! k = None.

(** What [ProductService.Create] rejects. *)
Definition invalid_product (p : Product) : Prop :=
  Name p = EmptyString \/ SKU p = EmptyString \/
  PrimFloat.ltb (Price p) 0%float = true \/ Stock p < 0.

(** ** Well-formed stores

    What the services maintain: records are filed under their identifier,
    stocks are non-negative 64-bit values, and stored order lines carry a
    positive 64-bit quantity. *)
Definition line_ok (it : OrderItem) : Prop := 0 < Quantity it <= max_int64.

Definition product_ok (k : Z) (p : Product) : Prop :=
  Product_ID p = k /\ 0 <= Stock p <= max_int64.

Definition order_ok (k : Z) (o : Order) : Prop :=
  Order_ID o = k /\ Forall line_ok (Items o).

Definition store_ok (m : MemoryStore) : Prop :=
  map_Forall product_ok (productsByID m) /\
  map_Forall order_ok (ordersByID m).

Definition stocks_nonneg (m : MemoryStore) : Prop :=
  map_Forall (fun _ p => 0 <= Stock p) (productsByID m).

(** ** Sequences of service calls *)

Inductive op :=
| OpCreateProduct (p : Product)
| OpUpdateProduct (p : Product)
| OpDeleteProduct (id : Z)
| OpCreateOrder (now : Z) (customer : string) (items : list OrderItem)
| OpCancelOrder (now id : Z)
| OpPartialReturn (now id : Z) (returns : list OrderItem).

Definition step (o : op) (m : MemoryStore) : MemoryStore :=
  match o with
  | OpCreateProduct p => exec (ProductService.Create p) m
  | OpUpdateProduct p => exec (ProductService.Update p) m
  | OpDeleteProduct id => exec (ProductService.Delete id) m
  | OpCreateOrder now customer items =>
      exec (OrderService.CreateOrder now customer items) m
  | OpCancelOrder now id => exec (OrderService.CancelOrder now id) m
  | OpPartialReturn now id returns =>
      exec (OrderService.PartialReturn now id returns) m
  end.

Definition run (ops : list op) (m : MemoryStore) : MemoryStore :=
  fold_left (fun m o => step o m) ops m.

(** Giving back everything order [id] holds keeps every stock within the
    64-bit range. *)
Definition restore_fits (m : MemoryStore) (id : Z) : Prop :=
  match ordersByID m !! id with
  | None => True
  | Some o =>
      map_Forall (fun k p => Stock p + quantity_for k (Items o) <= max_int64)
                 (productsByID m)
  end.

(** The stock handed to the product service is a 64-bit value, and a
    cancellation or a return does not take a stock past the 64-bit range. *)
Definition op_fits (o : op) (m : MemoryStore) : Prop :=
  match o with
  | OpCreateProduct p | OpUpdateProduct p => in_int64 (Stock p)
  | OpCancelOrder _ id | OpPartialReturn _ id _ => restore_fits m id
  | OpDeleteProduct _ | OpCreateOrder _ _ _ => True
  end.

Fixpoint fits_along (ops : list op) (m : MemoryStore) : Prop :=
  match ops with
  | [] => True
  | o :: ops' => op_fits o m /\ fits_along ops' (step o m)
  end.

(** ** The reconciliation walk of a partial return, after the specification

    [greedy_walk total consumed items] walks the line items in stored order
    with a per-product counter [consumed]; [total pid] is the quantity to
    return for product [pid]. It yields the rebuilt item list and, in
    order, the restorations [(product, units)] made on the way. *)
Definition bump (consumed : Z -> Z) (pid n : Z) : Z -> Z :=
  fun k => if decide (k = pid) then consumed k + n else consumed k.

Fixpoint greedy_walk (total : Z -> Z) (consumed : Z -> Z)
    (items : list OrderItem) : list OrderItem * list (Z * Z) :=
  match items with
  | [] => ([], [])
  | it :: rest =>
      let pid := ProductID it in
      if total pid <=? consumed pid then
        let w := greedy_walk total consumed rest in
        (it :: fst w, snd w)
      else
        let need := total pid - consumed pid in
        let available := Quantity it in
        if need <? available then
          let w := greedy_walk total (bump consumed pid need) rest in
          (set_Quantity it (available - need) :: fst w, (pid, need) :: snd w)
        else if need =? available then
          let w := greedy_walk total (bump consumed pid available) rest in
          (fst w, (pid, available) :: snd w)
        else
          let w := greedy_walk total (bump consumed pid available) rest in
          (fst w, (pid, available) :: snd w)
  end.

(** Units restored to product [pid] by a list of restorations. *)
Definition units_for (pid : Z) (restorations : list (Z * Z)) : Z :=
  fold_right (fun r acc => if decide (fst r = pid) then snd r + acc else acc)
             0 restorations.

(** The walk for a return request: totals are the exact sums of the
    requested quantities and every counter starts at zero. *)
Definition spec_walk (returns items : list OrderItem)
  : list OrderItem * list (Z * Z) :=
  greedy_walk (fun pid => quantity_for pid returns) (fun _ => 0) items.

(** ** Statements about a partial return *)

(** A successful [PartialReturn] behaves as the walk prescribes: the order
    is stored and returned with the rebuilt list and still [Confirmed], and
    every product's stock has grown by the units the walk restores to it. *)
Definition partial_return_as_walk
    (m : MemoryStore) (now id : Z) (returns : list OrderItem) : Prop :=
  forall o o' m',
    ordersByID m !! id = Some o ->
    OrderService.PartialReturn now id returns m = (Ok o', m') ->
    let w := spec_walk returns (Items o) in
    Items o' = fst w /\
    Status o' = OrderStatusConfirmed /\
    ordersByID m' !! id = Some o' /\
    forall k, stock_of m' k = (fun n => n + units_for k (snd w)) <$> stock_of m k.

(** A successful [PartialReturn] moves exactly the requested quantities:
    each stock grows, and the quantity the order holds shrinks, by the total
    requested for the product. *)
Definition partial_return_moves_requested
    (m : MemoryStore) (now id : Z) (returns : list OrderItem) : Prop :=
  forall o o' m',
    ordersByID m !! id = Some o ->
    OrderService.PartialReturn now id returns m = (Ok o', m') ->
    forall k,
      stock_of m' k = (fun n => n + quantity_for k returns) <$> stock_of m k /\
      quantity_for k (Items o') = quantity_for k (Items o) - quantity_for k returns.

(** The request asks of no product more than order [id] holds. *)
Definition within_held (m : MemoryStore) (id : Z) (returns : list OrderItem)
  : Prop :=
  forall o, ordersByID m !! id = Some o ->
            forall k, quantity_for k returns <= quantity_for k (Items o).

(** No 64-bit sum overflows in a partial return: the quantities requested
    for each product of the order add up to a 64-bit value, and so does
    each stock with the units the walk restores to it. *)
Definition partial_return_fits
    (m : MemoryStore) (id : Z) (returns : list OrderItem) : Prop :=
  match ordersByID m !! id with
  | None => True
  | Some o =>
      Forall (fun it => quantity_for (ProductID it) returns <= max_int64)
             (Items o) /\
      map_Forall (fun k p => Stock p + units_for k (snd (spec_walk returns (Items o)))
                             <= max_int64)
                 (productsByID m)
  end.

(** ** Decision procedures *)

(** The invariants of a given store can be decided by computation. *)
#[global] Instance line_ok_dec it : Decision (line_ok it).
Proof. unfold line_ok. apply _. Defined.

#[global] Instance product_ok_dec k p : Decision (product_ok k p).
Proof. unfold product_ok. apply _. Defined.

#[global] Instance order_ok_dec k o : Decision (order_ok k o).
Proof. unfold order_ok. apply _. Defined.

#[global] Instance store_ok_dec m : Decision (store_ok m).
Proof. unfold store_ok. apply _. Defined.

#[global] Instance orders_keyed_dec m : Decision (orders_keyed m).
Proof. unfold orders_keyed. apply _. Defined.

(** The overflow conditions can be decided by computation. *)
#[global] Instance restore_fits_dec m id : Decision (restore_fits m id).
Proof. unfold restore_fits. destruct (ordersByID m !! id); apply _. Defined.

#[global] Instance partial_return_fits_dec m id returns :
  Decision (partial_return_fits m id returns).
Proof.
  unfold partial_return_fits. destruct (ordersByID m !! id); apply _.
Defined.

#[global] Instance in_int64_dec z : Decision (in_int64 z).
Proof. unfold in_int64. apply _. Defined.

#[global] Instance op_fits_dec o m : Decision (op_fits o m).
Proof. destruct o; simpl; apply _. Defined.

#[global] Instance fits_along_dec ops : forall m, Decision (fits_along ops m).
Proof. induction ops as [|o ops IH]; intros m; simpl; apply _. Defined.

(** ** Scenarios *)

Definition newProduct (name sku : string) (price : float) (stock : Z) : Product :=
  mkProduct 0 name sku price stock.

(** Scenario stores: one product ["A"], created through the product
    service in an empty store (it gets identifier 1), with a given stock. *)
Definition productA (stock : Z) : Product := newProduct "A" "SKU1" 10 stock.

Definition store_A (stock : Z) : MemoryStore :=
  exec (ProductService.Create (productA stock)) NewMemoryStore.

(** The same store after order 1 was placed for the given lines. *)
Definition store_A_ordered (stock : Z) (items : list OrderItem) : MemoryStore :=
  exec (OrderService.CreateOrder 0 "Jane" items) (store_A stock).

(** Scenario: a product with the largest 64-bit stock, one unit ordered,
    and the stock then set back to the largest value by a product update. *)
Definition store_A_full : MemoryStore :=
  run [OpCreateProduct (productA max_int64);
       OpCreateOrder 0 "Jane" [mkItem 1 1];
       OpUpdateProduct (mkProduct 1 "A" "SKU1" 10 max_int64)]
      NewMemoryStore.

(** Scenario: a product with 2^62 units, all of them in order 1. *)
Definition store_A_huge : MemoryStore :=
  store_A_ordered (2 ^ 62) [mkItem 1 (2 ^ 62)].

(** Scenario: the sequence behind [store_A_full], then the cancellation. *)
Definition ops_overflow : list op :=
  [OpCreateProduct (productA max_int64);
   OpCreateOrder 0 "Jane" [mkItem 1 1];
   OpUpdateProduct (mkProduct 1 "A" "SKU1" 10 max_int64);
   OpCancelOrder 1 1].

(** Scenario: product 1 with 10 units, order 1 placed with the lines (1,2)
    and (1,3), that is to say with the same product twice. *)
Definition store_A_two_lines : MemoryStore :=
  store_A_ordered 10 [mkItem 1 2; mkItem 1 3].

(** Scenario: product 1 with 5 units, 3 of them ordered, the order cancelled. *)
Definition ops_order_cancel : list op :=
  [OpCreateProduct (productA 5);
   OpCreateOrder 0 "John" [mkItem 1 3];
   OpCancelOrder 1 1].

(** Scenario: order 1 for 3 units, all of them returned; the order stays
    [Confirmed] with no line left. *)
Definition store_A_emptied : MemoryStore :=
  exec (OrderService.PartialReturn 1 1 [mkItem 1 3])
       (store_A_ordered 10 [mkItem 1 3]).

(** Scenario stores with a second product ["B"] (identifier 2, 8 units)
    beside product 1 (10 units). *)
Definition productB (stock : Z) : Product := newProduct "B" "SKU2" 20 stock.

Definition store_AB : MemoryStore :=
  exec (ProductService.Create (productB 8)) (store_A 10).

(** Order 1 holds 2 units of product 1 and 3 units of product 2. *)
Definition store_AB_ordered : MemoryStore :=
  exec (OrderService.CreateOrder 0 "Jane" [mkItem 1 2; mkItem 2 3]) store_AB.


(** ** package repository: listing products *)

Record ProductFilter := mkFilter {
  NameSubstring : string;
  MinPrice : option float;
  MaxPrice : option float
}.

(** [strings.Contains] of Go's standard library, after its documentation:
    [substr] is within [s]. *)
Fixpoint Contains (s substr : string) : bool :=
  String.prefix substr s ||
  match s with
  | EmptyString => false
  | String _ s' => Contains s' substr
  end.

Section Listing.

(** [strings.ToLower] of Go's standard library. *)
Variable ToLower : string -> string.

Definition containsIgnoreCase (s substr : string) : bool :=
  if String.eqb substr "" then true
  else Contains (ToLower s) (ToLower substr).

(** The three [continue] tests in the loop of [List]. *)
Definition skipped (f : ProductFilter) (p : Product) : bool :=
  negb (containsIgnoreCase (Name p) (NameSubstring f))
  || match MinPrice f with
     | Some lo => PrimFloat.ltb (Price p) lo
     | None => false
     end
  || match MaxPrice f with
     | Some hi => PrimFloat.ltb hi (Price p)
     | None => false
     end.

(** The loop of [List] over the products in the order [range] yields them. *)
Definition List_over (f : ProductFilter) (ps : list Product) : list Product :=
  fold_left (fun out p => if skipped f p then out else out ++ [p]) ps [].

(** [MemoryStore.List]; as for [persist], the order of the map is that of
    [map_to_list]. *)
Definition Products_List (f : ProductFilter) : M (list Product) := fun m =>
  (Ok (List_over f (snd <$> map_to_list (productsByID m))), m).

(** [ProductService.List] hands the filter to the repository. *)
Definition ProductService_List (f : ProductFilter) : M (list Product) :=
  Products_List f.

End Listing.

(** ** package httpapi

    A handler is modelled from the point where gin has done its part: what
    [parseID] made of the path parameter and what [ShouldBindJSON] made of
    the body are arguments ([None] when they failed); the reply is the
    status code with the value handed to [c.JSON]. *)

Definition StatusOK : Z := 200.
Definition StatusCreated : Z := 201.
Definition StatusNoContent : Z := 204.
Definition StatusBadRequest : Z := 400.
Definition StatusNotFound : Z := 404.
Definition StatusConflict : Z := 409.

(** The four errors the services return; the [default] case of the Go
    switch covers errors of no other origin. *)
Definition mapErrorToStatus (e : error) : Z :=
  match e with
  | ErrInvalidInput => StatusBadRequest
  | ErrNotEnoughStock => StatusBadRequest
  | ErrNotFound => StatusNotFound
  | ErrInvalidState => StatusConflict
  end.

(** [err.Error()] of the four errors. *)
Definition Error (e : error) : string :=
  match e with
  | ErrInvalidInput => "invalid input"
  | ErrNotFound => "not found"
  | ErrNotEnoughStock => "not enough stock"
  | ErrInvalidState => "invalid state"
  end.

Inductive body :=
| NoBody
| ErrorBody (msg : string)
| ProductBody (p : Product)
| OrderBody (o : Order).

Definition reply : Type := Z * body.

(** A handler: a reply and the store as the call leaves it. *)
Definition handler : Type := MemoryStore -> reply * MemoryStore.

(** The tail shared by the handlers: the service error mapped to its
    status, or the success status with the value. *)
Definition respond {A} (status : Z) (wrap : A -> body) (c : M A) : handler :=
  fun m => match c m with
           | (Ok a, m') => ((status, wrap a), m')
           | (Err e, m') => ((mapErrorToStatus e, ErrorBody (Error e)), m')
           end.

Definition bad_request (msg : string) : handler :=
  fun m => ((StatusBadRequest, ErrorBody msg), m).

Record updateProductReq := mkUpdateProductReq {
  req_Name : string;
  req_Price : float;
  req_Stock : Z
}.

Record createOrderReq := mkCreateOrderReq {
  req_CustomerName : string;
  req_Items : list OrderItem
}.

Module Server.

Definition getProduct (id : option Z) : handler :=
  match id with
  | None => bad_request "invalid id"
  | Some id => respond StatusOK ProductBody (ProductService.GetByID id)
  end.

Definition updateProduct (id : option Z) (req : option updateProductReq)
  : handler :=
  match id with
  | None => bad_request "invalid id"
  | Some id =>
      match req with
      | None => bad_request "invalid json"
      | Some req =>
          respond StatusOK ProductBody
            (ProductService.Update
               (mkProduct id (req_Name req) "" (req_Price req) (req_Stock req)))
      end
  end.

Definition deleteProduct (id : option Z) : handler :=
  match id with
  | None => bad_request "invalid id"
  | Some id => respond StatusNoContent (fun _ : unit => NoBody)
                 (ProductService.Delete id)
  end.

Definition createOrder (now : Z) (req : option createOrderReq) : handler :=
  match req with
  | None => bad_request "invalid json"
  | Some req =>
      respond StatusCreated OrderBody
        (OrderService.CreateOrder now (req_CustomerName req) (req_Items req))
  end.

Definition getOrder (id : option Z) : handler :=
  match id with
  | None => bad_request "invalid id"
  | Some id => respond StatusOK OrderBody (OrderService.GetOrder id)
  end.

Definition cancelOrder (now : Z) (id : option Z) : handler :=
  match id with
  | None => bad_request "invalid id"
  | Some id => respond StatusOK OrderBody (OrderService.CancelOrder now id)
  end.

Definition partialReturn (now : Z) (id : option Z)
    (req : option (list OrderItem)) : handler :=
  match id with
  | None => bad_request "invalid id"
  | Some id =>
      match req with
      | None => bad_request "invalid json"
      | Some items =>
          respond StatusOK OrderBody (OrderService.PartialReturn now id items)
      end
  end.

End Server.

(** ** Further store invariants *)

(** The order counter is positive and ahead of every stored order. *)
Definition order_counter_fresh (m : MemoryStore) : Prop :=
  0 < nextOrderID m /\
  forall k, nextOrderID m <= k -> ordersByID m !! k = None.

(** [p'] is [p] but for its stock. *)
Definition same_but_stock (p p' : Product) : Prop :=
  set_Stock p' (Stock p) = p.

(** From [m] to [m'] no product came or went, and a product changed at
    most in its stock, and only if it is one of [pids]. *)
Definition only_stock_of (pids : list Z) (m m' : MemoryStore) : Prop :=
  forall k,
    match productsByID m !! k, productsByID m' !! k with
    | Some p, Some p' => same_but_stock p p' /\ (k ∉ pids -> p' = p)
    | None, None => True
    | _, _ => False
    end.

(** From [m] to [m'] no record was filed under a new key and no
    identifier was issued. *)
Definition keeps_keys (m m' : MemoryStore) : Prop :=
  (forall k, productsByID m !! k = None -> productsByID m' !! k = None) /\
  (forall k, ordersByID m !! k = None -> ordersByID m' !! k = None) /\
  nextProdID m' = nextProdID m /\ nextOrderID m' = nextOrderID m.

(** * Properties *)

(** ** 64-bit arithmetic *)

Lemma wrap64_id z : in_int64 z -> wrap64 z = z.
Proof.
  unfold in_int64, min_int64, max_int64, wrap64. intros Hz.
  rewrite Z.mod_small; lia.
Qed.

Lemma wrap64_range z : in_int64 (wrap64 z).
Proof.
  unfold in_int64, min_int64, max_int64, wrap64.
  pose proof (Z.mod_pos_bound (z + 2 ^ 63) (2 ^ 64)). lia.
Qed.

Lemma add64_exact a b : in_int64 (a + b) -> add64 a b = a + b.
Proof. apply wrap64_id. Qed.

Lemma sub64_exact a b : in_int64 (a - b) -> sub64 a b = a - b.
Proof. apply wrap64_id. Qed.

Lemma add64_range a b : in_int64 (add64 a b).
Proof. apply wrap64_range. Qed.

Lemma sub64_range a b : in_int64 (sub64 a b).
Proof. apply wrap64_range. Qed.

(** ** The monad *)

Lemma bind_Ok {A B} (c : M A) (k : A -> M B) m b m' :
  bind c k m = (Ok b, m') <->
  exists a m1, c m = (Ok a, m1) /\ k a m1 = (Ok b, m').
Proof.
  unfold bind. split.
  - destruct (c m) as [[a|e] m1]; [eauto | discriminate].
  - intros (a & m1 & -> & Hk). exact Hk.
Qed.

Lemma bind_Err {A B} (c : M A) (k : A -> M B) m e m' :
  bind c k m = (Err e, m') <->
  c m = (Err e, m') \/
  exists a m1, c m = (Ok a, m1) /\ k a m1 = (Err e, m').
Proof.
  unfold bind. split.
  - destruct (c m) as [[a|e1] m1]; [eauto | intros [= -> ->]; auto].
  - intros [-> | (a & m1 & -> & Hk)]; [reflexivity | exact Hk].
Qed.

(** A loop invariant rule for [foldM]: a store predicate kept by every
    iteration over an element satisfying [Q], whether the iteration
    succeeds or fails, is kept by the loop. *)
Lemma foldM_store_inv {A B} (P : MemoryStore -> Prop) (Q : A -> Prop)
    (body : B -> A -> M B) :
  (forall acc x m r m', Q x -> P m -> body acc x m = (r, m') -> P m') ->
  forall xs acc m r m',
    Forall Q xs -> P m -> foldM body acc xs m = (r, m') -> P m'.
Proof.
  intros Hbody xs. induction xs as [|x xs IH]; intros acc m r m' HQ HP Hrun.
  - injection Hrun as <- <-. exact HP.
  - apply Forall_cons in HQ as [Hx HQ].
    simpl in Hrun. unfold bind in Hrun.
    destruct (body acc x m) as [[acc'|e] m1] eqn:Hb.
    + eapply IH; [exact HQ | eapply Hbody; eauto | exact Hrun].
    + injection Hrun as <- <-. eapply Hbody; eauto.
Qed.

(** ** Repository operations *)

Lemma store_eq m1 m2 :
  nextProdID m1 = nextProdID m2 -> nextOrderID m1 = nextOrderID m2 ->
  productsByID m1 = productsByID m2 -> ordersByID m1 = ordersByID m2 ->
  m1 = m2.
Proof. destruct m1, m2. simpl. intros -> -> -> ->. reflexivity. Qed.

Lemma Products_GetByID_inv id m r m' :
  Products.GetByID id m = (r, m') ->
  m' = m /\
  match r with
  | Ok p => productsByID m !! id = Some p
  | Err e => e = ErrNotFound /\ productsByID m !! id = None
  end.
Proof.
  unfold Products.GetByID. destruct (productsByID m !! id) as [p|];
    intros [= <- <-]; auto.
Qed.

Lemma Products_Update_inv p m r m' :
  Products.Update p m = (r, m') ->
  match r with
  | Ok _ => is_Some (productsByID m !! Product_ID p) /\
            m' = set_products m (<[Product_ID p := p]> (productsByID m))
  | Err e => e = ErrNotFound /\ productsByID m !! Product_ID p = None /\ m' = m
  end.
Proof.
  unfold Products.Update. destruct (productsByID m !! Product_ID p) as [q|];
    intros [= <- <-]; eauto.
Qed.

(** [restore_stock] touches the product map only, and only at [id]. *)
Lemma restore_stock_inv id n m r m' :
  OrderService.restore_stock id n m = (r, m') ->
  match r with
  | Ok _ =>
      exists p, productsByID m !! id = Some p /\
        let p' := set_Stock p (add64 (Stock p) n) in
        is_Some (productsByID m !! Product_ID p) /\
        m' = set_products m (<[Product_ID p := p']> (productsByID m))
  | Err e => e = ErrNotFound /\ m' = m
  end.
Proof.
  unfold OrderService.restore_stock, bind. intros H.
  destruct (Products.GetByID id m) as [[p|e] m1] eqn:Hg;
    apply Products_GetByID_inv in Hg as [-> Hg].
  - destruct r as [[]|e].
    + apply Products_Update_inv in H as [Hs ->]. exists p. simpl in *. auto.
    + apply Products_Update_inv in H as (-> & _ & ->). auto.
  - destruct Hg as [-> _]. injection H as <- <-. auto.
Qed.

Lemma restore_stock_orders id n m r m' :
  OrderService.restore_stock id n m = (r, m') ->
  ordersByID m' = ordersByID m /\ nextOrderID m' = nextOrderID m /\
  nextProdID m' = nextProdID m.
Proof.
  intros H. apply restore_stock_inv in H. destruct r as [[]|e].
  - destruct H as (p & _ & _ & ->). auto.
  - destruct H as [_ ->]. auto.
Qed.

Lemma restore_loop_orders (its : list OrderItem) m r m' :
  foldM (fun _ it => OrderService.restore_stock (ProductID it) (Quantity it))
        tt its m = (r, m') ->
  ordersByID m' = ordersByID m /\ nextOrderID m' = nextOrderID m /\
  nextProdID m' = nextProdID m.
Proof.
  intros H.
  apply (foldM_store_inv
           (fun s => ordersByID s = ordersByID m /\
                     nextOrderID s = nextOrderID m /\
                     nextProdID s = nextProdID m) (fun _ => True)) in H; auto.
  2: { apply Forall_forall. auto. }
  intros [] it m0 r0 m0' _ (E1 & E2 & E3) Hb.
  apply restore_stock_orders in Hb as (-> & -> & ->). auto.
Qed.

(** On a store filed by identifier, [restore_stock] is an update in place. *)
Lemma restore_stock_eq id n m :
  products_keyed m ->
  OrderService.restore_stock id n m =
  match productsByID m !! id with
  | Some p =>
      (Ok tt, set_products m (<[id := set_Stock p (add64 (Stock p) n)]>
                                (productsByID m)))
  | None => (Err ErrNotFound, m)
  end.
Proof.
  intros Hkeyed. unfold OrderService.restore_stock, bind, Products.GetByID.
  destruct (productsByID m !! id) as [p|] eqn:Hlk; [|reflexivity].
  unfold Products.Update. simpl.
  rewrite (Hkeyed _ _ Hlk), Hlk. reflexivity.
Qed.

Lemma set_Stock_same p : set_Stock p (Stock p + 0) = p.
Proof. destruct p. unfold set_Stock. simpl. f_equal. lia. Qed.

(** ** Quantities over line items *)

Lemma quantity_for_cons pid it items :
  quantity_for pid (it :: items) =
  if decide (ProductID it = pid) then Quantity it + quantity_for pid items
  else quantity_for pid items.
Proof. reflexivity. Qed.

Lemma quantity_for_nonneg pid items :
  Forall (fun it => 0 < Quantity it) items -> 0 <= quantity_for pid items.
Proof.
  induction 1 as [|it items Hit _ IH]; [reflexivity|].
  rewrite quantity_for_cons. case_decide; lia.
Qed.

Lemma line_ok_pos items :
  Forall line_ok items -> Forall (fun it => 0 < Quantity it) items.
Proof. intros H. eapply Forall_impl; [exact H|]. unfold line_ok. intros; lia. Qed.

Lemma last_line_Some k items it :
  last_line k items = Some it -> ProductID it = k /\ it ∈ items.
Proof.
  induction items as [|x items IH]; [discriminate|]. cbn [last_line].
  destruct (last_line k items) as [y|].
  - intros [= <-]. destruct (IH eq_refl) as [Hy Hin].
    split; [exact Hy | right; exact Hin].
  - destruct (decide (ProductID x = k)) as [Hx|]; [|discriminate].
    intros [= <-]. split; [exact Hx | left].
Qed.

Lemma last_line_distinct k items :
  NoDup (ProductID <$> items) ->
  quantity_for k items = match last_line k items with
                         | Some it => Quantity it
                         | None => 0
                         end.
Proof.
  induction items as [|it items IH]; intros Hnd; [reflexivity|].
  rewrite fmap_cons in Hnd. apply NoDup_cons in Hnd as [Hfresh Hnd].
  rewrite quantity_for_cons. cbn [last_line]. rewrite (IH Hnd).
  destruct (decide (ProductID it = k)) as [<-|Hne].
  - destruct (last_line (ProductID it) items) as [it'|] eqn:Hlast; [|lia].
    exfalso. apply Hfresh.
    apply last_line_Some in Hlast as [<- Hin].
    apply list_elem_of_fmap. exists it'. auto.
  - destruct (last_line k items); reflexivity.
Qed.

(** ** ProductService *)

Lemma NewMemoryStore_counter_fresh : prod_counter_fresh NewMemoryStore.
Proof. split; [reflexivity | intros k _; apply lookup_empty]. Qed.

Lemma Products_Create_counter_fresh p m :
  prod_counter_fresh m -> nextProdID m < max_int64 ->
  prod_counter_fresh (exec (Products.Create p) m).
Proof.
  intros [Hpos Hfresh] Hlt. unfold exec, Products.Create; simpl.
  assert (Hadd : add64 (nextProdID m) 1 = nextProdID m + 1).
  { apply add64_exact. unfold in_int64, min_int64, max_int64 in *. lia. }
  split; simpl; rewrite Hadd; [lia|].
  intros k Hk. rewrite lookup_insert_ne by lia. apply Hfresh. lia.
Qed.

Lemma invalid_product_test p :
  (String.eqb (Name p) "" || String.eqb (SKU p) ""
   || PrimFloat.ltb (Price p) 0%float || (Stock p <? 0))%bool = true <->
  invalid_product p.
Proof.
  unfold invalid_product.
  rewrite !orb_true_iff, !String.eqb_eq, Z.ltb_lt. tauto.
Qed.

(** C10. [ProductService.Create] rejects a product with an empty name, an
    empty SKU, a negative price or a negative stock with [ErrInvalidInput]
    and leaves the store as it was; any other product is stored under the
    next product identifier, which is positive and was not in use. *)
Theorem ProductService_Create_spec (p : Product) (m : MemoryStore) :
  prod_counter_fresh m ->
  (invalid_product p ->
     ProductService.Create p m = (Err ErrInvalidInput, m)) /\
  (~ invalid_product p ->
     exists p' m',
       ProductService.Create p m = (Ok p', m') /\
       p' = set_Product_ID p (nextProdID m) /\
       0 < Product_ID p' /\
       productsByID m !! Product_ID p' = None /\
       productsByID m' = <[Product_ID p' := p']> (productsByID m) /\
       ordersByID m' = ordersByID m).
Proof.
  intros [Hpos Hfresh]. unfold ProductService.Create.
  pose proof (invalid_product_test p) as Htest.
  destruct (_ || _ || _ || _)%bool.
  - split; [reflexivity|]. intros Hgood. exfalso. apply Hgood, Htest. reflexivity.
  - split.
    + intros Hbad. apply Htest in Hbad. discriminate.
    + intros _. eexists _, _. split; [reflexivity|]. simpl.
      repeat split; [exact Hpos | apply Hfresh; lia].
Qed.

(** ** Well-formed stores and the product service *)

Lemma store_ok_orders_keyed m : store_ok m -> orders_keyed m.
Proof. intros [_ Ho] k o Hk. exact (proj1 (Ho k o Hk)). Qed.

Lemma store_ok_stocks_nonneg m : store_ok m -> stocks_nonneg m.
Proof. intros [Hp _] k p Hk. destruct (Hp k p Hk) as [_ ?]. lia. Qed.

Lemma NewMemoryStore_ok : store_ok NewMemoryStore.
Proof. split; apply map_Forall_empty. Qed.

Lemma ProductService_Create_ok p m :
  in_int64 (Stock p) -> store_ok m -> store_ok (exec (ProductService.Create p) m).
Proof.
  intros Hrange [Hp Ho]. unfold exec, ProductService.Create.
  pose proof (invalid_product_test p) as Htest.
  destruct (_ || _ || _ || _)%bool; [split; assumption|].
  assert (~ invalid_product p) as Hgood by (intros H; apply Htest in H; discriminate).
  split; simpl; [|exact Ho].
  apply map_Forall_insert_2; [|exact Hp].
  split; [reflexivity|]. simpl. unfold invalid_product, in_int64 in *. lia.
Qed.

Lemma ProductService_Update_ok p m :
  in_int64 (Stock p) -> store_ok m -> store_ok (exec (ProductService.Update p) m).
Proof.
  intros Hrange [Hp Ho]. unfold exec, ProductService.Update.
  destruct (_ || _ || _ || _)%bool eqn:Htest; [split; assumption|].
  rewrite !orb_false_iff, Z.ltb_ge in Htest.
  unfold bind, Products.Update.
  destruct (productsByID m !! Product_ID p); [|split; assumption].
  split; simpl; [|exact Ho].
  apply map_Forall_insert_2; [|exact Hp].
  split; [reflexivity|]. unfold in_int64 in *. lia.
Qed.

Lemma ProductService_Delete_ok id m :
  store_ok m -> store_ok (exec (ProductService.Delete id) m).
Proof.
  intros [Hp Ho]. unfold exec, ProductService.Delete.
  destruct (id <=? 0); [split; assumption|].
  unfold Products.Delete.
  destruct (productsByID m !! id); [|split; assumption].
  split; simpl; [|exact Ho]. apply map_Forall_delete. exact Hp.
Qed.

(** ** CancelOrder *)

Lemma CancelOrder_Ok_inv now id m o' m' :
  OrderService.CancelOrder now id m = (Ok o', m') ->
  exists o m1,
    0 < id /\ ordersByID m !! id = Some o /\
    Status o = OrderStatusConfirmed /\
    foldM (fun _ it => OrderService.restore_stock (ProductID it) (Quantity it))
          tt (Items o) m = (Ok tt, m1) /\
    Orders.Update now (set_Status o OrderStatusCancelled) m1 = (Ok o', m').
Proof.
  unfold OrderService.CancelOrder, WithTransaction.
  destruct (Z.leb_spec id 0) as [Hid|Hid]; [discriminate|].
  intros H. apply bind_Ok in H as (o & m0 & Hget & H).
  unfold Orders.GetByID in Hget.
  destruct (ordersByID m !! id) as [o0|] eqn:Hlk; [|discriminate].
  injection Hget as -> ->.
  destruct (decide (Status o = OrderStatusConfirmed)) as [Hst|Hst];
    [|discriminate].
  apply bind_Ok in H as ([] & m1 & Hloop & Hupd). eauto 10.
Qed.

(** C7. [CancelOrder] on a stored order whose status is not [Confirmed]
    fails with [ErrInvalidState] and returns the store untouched (so no
    stock changes); hence, once a cancellation has succeeded, the order is
    [Cancelled] and cancelling it again fails with [ErrInvalidState],
    again leaving the store untouched. *)
Theorem CancelOrder_requires_confirmed (m : MemoryStore) (now id : Z) :
  orders_keyed m ->
  (forall o, 0 < id -> ordersByID m !! id = Some o ->
             Status o <> OrderStatusConfirmed ->
             OrderService.CancelOrder now id m = (Err ErrInvalidState, m)) /\
  (forall o' m' now',
     OrderService.CancelOrder now id m = (Ok o', m') ->
     Status o' = OrderStatusCancelled /\
     ordersByID m' !! id = Some o' /\
     OrderService.CancelOrder now' id m' = (Err ErrInvalidState, m')).
Proof.
  intros Hkeyed.
  assert (Hfail : forall (s : MemoryStore) t o, 0 < id ->
            ordersByID s !! id = Some o ->
            Status o <> OrderStatusConfirmed ->
            OrderService.CancelOrder t id s = (Err ErrInvalidState, s)).
  { intros s t o Hid Hlk Hst.
    unfold OrderService.CancelOrder, WithTransaction, bind, Orders.GetByID.
    destruct (Z.leb_spec id 0); [lia|]. rewrite Hlk.
    destruct (decide (Status o = OrderStatusConfirmed)); [contradiction|].
    reflexivity. }
  split; [apply Hfail|].
  intros o' m' now' Hok.
  apply CancelOrder_Ok_inv in Hok as (o & m1 & Hid & Hlk & Hst & Hloop & Hupd).
  apply restore_loop_orders in Hloop as (Hord & _ & _).
  unfold Orders.Update in Hupd. simpl in Hupd.
  rewrite Hord, (Hkeyed _ _ Hlk), Hlk in Hupd.
  injection Hupd as <- <-. simpl.
  rewrite lookup_insert_eq.
  split; [reflexivity|]. split; [reflexivity|].
  eapply Hfail; [exact Hid | simpl; apply lookup_insert_eq | simpl; discriminate].
Qed.

(** C9. [CancelOrder] on a stored [Confirmed] order with no line items
    succeeds: the order is stored and returned as [Cancelled] (still with
    no items) and the products are exactly as before. *)
Theorem CancelOrder_empty_order (m : MemoryStore) (now id : Z) (o : Order) :
  orders_keyed m ->
  0 < id ->
  ordersByID m !! id = Some o ->
  Status o = OrderStatusConfirmed ->
  Items o = [] ->
  exists o' m',
    OrderService.CancelOrder now id m = (Ok o', m') /\
    Status o' = OrderStatusCancelled /\
    Items o' = [] /\
    ordersByID m' !! id = Some o' /\
    productsByID m' = productsByID m.
Proof.
  intros Hkeyed Hid Hlk Hst Hits.
  unfold OrderService.CancelOrder, WithTransaction, bind, Orders.GetByID.
  destruct (Z.leb_spec id 0); [lia|]. rewrite Hlk.
  destruct (decide (Status o = OrderStatusConfirmed)); [|contradiction].
  rewrite Hits. simpl. unfold Orders.Update. simpl.
  rewrite (Hkeyed _ _ Hlk), Hlk.
  eexists _, _. split; [reflexivity|]. simpl.
  rewrite Hits, lookup_insert_eq. auto.
Qed.

(** The restoration loop of [CancelOrder] keeps the products well formed
    when the quantities it gives back fit on top of the stocks. *)
Lemma cancel_loop_ok items : forall m r m',
  map_Forall product_ok (productsByID m) ->
  Forall line_ok items ->
  map_Forall (fun k p => Stock p + quantity_for k items <= max_int64)
             (productsByID m) ->
  foldM (fun _ it => OrderService.restore_stock (ProductID it) (Quantity it))
        tt items m = (r, m') ->
  map_Forall product_ok (productsByID m').
Proof.
  induction items as [|it items IH]; intros m r m' Hp Hl Hroom Hrun.
  - injection Hrun as <- <-. exact Hp.
  - apply Forall_cons in Hl as [Hit Hl].
    simpl in Hrun. unfold bind in Hrun.
    rewrite restore_stock_eq in Hrun
      by (intros k p Hk; exact (proj1 (Hp k p Hk))).
    destruct (productsByID m !! ProductID it) as [p|] eqn:Hlk.
    2: { injection Hrun as <- <-. exact Hp. }
    pose proof (Hp _ _ Hlk) as [Hid Hst].
    pose proof (Hroom _ _ Hlk) as Hfit. cbv beta in Hfit.
    rewrite quantity_for_cons in Hfit.
    rewrite decide_True in Hfit by reflexivity.
    pose proof (quantity_for_nonneg (ProductID it) items (line_ok_pos _ Hl)).
    unfold line_ok in Hit.
    assert (Hadd : add64 (Stock p) (Quantity it) = Stock p + Quantity it).
    { apply add64_exact. unfold in_int64, min_int64, max_int64 in *. lia. }
    eapply IH in Hrun; [exact Hrun | | exact Hl |]; simpl.
    + apply map_Forall_insert_2; [|exact Hp].
      split; [exact Hid|]. simpl. rewrite Hadd. lia.
    + intros k q Hk. destruct (decide (k = ProductID it)) as [->|Hne].
      * rewrite lookup_insert_eq in Hk. injection Hk as <-. simpl.
        rewrite Hadd. lia.
      * rewrite lookup_insert_ne in Hk by congruence.
        pose proof (Hroom _ _ Hk) as Hq. cbv beta in Hq.
        rewrite quantity_for_cons in Hq.
        rewrite decide_False in Hq by congruence. exact Hq.
Qed.

Lemma CancelOrder_ok now id m :
  store_ok m -> restore_fits m id ->
  store_ok (exec (OrderService.CancelOrder now id) m).
Proof.
  intros [Hp Ho] Hfit. unfold exec, OrderService.CancelOrder, WithTransaction.
  destruct (id <=? 0); [split; assumption|].
  unfold bind at 1, Orders.GetByID. unfold restore_fits in Hfit.
  destruct (ordersByID m !! id) as [o|] eqn:Hlk; [|split; assumption].
  destruct (decide (Status o = OrderStatusConfirmed)) as [Hst|Hst];
    [|split; assumption].
  destruct (Ho _ _ Hlk) as [Hoid Hlines].
  unfold bind.
  destruct (foldM _ tt (Items o) m) as [[[]|err] m1] eqn:Hloop.
  - pose proof (restore_loop_orders _ _ _ _ Hloop) as (Hord & _ & _).
    apply cancel_loop_ok in Hloop; try assumption.
    unfold Orders.Update. simpl. rewrite Hord, Hoid, Hlk. simpl.
    split; simpl; [exact Hloop|].
    apply map_Forall_insert_2; [|exact Ho].
    split; [exact Hoid | exact Hlines].
  - pose proof (restore_loop_orders _ _ _ _ Hloop) as (Hord & _ & _).
    apply cancel_loop_ok in Hloop; try assumption.
    split; simpl; [exact Hloop | rewrite Hord; exact Ho].
Qed.

(** The restoration loop of [CancelOrder] when every product is there and
    the quantities fit: each stock grows by what the lines hold of it. *)
Lemma cancel_loop_spec items : forall m,
  map_Forall product_ok (productsByID m) ->
  Forall line_ok items ->
  map_Forall (fun k p => Stock p + quantity_for k items <= max_int64)
             (productsByID m) ->
  Forall (fun it => is_Some (productsByID m !! ProductID it)) items ->
  exists m',
    foldM (fun _ it => OrderService.restore_stock (ProductID it) (Quantity it))
          tt items m = (Ok tt, m') /\
    ordersByID m' = ordersByID m /\
    forall k, productsByID m' !! k =
              (fun p => set_Stock p (Stock p + quantity_for k items))
                <$> productsByID m !! k.
Proof.
  induction items as [|it items IH]; intros m Hp Hl Hroom Hpres.
  - exists m. split; [reflexivity|]. split; [reflexivity|].
    intros k. destruct (productsByID m !! k) as [p|]; [|reflexivity].
    simpl. rewrite set_Stock_same. reflexivity.
  - apply Forall_cons in Hl as [Hit Hl].
    apply Forall_cons in Hpres as [[p Hlk] Hpres].
    cbn [foldM]. unfold bind.
    rewrite restore_stock_eq by (intros k q Hk; exact (proj1 (Hp k q Hk))).
    rewrite Hlk.
    destruct (Hp _ _ Hlk) as [Hid Hst].
    pose proof (Hroom _ _ Hlk) as Hfit. cbv beta in Hfit.
    rewrite quantity_for_cons in Hfit.
    rewrite decide_True in Hfit by reflexivity.
    pose proof (quantity_for_nonneg (ProductID it) items (line_ok_pos _ Hl)).
    unfold line_ok in Hit.
    rewrite add64_exact by (unfold in_int64, min_int64, max_int64 in *; lia).
    set (m1 := set_products m _).
    destruct (IH m1) as (m' & Hrun & Hord & Hstock); [| exact Hl | | |].
    + apply map_Forall_insert_2; [|exact Hp].
      split; [exact Hid | simpl; lia].
    + intros k q Hk. simpl in Hk.
      destruct (decide (k = ProductID it)) as [->|Hne].
      * rewrite lookup_insert_eq in Hk. injection Hk as <-. simpl. lia.
      * rewrite lookup_insert_ne in Hk by congruence.
        pose proof (Hroom _ _ Hk) as Hq. cbv beta in Hq.
        rewrite quantity_for_cons in Hq.
        rewrite decide_False in Hq by congruence. exact Hq.
    + eapply Forall_impl; [exact Hpres|]. intros x [y Hy]. simpl.
      destruct (decide (ProductID x = ProductID it)) as [->|Hne].
      * rewrite lookup_insert_eq. eauto.
      * rewrite lookup_insert_ne by congruence. eauto.
    + exists m'. split; [exact Hrun|]. split; [exact Hord|].
      intros k. rewrite Hstock, quantity_for_cons. simpl.
      destruct (decide (ProductID it = k)) as [<-|Hne].
      * rewrite lookup_insert_eq, Hlk. simpl. unfold set_Stock. simpl.
        do 2 f_equal. lia.
      * rewrite lookup_insert_ne by congruence. reflexivity.
Qed.

(** ** CreateOrder *)

Lemma valid_items_pos items :
  existsb OrderService.invalid_item items = false ->
  Forall (fun it => 0 < Quantity it) items.
Proof.
  intros H. apply Forall_forall. intros it Hin.
  destruct (Z.leb_spec (Quantity it) 0) as [Hle|Hgt]; [|exact Hgt].
  assert (existsb OrderService.invalid_item items = true) as Habs.
  { apply existsb_exists. exists it. split; [apply list_elem_of_In, Hin|].
    unfold OrderService.invalid_item. apply orb_true_iff. right.
    apply Z.leb_le, Hle. }
  congruence.
Qed.

Lemma reserve_Ok_inv copies it m copies1 m1 :
  OrderService.reserve copies it m = (Ok copies1, m1) ->
  m1 = m /\
  exists p,
    productsByID m !! ProductID it = Some p /\
    Quantity it <= Stock p /\
    copies1 = <[Product_ID p := set_Stock p (sub64 (Stock p) (Quantity it))]>
                copies.
Proof.
  unfold OrderService.reserve, bind, Products.GetByID.
  destruct (productsByID m !! ProductID it) as [p|]; [|discriminate].
  destruct (Z.ltb_spec (Stock p) (Quantity it)); [discriminate|].
  unfold ret. simpl. intros [= <- <-]. eauto.
Qed.

(** The first loop of [CreateOrder] only reads the store. Every copy it
    keeps is a well-formed product filed under its identifier and present
    in the store, and every line it accepts has a 64-bit quantity. *)
Lemma reserve_loop_inv items : forall copies m r m',
  map_Forall product_ok (productsByID m) ->
  Forall (fun it => 0 < Quantity it) items ->
  map_Forall (fun k p => product_ok k p /\ is_Some (productsByID m !! k)) copies ->
  foldM OrderService.reserve copies items m = (r, m') ->
  m' = m /\
  match r with
  | Ok copies' =>
      map_Forall (fun k p => product_ok k p /\ is_Some (productsByID m !! k))
                 copies' /\
      Forall line_ok items
  | Err e => e = ErrNotFound \/ e = ErrNotEnoughStock
  end.
Proof.
  induction items as [|it items IH]; intros copies m r m' Hp Hpos Hc Hrun.
  - injection Hrun as <- <-. auto.
  - apply Forall_cons in Hpos as [Hq Hpos].
    simpl in Hrun. unfold bind at 1 in Hrun.
    unfold OrderService.reserve at 1 in Hrun.
    unfold bind at 1, Products.GetByID in Hrun.
    destruct (productsByID m !! ProductID it) as [p|] eqn:Hlk.
    2: { injection Hrun as <- <-. auto. }
    destruct (Z.ltb_spec (Stock p) (Quantity it)) as [Hlt|Hge].
    { injection Hrun as <- <-. auto. }
    unfold ret in Hrun. destruct (Hp _ _ Hlk) as [Hid Hst].
    assert (Hsub : sub64 (Stock p) (Quantity it) = Stock p - Quantity it).
    { apply sub64_exact. unfold in_int64, min_int64, max_int64 in *. lia. }
    apply IH in Hrun; [| exact Hp | exact Hpos |].
    + destruct Hrun as [-> Hr]. split; [reflexivity|].
      destruct r as [copies'|e]; [|exact Hr].
      destruct Hr as [Hc' Hl]. split; [exact Hc'|].
      apply Forall_cons. split; [unfold line_ok; lia | exact Hl].
    + simpl. apply map_Forall_insert_2; [|exact Hc].
      rewrite Hid, Hlk. split; [|eauto].
      split; [exact Hid|]. simpl. rewrite Hsub. lia.
Qed.

Lemma reserve_loop_present items : forall copies m copies' m',
  foldM OrderService.reserve copies items m = (Ok copies', m') ->
  Forall (fun it => is_Some (productsByID m !! ProductID it)) items.
Proof.
  induction items as [|it items IH]; intros copies m copies' m' Hrun;
    [constructor|].
  cbn [foldM] in Hrun. apply bind_Ok in Hrun as (copies1 & m1 & Hstep & Hrun).
  apply reserve_Ok_inv in Hstep as (-> & p & Hlk & _ & _).
  constructor; [eauto | eapply IH, Hrun].
Qed.

(** The copies the first loop of [CreateOrder] ends with: for a product
    some line names, the stored product less the quantity of the last such
    line; the copies held before, for any other product. *)
Lemma reserve_loop_copies items : forall copies m copies' m',
  map_Forall product_ok (productsByID m) ->
  Forall (fun it => 0 < Quantity it) items ->
  foldM OrderService.reserve copies items m = (Ok copies', m') ->
  forall k,
    copies' !! k =
    match last_line k items with
    | Some it => reserved (Some it) <$> productsByID m !! k
    | None => copies !! k
    end.
Proof.
  induction items as [|it items IH]; intros copies m copies' m' Hp Hpos Hrun k.
  - injection Hrun as <- <-. reflexivity.
  - apply Forall_cons in Hpos as [Hq Hpos].
    cbn [foldM] in Hrun. apply bind_Ok in Hrun as (copies1 & m1 & Hstep & Hrun).
    apply reserve_Ok_inv in Hstep as (-> & p & Hlk & Hge & ->).
    destruct (Hp _ _ Hlk) as [Hid Hst].
    rewrite sub64_exact in Hrun
      by (unfold in_int64, min_int64, max_int64 in *; lia).
    rewrite (IH _ _ _ _ Hp Hpos Hrun k). cbn [last_line].
    destruct (last_line k items) as [it'|]; [reflexivity|].
    rewrite Hid. destruct (decide (ProductID it = k)) as [<-|Hne].
    + rewrite lookup_insert_eq, Hlk. reflexivity.
    + rewrite lookup_insert_ne by congruence. reflexivity.
Qed.

(** The second loop of [CreateOrder] keeps the products well formed and
    touches nothing else. *)
Lemma persist_list_inv ps m r m' :
  Forall (fun p => 0 <= Stock p <= max_int64) ps ->
  map_Forall product_ok (productsByID m) ->
  OrderService.persist_list ps m = (r, m') ->
  map_Forall product_ok (productsByID m') /\
  ordersByID m' = ordersByID m /\
  nextOrderID m' = nextOrderID m /\ nextProdID m' = nextProdID m.
Proof.
  intros Hps Hp Hrun. unfold OrderService.persist_list in Hrun.
  apply (foldM_store_inv
           (fun s => map_Forall product_ok (productsByID s) /\
                     ordersByID s = ordersByID m /\
                     nextOrderID s = nextOrderID m /\
                     nextProdID s = nextProdID m)
           (fun p => 0 <= Stock p <= max_int64)) in Hrun; auto.
  intros [] p s r0 s' Hst (Hs & E1 & E2 & E3) Hb.
  apply Products_Update_inv in Hb. destruct r0 as [[]|e].
  - destruct Hb as [_ ->]. simpl. split; [|auto].
    apply map_Forall_insert_2; [|exact Hs]. split; [reflexivity | exact Hst].
  - destruct Hb as (_ & _ & ->). auto.
Qed.

(** The second loop of [CreateOrder] on products that are all in the store
    and have pairwise distinct identifiers: it succeeds, each product ends
    up stored under its identifier and nothing else changes. *)
Lemma persist_list_spec ps : forall m,
  Forall (fun p => is_Some (productsByID m !! Product_ID p)) ps ->
  NoDup (Product_ID <$> ps) ->
  exists m',
    OrderService.persist_list ps m = (Ok tt, m') /\
    nextProdID m' = nextProdID m /\ nextOrderID m' = nextOrderID m /\
    ordersByID m' = ordersByID m /\
    (forall p, p ∈ ps -> productsByID m' !! Product_ID p = Some p) /\
    (forall k, k ∉ Product_ID <$> ps ->
               productsByID m' !! k = productsByID m !! k).
Proof.
  unfold OrderService.persist_list.
  induction ps as [|p ps IH]; intros m Hpres Hnd.
  - exists m. simpl. unfold ret. repeat split; auto.
    intros p Hp. apply elem_of_nil in Hp. contradiction.
  - apply Forall_cons in Hpres as [[q Hq] Hpres].
    rewrite fmap_cons in Hnd. apply NoDup_cons in Hnd as [Hfresh Hnd].
    cbn [foldM]. unfold bind, Products.Update at 1. rewrite Hq.
    set (m1 := set_products m (<[Product_ID p := p]> (productsByID m))).
    destruct (IH m1) as (m' & Hrun & E1 & E2 & E3 & Hin & Hout).
    { eapply Forall_impl; [exact Hpres|]. intros x [y Hy]. simpl.
      destruct (decide (Product_ID x = Product_ID p)) as [->|Hne].
      - rewrite lookup_insert_eq. eauto.
      - rewrite lookup_insert_ne by congruence. eauto. }
    { exact Hnd. }
    exists m'. split; [exact Hrun|]. repeat split; try assumption.
    + intros x Hx. apply elem_of_cons in Hx as [->|Hx]; [|apply Hin, Hx].
      rewrite Hout by exact Hfresh. simpl. apply lookup_insert_eq.
    + intros k Hk. rewrite fmap_cons in Hk. apply not_elem_of_cons in Hk as [Hne Hk].
      rewrite Hout by exact Hk. simpl. apply lookup_insert_ne. congruence.
Qed.

(** X29. Go does not fix the order in which [range] visits a map: on the
    products [CreateOrder] persists (stored, with pairwise distinct
    identifiers), the order makes no difference to the result or the store. *)
Lemma persist_list_Permutation ps ps' m :
  ps ≡ₚ ps' ->
  Forall (fun p => is_Some (productsByID m !! Product_ID p)) ps ->
  NoDup (Product_ID <$> ps) ->
  OrderService.persist_list ps m = OrderService.persist_list ps' m.
Proof.
  intros Hperm Hpres Hnd.
  destruct (persist_list_spec ps m Hpres Hnd)
    as (m1 & -> & A1 & A2 & A3 & Hin1 & Hout1).
  destruct (persist_list_spec ps' m) as (m2 & -> & B1 & B2 & B3 & Hin2 & Hout2).
  { rewrite <- Hperm. exact Hpres. }
  { rewrite <- Hperm. exact Hnd. }
  f_equal. apply store_eq; try congruence.
  apply map_eq. intros k.
  destruct (decide (k ∈ Product_ID <$> ps)) as [Hk|Hk].
  - apply list_elem_of_fmap in Hk as (p & -> & Hp).
    rewrite Hin1 by exact Hp. rewrite Hin2 by (rewrite <- Hperm; exact Hp).
    reflexivity.
  - rewrite Hout1 by exact Hk. rewrite Hout2 by (rewrite <- Hperm; exact Hk).
    reflexivity.
Qed.

Lemma copies_ids (copies : gmap Z Product) :
  map_Forall (fun k p => Product_ID p = k) copies ->
  Product_ID <$> (snd <$> map_to_list copies) = fst <$> map_to_list copies.
Proof.
  intros Hkeyed. rewrite <- list_fmap_compose.
  apply Forall_fmap_ext_1, Forall_forall. intros [k p] Hin.
  apply elem_of_map_to_list in Hin. simpl. exact (Hkeyed _ _ Hin).
Qed.

(** [persist] on copies filed by identifier and present in the store:
    the copies replace the stored products. *)
Lemma persist_spec copies m :
  map_Forall (fun k p => product_ok k p /\ is_Some (productsByID m !! k)) copies ->
  exists m',
    OrderService.persist copies m = (Ok tt, m') /\
    nextProdID m' = nextProdID m /\ nextOrderID m' = nextOrderID m /\
    ordersByID m' = ordersByID m /\
    forall k, productsByID m' !! k =
              match copies !! k with
              | Some p => Some p
              | None => productsByID m !! k
              end.
Proof.
  intros Hc. unfold OrderService.persist.
  assert (Hkeyed : map_Forall (fun k p => Product_ID p = k) copies).
  { intros k p Hk. exact (proj1 (proj1 (Hc k p Hk))). }
  destruct (persist_list_spec (snd <$> map_to_list copies) m)
    as (m' & Hrun & E1 & E2 & E3 & Hin & Hout).
  { apply Forall_fmap, Forall_forall. intros [k p] Hkp.
    apply elem_of_map_to_list in Hkp. simpl.
    rewrite (Hkeyed _ _ Hkp). exact (proj2 (Hc _ _ Hkp)). }
  { rewrite copies_ids by exact Hkeyed. apply NoDup_fst_map_to_list. }
  exists m'. split; [exact Hrun|]. repeat split; try assumption.
  intros k. destruct (copies !! k) as [p|] eqn:Hk.
  - rewrite <- (Hkeyed _ _ Hk). apply Hin.
    apply list_elem_of_fmap. exists (k, p). split; [reflexivity|].
    apply elem_of_map_to_list, Hk.
  - apply Hout. rewrite copies_ids by exact Hkeyed.
    intros Habs. apply list_elem_of_fmap in Habs as ([k' p] & -> & Hkp).
    apply elem_of_map_to_list in Hkp. simpl in Hk. congruence.
Qed.

Lemma CreateOrder_ok now customer items m :
  store_ok m -> store_ok (exec (OrderService.CreateOrder now customer items) m).
Proof.
  intros [Hp Ho]. unfold exec, OrderService.CreateOrder, WithTransaction.
  destruct (_ || _)%bool; [split; assumption|].
  destruct (existsb _ items) eqn:Hvalid; [split; assumption|].
  apply valid_items_pos in Hvalid.
  unfold bind at 1.
  destruct (foldM OrderService.reserve ∅ items m) as [[copies|e] m1] eqn:Hloop;
    apply reserve_loop_inv in Hloop as [-> Hr];
    try assumption; try apply map_Forall_empty; [|split; assumption].
  destruct Hr as [Hcopies Hlines].
  unfold bind at 1.
  destruct (OrderService.persist copies m) as [[[]|e] m2] eqn:Hpersist;
    unfold OrderService.persist in Hpersist;
    apply persist_list_inv in Hpersist as (Hp2 & Hord & _ & _);
    try assumption.
  - unfold Orders.Create. split; simpl; [exact Hp2|]. rewrite Hord.
    apply map_Forall_insert_2; [|exact Ho]. split; [reflexivity | exact Hlines].
  - apply Forall_fmap, Forall_forall. intros [k p] Hin.
    apply elem_of_map_to_list in Hin. destruct (Hcopies _ _ Hin) as [[_ ?] _].
    assumption.
  - split; simpl; [exact Hp2 | rewrite Hord; exact Ho].
  - apply Forall_fmap, Forall_forall. intros [k p] Hin.
    apply elem_of_map_to_list in Hin. destruct (Hcopies _ _ Hin) as [[_ ?] _].
    assumption.
Qed.

(** A successful [CreateOrder]: the order is stored as submitted, under
    the next order identifier and [Confirmed]; each product named by some
    line has its stock reduced by the quantity of the last line naming it. *)
Lemma CreateOrder_Ok_spec now customer items m o m' :
  store_ok m ->
  OrderService.CreateOrder now customer items m = (Ok o, m') ->
  o = mkOrder (nextOrderID m) customer items OrderStatusConfirmed now now /\
  ordersByID m' = <[nextOrderID m := o]> (ordersByID m) /\
  forall k, productsByID m' !! k
            = reserved (last_line k items) <$> productsByID m !! k.
Proof.
  intros [Hp Ho]. unfold OrderService.CreateOrder, WithTransaction.
  destruct (_ || _)%bool; [discriminate|].
  destruct (existsb _ items) eqn:Hvalid; [discriminate|].
  apply valid_items_pos in Hvalid. intros Hrun.
  apply bind_Ok in Hrun as (copies & m1 & Hloop & Hrun).
  pose proof (reserve_loop_copies _ _ _ _ _ Hp Hvalid Hloop) as Hcopies.
  apply reserve_loop_inv in Hloop as (-> & Hc & _);
    [| exact Hp | exact Hvalid | apply map_Forall_empty].
  apply bind_Ok in Hrun as ([] & m2 & Hpersist & Hcreate).
  destruct (persist_spec copies m Hc) as (m2' & Hrun2 & E1 & E2 & E3 & Hlook).
  rewrite Hrun2 in Hpersist. injection Hpersist as ->.
  unfold Orders.Create in Hcreate. simpl in Hcreate.
  injection Hcreate as <- <-. unfold set_UpdatedAt, set_CreatedAt, set_Order_ID.
  simpl. rewrite E2, E3. split; [reflexivity|]. split; [reflexivity|].
  intros k. rewrite Hlook, Hcopies, lookup_empty.
  destruct (last_line k items) as [it|]; simpl.
  - destruct (productsByID m !! k); reflexivity.
  - destruct (productsByID m !! k); reflexivity.
Qed.

Lemma CreateOrder_Ok_lines now customer items m o m' :
  store_ok m ->
  OrderService.CreateOrder now customer items m = (Ok o, m') ->
  Forall line_ok items /\
  Forall (fun it => is_Some (productsByID m !! ProductID it)) items.
Proof.
  intros [Hp Ho]. unfold OrderService.CreateOrder, WithTransaction.
  destruct (_ || _)%bool; [discriminate|].
  destruct (existsb _ items) eqn:Hvalid; [discriminate|].
  apply valid_items_pos in Hvalid. intros Hrun.
  apply bind_Ok in Hrun as (copies & m1 & Hloop & _).
  split; [|eapply reserve_loop_present, Hloop].
  apply reserve_loop_inv in Hloop as (_ & _ & Hl);
    [exact Hl | exact Hp | exact Hvalid | apply map_Forall_empty].
Qed.

(** A failing [CreateOrder] has written nothing: every check comes before
    the first write, and the writes themselves cannot fail. *)
Lemma CreateOrder_error_no_mutation now customer items m e m' :
  store_ok m ->
  OrderService.CreateOrder now customer items m = (Err e, m') ->
  m' = m /\ (e = ErrInvalidInput \/ e = ErrNotFound \/ e = ErrNotEnoughStock).
Proof.
  intros [Hp Ho]. unfold OrderService.CreateOrder, WithTransaction.
  destruct (_ || _)%bool; [intros [= <- <-]; auto|].
  destruct (existsb _ items) eqn:Hvalid; [intros [= <- <-]; auto|].
  apply valid_items_pos in Hvalid. intros Hrun.
  apply bind_Err in Hrun as [Hloop | (copies & m1 & Hloop & Hrun)].
  - apply reserve_loop_inv in Hloop as (-> & He);
      [| exact Hp | exact Hvalid | apply map_Forall_empty]. tauto.
  - apply reserve_loop_inv in Hloop as (-> & Hc & _);
      [| exact Hp | exact Hvalid | apply map_Forall_empty].
    destruct (persist_spec copies m Hc) as (m2 & Hrun2 & _).
    apply bind_Err in Hrun as [Hpersist | ([] & m3 & _ & Hcreate)].
    + rewrite Hrun2 in Hpersist. discriminate.
    + discriminate.
Qed.

(** What the stock check does catch: when every product named is in the
    store and some single line asks for more than the stock of its
    product, [CreateOrder] fails with [ErrNotEnoughStock] and the store is
    untouched. *)
Lemma reserve_loop_line_exceeds items : forall copies m,
  Forall (fun it => is_Some (productsByID m !! ProductID it)) items ->
  Exists (fun it => exists p, productsByID m !! ProductID it = Some p /\
                              Stock p < Quantity it) items ->
  foldM OrderService.reserve copies items m = (Err ErrNotEnoughStock, m).
Proof.
  induction items as [|it items IH]; intros copies m Hpres Hex.
  - apply Exists_nil in Hex. contradiction.
  - apply Forall_cons in Hpres as [[p Hlk] Hpres].
    cbn [foldM]. unfold bind at 1, OrderService.reserve at 1.
    unfold bind at 1, Products.GetByID. rewrite Hlk.
    destruct (Z.ltb_spec (Stock p) (Quantity it)) as [Hlt|Hge]; [reflexivity|].
    unfold ret. apply IH; [exact Hpres|].
    apply Exists_cons in Hex as [(q & Hq & Hlt)|Hex]; [|exact Hex].
    rewrite Hlk in Hq. injection Hq as <-. lia.
Qed.

(** X25. When every product named is stored and some line asks for more
    than the stock of its product, [CreateOrder] fails with
    [ErrNotEnoughStock] and the store is untouched. *)
Lemma CreateOrder_line_exceeds now customer items m :
  customer <> EmptyString ->
  existsb OrderService.invalid_item items = false ->
  Forall (fun it => is_Some (productsByID m !! ProductID it)) items ->
  Exists (fun it => exists p, productsByID m !! ProductID it = Some p /\
                              Stock p < Quantity it) items ->
  OrderService.CreateOrder now customer items m = (Err ErrNotEnoughStock, m).
Proof.
  intros Hcust Hvalid Hpres Hex. unfold OrderService.CreateOrder, WithTransaction.
  destruct (String.eqb_spec customer "") as [|_]; [contradiction|].
  destruct items as [|it items]; [apply Exists_nil in Hex; contradiction|].
  cbn [length Nat.eqb orb]. rewrite Hvalid. unfold bind at 1.
  rewrite (reserve_loop_line_exceeds _ _ _ Hpres Hex). reflexivity.
Qed.


(** X24. When the lines name pairwise distinct products, a successful
    [CreateOrder] on a well-formed store reduces every stock by the
    quantity requested for it. *)
Lemma CreateOrder_distinct_products now customer items m o m' :
  store_ok m ->
  NoDup (ProductID <$> items) ->
  OrderService.CreateOrder now customer items m = (Ok o, m') ->
  forall k, stock_of m' k = (fun n => n - quantity_for k items) <$> stock_of m k.
Proof.
  intros Hok Hnd Hrun k.
  destruct (CreateOrder_Ok_spec _ _ _ _ _ _ Hok Hrun) as (_ & _ & Hprod).
  unfold stock_of. rewrite Hprod, (last_line_distinct k items Hnd).
  destruct (productsByID m !! k) as [p|]; [|reflexivity]. simpl.
  destruct (last_line k items); simpl; f_equal; lia.
Qed.

(** C1 (the code departs from it). With 5 units of product 1 in stock, an
    order with the lines (1,3) and (1,2) is accepted and leaves 3 units:
    each line was checked against, and subtracted from, the stock read from
    the store, and the copy of the last line was persisted. The summed
    demand is 5 and would leave 0. *)
Theorem CreateOrder_repeated_product_stock :
  let items := [mkItem 1 3; mkItem 1 2] in
  let call := OrderService.CreateOrder 0 "John" items in
  is_ok (eval call (store_A 5)) = true /\
  stock_of (store_A 5) 1 = Some 5 /\
  quantity_for 1 items = 5 /\
  stock_of (exec call (store_A 5)) 1 = Some 3.
Proof. vm_compute. auto. Qed.

(** C2 (the code departs from it). With 4 units of product 1 in stock, an
    order with the lines (1,3) and (1,2) asks for 5 units in all, yet the
    call succeeds and writes a stock of 2 instead of failing with
    [ErrNotEnoughStock]. *)
Theorem CreateOrder_repeated_product_accepted :
  let items := [mkItem 1 3; mkItem 1 2] in
  let call := OrderService.CreateOrder 0 "John" items in
  is_ok (eval call (store_A 4)) = true /\
  stock_of (store_A 4) 1 = Some 4 /\
  quantity_for 1 items = 5 /\
  stock_of (exec call (store_A 4)) 1 = Some 2.
Proof. vm_compute. auto. Qed.

(** ** CreateOrder followed by CancelOrder *)

(** X27. When the lines of an order name pairwise distinct products, creating
    the order and cancelling it at once succeeds, leaves the order
    [Cancelled] and gives every product its stock back. *)
Lemma CreateOrder_CancelOrder_distinct now now' customer items m o m1 :
  store_ok m ->
  0 < nextOrderID m ->
  NoDup (ProductID <$> items) ->
  OrderService.CreateOrder now customer items m = (Ok o, m1) ->
  exists o' m2,
    OrderService.CancelOrder now' (Order_ID o) m1 = (Ok o', m2) /\
    Status o' = OrderStatusCancelled /\
    ordersByID m2 !! Order_ID o = Some o' /\
    forall k, stock_of m2 k = stock_of m k.
Proof.
  intros Hok Hpos Hnd Hrun.
  destruct (CreateOrder_Ok_lines _ _ _ _ _ _ Hok Hrun) as [Hlines Hpres].
  destruct (CreateOrder_Ok_spec _ _ _ _ _ _ Hok Hrun) as (-> & Hord & Hprod).
  destruct Hok as [Hp Ho]. cbn [Order_ID].
  destruct (cancel_loop_spec items m1) as (m2 & Hloop & Hord2 & Hstock).
  - pose proof (CreateOrder_ok now customer items m (conj Hp Ho)) as Hok1.
    unfold exec in Hok1. rewrite Hrun in Hok1. exact (proj1 Hok1).
  - exact Hlines.
  - intros k q Hk. rewrite Hprod in Hk.
    destruct (productsByID m !! k) as [p|] eqn:Hlk; [|discriminate].
    injection Hk as <-. destruct (Hp _ _ Hlk) as [Hid Hst].
    rewrite (last_line_distinct k items Hnd).
    destruct (last_line k items) as [it|]; simpl; lia.
  - eapply Forall_impl; [exact Hpres|]. intros it [p Hlk]. simpl.
    rewrite Hprod, Hlk. simpl. eauto.
  - set (o := mkOrder (nextOrderID m) customer items OrderStatusConfirmed now now)
      in *.
    assert (Hget : ordersByID m1 !! nextOrderID m = Some o)
      by (rewrite Hord; apply lookup_insert_eq).
    unfold OrderService.CancelOrder, WithTransaction.
    destruct (Z.leb_spec (nextOrderID m) 0) as [|_]; [lia|].
    unfold bind at 1, Orders.GetByID. rewrite Hget.
    destruct (decide (Status o = OrderStatusConfirmed)) as [_|Hst];
      [|contradiction Hst; reflexivity].
    unfold bind. cbn [Items o]. rewrite Hloop.
    unfold Orders.Update. cbn [Order_ID set_Status o]. rewrite Hord2, Hget.
    eexists _, _. split; [reflexivity|]. split; [reflexivity|].
    split; [simpl; apply lookup_insert_eq|].
    intros k. unfold stock_of. simpl. rewrite Hstock, Hprod.
    rewrite (last_line_distinct k items Hnd).
    destruct (productsByID m !! k) as [p|]; [|reflexivity].
    destruct (last_line k items) as [it|]; simpl; f_equal; lia.
Qed.

(** C6 (the code departs from it). With 5 units of product 1 in stock,
    placing an order with the lines (1,3) and (1,2) and cancelling it at
    once leaves 8 units: the order took 2 units out and the cancellation
    puts 3 + 2 back. The order does become [Cancelled]. *)
Theorem CreateOrder_CancelOrder_repeated_product :
  let items := [mkItem 1 3; mkItem 1 2] in
  let m1 := exec (OrderService.CreateOrder 0 "John" items) (store_A 5) in
  let cancel := OrderService.CancelOrder 1 1 in
  Order_ID <$> ordersByID m1 !! 1 = Some 1 /\
  is_ok (eval cancel m1) = true /\
  Status <$> ordersByID (exec cancel m1) !! 1 = Some OrderStatusCancelled /\
  stock_of (store_A 5) 1 = Some 5 /\
  stock_of (exec cancel m1) 1 = Some 8.
Proof. vm_compute. auto. Qed.

(** ** The walk of PartialReturn *)

Lemma totalReturn_range returns pid :
  in_int64 (OrderService.totalReturn returns pid).
Proof.
  unfold OrderService.totalReturn.
  assert (Hgen : forall acc, in_int64 acc ->
            in_int64 (fold_left
              (fun t r => if ProductID r =? pid then add64 t (Quantity r) else t)
              returns acc)).
  { induction returns as [|r returns IH]; intros acc Hacc; [exact Hacc|].
    simpl. apply IH. destruct (ProductID r =? pid); [apply add64_range | exact Hacc]. }
  apply Hgen. unfold in_int64, min_int64, max_int64. lia.
Qed.

(** With positive requested quantities whose exact sum is a 64-bit value,
    the 64-bit total the code computes is that sum. *)
Lemma totalReturn_exact returns pid :
  Forall (fun r => 0 < Quantity r) returns ->
  quantity_for pid returns <= max_int64 ->
  OrderService.totalReturn returns pid = quantity_for pid returns.
Proof.
  intros Hpos Hfit. unfold OrderService.totalReturn.
  assert (Hgen : forall acc, 0 <= acc ->
            acc + quantity_for pid returns <= max_int64 ->
            fold_left
              (fun t r => if ProductID r =? pid then add64 t (Quantity r) else t)
              returns acc = acc + quantity_for pid returns).
  { clear Hfit. induction Hpos as [|r returns Hr Hpos IH]; intros acc Hacc Hfit.
    - simpl. lia.
    - rewrite quantity_for_cons in Hfit |- *. cbn [fold_left].
      pose proof (quantity_for_nonneg pid returns Hpos) as Hnn.
      destruct (Z.eqb_spec (ProductID r) pid) as [Heq|Hne].
      + rewrite decide_True in Hfit |- * by exact Heq.
        rewrite add64_exact
          by (unfold in_int64, min_int64, max_int64 in *; lia).
        rewrite IH; lia.
      + rewrite decide_False in Hfit |- * by exact Hne.
        apply IH; lia. }
  rewrite Hgen; lia.
Qed.

Lemma units_for_cons k r rs :
  units_for k (r :: rs) =
  if decide (fst r = k) then snd r + units_for k rs else units_for k rs.
Proof. reflexivity. Qed.

Lemma units_for_nonneg k rs :
  Forall (fun r => 0 <= snd r) rs -> 0 <= units_for k rs.
Proof.
  induction 1 as [|r rs Hr _ IH]; [reflexivity|].
  rewrite units_for_cons. case_decide; lia.
Qed.

Lemma greedy_walk_units_nonneg total items : forall consumed,
  Forall (fun it => 0 < Quantity it) items ->
  Forall (fun r => 0 <= snd r) (snd (greedy_walk total consumed items)).
Proof.
  induction items as [|it items IH]; intros consumed Hpos; [constructor|].
  apply Forall_cons in Hpos as [Hq Hpos]. simpl.
  destruct (Z.leb_spec (total (ProductID it)) (consumed (ProductID it))).
  - simpl. apply IH, Hpos.
  - destruct (Z.ltb_spec (total (ProductID it) - consumed (ProductID it))
                         (Quantity it)).
    + simpl. constructor; [simpl; lia | apply IH, Hpos].
    + destruct (_ =? _); simpl; (constructor; [simpl; lia | apply IH, Hpos]).
Qed.

(** The rebuilt list keeps positive 64-bit quantities. *)
Lemma greedy_walk_lines_ok total items : forall consumed,
  Forall line_ok items ->
  Forall line_ok (fst (greedy_walk total consumed items)).
Proof.
  induction items as [|it items IH]; intros consumed Hl; [constructor|].
  apply Forall_cons in Hl as [Hq Hl]. simpl. unfold line_ok in Hq.
  destruct (Z.leb_spec (total (ProductID it)) (consumed (ProductID it))).
  - simpl. constructor; [exact Hq | apply IH, Hl].
  - destruct (Z.ltb_spec (total (ProductID it) - consumed (ProductID it))
                         (Quantity it)).
    + simpl. constructor; [unfold line_ok; simpl; lia | apply IH, Hl].
    + destruct (_ =? _); simpl; apply IH, Hl.
Qed.

Lemma greedy_walk_total_ext total total' items : forall consumed,
  Forall (fun it => total (ProductID it) = total' (ProductID it)) items ->
  greedy_walk total consumed items = greedy_walk total' consumed items.
Proof.
  induction items as [|it items IH]; intros consumed Heq; [reflexivity|].
  apply Forall_cons in Heq as [Hit Heq]. cbn [greedy_walk].
  rewrite Hit, !IH by exact Heq. reflexivity.
Qed.

(** The walk never restores more of a product than the lines hold. *)
Lemma greedy_walk_units_le total items k : forall consumed,
  Forall (fun it => 0 < Quantity it) items ->
  units_for k (snd (greedy_walk total consumed items)) <= quantity_for k items.
Proof.
  induction items as [|it items IH]; intros consumed Hpos; [reflexivity|].
  apply Forall_cons in Hpos as [Hq Hpos]. cbn [greedy_walk].
  rewrite quantity_for_cons.
  pose proof (quantity_for_nonneg k items Hpos) as Hnn.
  destruct (Z.leb_spec (total (ProductID it)) (consumed (ProductID it))).
  - cbn [snd]. specialize (IH consumed Hpos). case_decide; lia.
  - destruct (Z.ltb_spec (total (ProductID it) - consumed (ProductID it))
                         (Quantity it)).
    + cbn [snd]. rewrite units_for_cons. cbn [fst snd].
      specialize (IH (bump consumed (ProductID it)
                        (total (ProductID it) - consumed (ProductID it))) Hpos).
      case_decide; lia.
    + specialize (IH (bump consumed (ProductID it) (Quantity it)) Hpos).
      destruct (_ =? _); cbn [snd]; rewrite units_for_cons; cbn [fst snd];
        case_decide; lia.
Qed.

(** One restoration of [n] units to product [pid], with [rest] still to
    come: it fails on a missing product and otherwise adds [n] exactly,
    leaving room for the rest. *)
Lemma restore_step m pid n rest :
  map_Forall product_ok (productsByID m) ->
  0 < n ->
  Forall (fun r => 0 <= snd r) rest ->
  map_Forall (fun k p => Stock p + units_for k ((pid, n) :: rest) <= max_int64)
             (productsByID m) ->
  match productsByID m !! pid with
  | None => OrderService.restore_stock pid n m = (Err ErrNotFound, m)
  | Some p =>
      let m1 := set_products m (<[pid := set_Stock p (Stock p + n)]>
                                  (productsByID m)) in
      OrderService.restore_stock pid n m = (Ok tt, m1) /\
      map_Forall product_ok (productsByID m1) /\
      map_Forall (fun k p => Stock p + units_for k rest <= max_int64)
                 (productsByID m1)
  end.
Proof.
  intros Hp Hn Hrest Hroom.
  rewrite restore_stock_eq by (intros k p Hk; exact (proj1 (Hp k p Hk))).
  destruct (productsByID m !! pid) as [p|] eqn:Hlk; [|reflexivity].
  destruct (Hp _ _ Hlk) as [Hid Hst].
  pose proof (Hroom _ _ Hlk) as Hfit. cbv beta in Hfit.
  rewrite units_for_cons in Hfit. simpl in Hfit.
  rewrite decide_True in Hfit by reflexivity.
  pose proof (units_for_nonneg pid rest Hrest) as Hnn.
  rewrite add64_exact by (unfold in_int64, min_int64, max_int64 in *; lia).
  simpl. split; [reflexivity|]. split.
  - apply map_Forall_insert_2; [|exact Hp]. split; [exact Hid | simpl; lia].
  - intros k q Hk. destruct (decide (k = pid)) as [->|Hne].
    + rewrite lookup_insert_eq in Hk. injection Hk as <-. simpl. lia.
    + rewrite lookup_insert_ne in Hk by congruence.
      pose proof (Hroom _ _ Hk) as Hq. cbv beta in Hq.
      rewrite units_for_cons in Hq. simpl in Hq.
      rewrite decide_False in Hq by congruence. exact Hq.
Qed.

Lemma map_add_lookup consumed (c : Z -> Z) pid n :
  (forall k, default 0 (consumed !! k) = c k) ->
  in_int64 (c pid + n) ->
  forall k, default 0 (OrderService.map_add consumed pid n !! k) = bump c pid n k.
Proof.
  intros Hrel Hfit k. unfold OrderService.map_add, bump.
  destruct (decide (k = pid)) as [->|Hne].
  - rewrite lookup_insert_eq. simpl. rewrite Hrel. apply add64_exact, Hfit.
  - rewrite lookup_insert_ne by congruence. apply Hrel.
Qed.

Lemma empty_counter_lookup (k : Z) : default 0 ((∅ : gmap Z Z) !! k) = 0.
Proof. rewrite lookup_empty. reflexivity. Qed.

(** What the three restoring branches of the loop have in common: the
    restoration of [n] units either fails on a missing product or is exact,
    and the rest of the loop is then covered by the induction hypothesis. *)
Local Ltac walk_restore n IH Hrun Hroom Hp Hnn Hl Hrel Hc m it r :=
  cbn [fst snd] in Hroom;
  pose proof (restore_step m (ProductID it) n _ Hp ltac:(lia)
                (Hnn _ (line_ok_pos _ Hl)) Hroom) as Hstep;
  unfold bind at 1 in Hrun;
  destruct (productsByID m !! ProductID it) as [p|] eqn:Hlk;
  [ destruct Hstep as (Hrs & Hp1 & Hroom1); rewrite Hrs in Hrun;
    unfold ret in Hrun;
    eapply IH in Hrun; [| exact Hl | | | exact Hp1 | exact Hroom1];
    [ destruct Hrun as (Hp' & Hord & Hr); split; [exact Hp'|];
      split; [exact Hord|];
      destruct r as [acc|e]; [|exact Hr];
      cbn zeta in Hr |- *; cbn [fst snd]; destruct Hr as [Hacc Hst];
      rewrite <- ?app_assoc in Hacc; split; [exact Hacc|];
      intros k; rewrite Hst, units_for_cons;
      cbn [fst snd productsByID set_products];
      destruct (decide (ProductID it = k)) as [<-|Hne];
      [ rewrite lookup_insert_eq, Hlk; simpl; unfold set_Stock; simpl;
        do 2 f_equal; lia
      | rewrite lookup_insert_ne by congruence; reflexivity ]
    | apply map_add_lookup; [exact Hrel|];
      unfold in_int64, min_int64, max_int64 in *; lia
    | intros k; unfold bump; case_decide; subst;
      unfold in_int64, min_int64, max_int64 in *; try apply Hc; lia ]
  | rewrite Hstep in Hrun; injection Hrun as <- <-; auto ].

(** The main loop of [PartialReturn] against [greedy_walk] run on the
    totals the code computes: whatever the outcome the products stay well
    formed and the orders untouched; on success the loop has built the
    walk's list and restored the walk's units; the only failure is a
    missing product. *)
Lemma return_loop_walk returns items : forall newItems consumed c m r m',
  Forall line_ok items ->
  (forall k, default 0 (consumed !! k) = c k) ->
  (forall k, 0 <= c k <= max_int64) ->
  map_Forall product_ok (productsByID m) ->
  map_Forall
    (fun k p => Stock p + units_for k
        (snd (greedy_walk (OrderService.totalReturn returns) c items))
        <= max_int64)
    (productsByID m) ->
  foldM (OrderService.return_step returns) (newItems, consumed) items m
    = (r, m') ->
  map_Forall product_ok (productsByID m') /\
  ordersByID m' = ordersByID m /\
  match r with
  | Ok acc =>
      let w := greedy_walk (OrderService.totalReturn returns) c items in
      fst acc = newItems ++ fst w /\
      forall k, productsByID m' !! k =
                (fun p => set_Stock p (Stock p + units_for k (snd w)))
                  <$> productsByID m !! k
  | Err e => e = ErrNotFound
  end.
Proof.
  induction items as [|it items IH];
    intros newItems consumed c m r m' Hl Hrel Hc Hp Hroom Hrun.
  - injection Hrun as <- <-. split; [exact Hp|]. split; [reflexivity|].
    simpl. split; [symmetry; apply app_nil_r|].
    intros k. destruct (productsByID m !! k) as [p|]; [|reflexivity].
    simpl. rewrite set_Stock_same. reflexivity.
  - apply Forall_cons in Hl as [Hq Hl]. unfold line_ok in Hq.
    pose proof (totalReturn_range returns (ProductID it)) as HT.
    pose proof (Hc (ProductID it)) as Hcp.
    pose proof (greedy_walk_units_nonneg (OrderService.totalReturn returns)
                  items) as Hnn.
    cbn [foldM] in Hrun. unfold bind at 1 in Hrun.
    unfold OrderService.return_step in Hrun.
    rewrite Hrel in Hrun.
    cbn [greedy_walk] in Hroom |- *.
    destruct (Z.leb_spec (OrderService.totalReturn returns (ProductID it))
                         (c (ProductID it))) as [Hle|Hgt].
    + (* enough was returned by earlier lines of the product *)
      unfold ret in Hrun.
      eapply IH in Hrun; eauto.
      destruct Hrun as (Hp' & Hord & Hr). split; [exact Hp'|].
      split; [exact Hord|]. destruct r as [acc|e]; [|exact Hr].
      cbn zeta in Hr |- *. cbn [fst snd]. rewrite <- app_assoc in Hr. exact Hr.
    + rewrite sub64_exact in Hrun
        by (unfold in_int64, min_int64, max_int64 in *; lia).
      set (need := OrderService.totalReturn returns (ProductID it)
                   - c (ProductID it)) in *.
      destruct (Z.ltb_spec need (Quantity it)) as [Hlt|Hge].
      * (* the line absorbs what is left to return *)
        rewrite sub64_exact in Hrun
          by (unfold in_int64, min_int64, max_int64 in *; lia).
        walk_restore need IH Hrun Hroom Hp Hnn Hl Hrel Hc m it r.
      * destruct (Z.eqb_spec need (Quantity it)) as [Heq|Hne'].
        -- (* the line is returned whole and nothing is left *)
           rewrite Heq in Hrun. walk_restore (Quantity it) IH Hrun Hroom Hp Hnn Hl Hrel Hc m it r.
        -- (* the line is returned whole and the rest carries over *)
           walk_restore (Quantity it) IH Hrun Hroom Hp Hnn Hl Hrel Hc m it r.
Qed.

Lemma PartialReturn_Ok_inv now id returns m o' m' :
  OrderService.PartialReturn now id returns m = (Ok o', m') ->
  exists o acc m1,
    0 < id /\
    Forall (fun r => 0 < Quantity r) returns /\
    ordersByID m !! id = Some o /\
    Status o = OrderStatusConfirmed /\
    existsb (OrderService.exceeds (OrderService.qtyByProduct (Items o)))
            returns = false /\
    foldM (OrderService.return_step returns) ([], ∅) (Items o) m
      = (Ok acc, m1) /\
    Orders.Update now (set_Items o (fst acc)) m1 = (Ok o', m').
Proof.
  unfold OrderService.PartialReturn, WithTransaction.
  destruct (Z.leb_spec id 0) as [Hid|Hid]; [discriminate|]. simpl.
  destruct (Nat.eqb _ 0); [discriminate|].
  destruct (existsb OrderService.invalid_item returns) eqn:Hvalid;
    [discriminate|].
  intros H. apply bind_Ok in H as (o & m0 & Hget & H).
  unfold Orders.GetByID in Hget.
  destruct (ordersByID m !! id) as [o0|] eqn:Hlk; [|discriminate].
  injection Hget as -> ->.
  destruct (decide (Status o = OrderStatusConfirmed)) as [Hst|Hst];
    [|discriminate].
  destruct (existsb (OrderService.exceeds _) returns) eqn:Hex; [discriminate|].
  apply bind_Ok in H as (acc & m1 & Hloop & Hupd).
  exists o, acc, m1. auto 10 using valid_items_pos.
Qed.

(** A successful [PartialReturn] in which no 64-bit sum overflows, against
    the walk written from the specification. *)
Lemma PartialReturn_Ok_walk now id returns m o o' m' :
  store_ok m ->
  partial_return_fits m id returns ->
  ordersByID m !! id = Some o ->
  OrderService.PartialReturn now id returns m = (Ok o', m') ->
  let w := spec_walk returns (Items o) in
  o' = set_UpdatedAt (set_Items o (fst w)) now /\
  Forall (fun r => 0 < Quantity r) returns /\
  Status o = OrderStatusConfirmed /\
  ordersByID m' = <[id := o']> (ordersByID m) /\
  forall k, productsByID m' !! k =
            (fun p => set_Stock p (Stock p + units_for k (snd w)))
              <$> productsByID m !! k.
Proof.
  intros [Hp Ho] Hfit Hlk Hrun. unfold partial_return_fits in Hfit.
  rewrite Hlk in Hfit. destruct Hfit as [Htot Hroom].
  apply PartialReturn_Ok_inv in Hrun
    as (o1 & acc & m1 & Hid & Hpos & Hlk1 & Hst & _ & Hloop & Hupd).
  rewrite Hlk in Hlk1. injection Hlk1 as <-.
  destruct (Ho _ _ Hlk) as [Hoid Hlines].
  assert (Hext : greedy_walk (OrderService.totalReturn returns) (fun _ => 0)
                   (Items o) = spec_walk returns (Items o)).
  { apply greedy_walk_total_ext. eapply Forall_impl; [exact Htot|].
    intros it Hit. apply totalReturn_exact; assumption. }
  apply return_loop_walk with (c := fun _ => 0) in Hloop;
    [| exact Hlines | apply empty_counter_lookup
     | intros _; unfold max_int64; lia | exact Hp
     | rewrite Hext; exact Hroom ].
  destruct Hloop as (_ & Hord & Hacc & Hstock).
  rewrite Hext in Hacc, Hstock. simpl in Hacc.
  unfold Orders.Update in Hupd. simpl in Hupd.
  rewrite Hord, Hoid, Hlk in Hupd. injection Hupd as <- <-.
  simpl. rewrite Hacc. auto.
Qed.

(** C4 (as amended). When no 64-bit sum overflows, a successful
    [PartialReturn] stores and returns the order with the item list the
    specified greedy carry-over walk rebuilds (lines in stored order, a
    per-product counter from zero; a line is kept when the counter has
    reached the total, reduced by [need] when [need < available], dropped
    when [need = available], dropped with the shortfall carried to the next
    line of the product when [need > available]), still [Confirmed] even with
    an empty list, and every stock has grown by the units the walk restores. *)
Theorem PartialReturn_greedy_walk
    (m : MemoryStore) (now id : Z) (returns : list OrderItem) :
  store_ok m ->
  partial_return_fits m id returns ->
  partial_return_as_walk m now id returns.
Proof.
  intros Hok Hfit o o' m' Hlk Hrun.
  destruct (PartialReturn_Ok_walk _ _ _ _ _ _ _ Hok Hfit Hlk Hrun)
    as (-> & _ & Hst & Hord & Hstock).
  cbn zeta. simpl. rewrite Hord, lookup_insert_eq.
  split; [reflexivity|]. split; [exact Hst|]. split; [reflexivity|].
  intros k. unfold stock_of. rewrite Hstock.
  destruct (productsByID m !! k); reflexivity.
Qed.

(** C4 as stated fails, in two ways. In [store_A_full] product 1 has the
    largest 64-bit stock and order 1 holds one unit of it; returning that
    unit succeeds, the walk restores one unit, and the stock wraps around
    instead of growing by one. In [store_A_huge] order 1 holds 2^62 units;
    a request for 2^62 units twice totals 2^63, which wraps to a negative
    64-bit total: the code keeps the line where the walk drops it. *)
Lemma PartialReturn_restore_overflow :
  store_ok store_A_full /\
  ~ partial_return_as_walk store_A_full 2 1 [mkItem 1 1] /\
  store_ok store_A_huge /\
  ~ partial_return_as_walk store_A_huge 1 1
      [mkItem 1 (2 ^ 62); mkItem 1 (2 ^ 62)].
Proof.
  split; [compute_done|]. split; [|split; [compute_done|]]; intros Hwalk.
  - eassert (Hlk : ordersByID store_A_full !! 1 = Some _)
      by (vm_compute; reflexivity).
    eassert (Hrun : OrderService.PartialReturn 2 1 [mkItem 1 1] store_A_full
                    = (Ok _, _)) by (vm_compute; reflexivity).
    destruct (Hwalk _ _ _ Hlk Hrun) as (_ & _ & _ & Hstock).
    specialize (Hstock 1). vm_compute in Hstock. discriminate.
  - eassert (Hlk : ordersByID store_A_huge !! 1 = Some _)
      by (vm_compute; reflexivity).
    eassert (Hrun : OrderService.PartialReturn 1 1
                      [mkItem 1 (2 ^ 62); mkItem 1 (2 ^ 62)] store_A_huge
                    = (Ok _, _)) by (vm_compute; reflexivity).
    destruct (Hwalk _ _ _ Hlk Hrun) as (Hitems & _).
    vm_compute in Hitems. discriminate.
Qed.

Lemma PartialReturn_ok now id returns m :
  store_ok m -> restore_fits m id ->
  store_ok (exec (OrderService.PartialReturn now id returns) m).
Proof.
  intros [Hp Ho] Hfit. unfold exec, OrderService.PartialReturn, WithTransaction.
  destruct (_ || _)%bool; [split; assumption|].
  destruct (existsb OrderService.invalid_item returns); [split; assumption|].
  unfold bind at 1, Orders.GetByID. unfold restore_fits in Hfit.
  destruct (ordersByID m !! id) as [o|] eqn:Hlk; [|split; assumption].
  destruct (decide (Status o = OrderStatusConfirmed)) as [Hst|Hst];
    [|split; assumption].
  destruct (existsb _ returns); [split; assumption|].
  destruct (Ho _ _ Hlk) as [Hoid Hlines].
  unfold bind.
  destruct (foldM _ _ (Items o) m) as [[acc|err] m1] eqn:Hloop;
    (apply return_loop_walk with (c := fun _ => 0) in Hloop;
     [| exact Hlines | apply empty_counter_lookup
      | intros _; unfold max_int64; lia | exact Hp |]).
  - destruct Hloop as (Hp1 & Hord & Hacc & _).
    unfold Orders.Update. simpl. rewrite Hord, Hoid, Hlk. simpl.
    split; simpl; [exact Hp1|].
    apply map_Forall_insert_2; [|exact Ho].
    split; [exact Hoid|]. simpl. rewrite Hacc. simpl.
    apply greedy_walk_lines_ok, Hlines.
  - intros k p Hk. specialize (Hfit k p Hk). cbv beta in Hfit.
    pose proof (greedy_walk_units_le (OrderService.totalReturn returns)
                  (Items o) k (fun _ => 0) (line_ok_pos _ Hlines)). lia.
  - destruct Hloop as (Hp1 & Hord & _).
    split; simpl; [exact Hp1 | rewrite Hord; exact Ho].
  - intros k p Hk. specialize (Hfit k p Hk). cbv beta in Hfit.
    pose proof (greedy_walk_units_le (OrderService.totalReturn returns)
                  (Items o) k (fun _ => 0) (line_ok_pos _ Hlines)). lia.
Qed.

(** ** The amounts a partial return moves *)

(** Whatever leaves the order goes back to the stock. *)
Lemma greedy_walk_conservation total items k : forall consumed,
  let w := greedy_walk total consumed items in
  quantity_for k (fst w) + units_for k (snd w) = quantity_for k items.
Proof.
  induction items as [|it items IH]; intros consumed; [reflexivity|].
  cbn zeta in *. cbn [greedy_walk]. rewrite (quantity_for_cons k it items).
  destruct (total (ProductID it) <=? consumed (ProductID it)).
  - cbn [fst snd]. rewrite quantity_for_cons.
    specialize (IH consumed). case_decide; lia.
  - destruct (_ <? _).
    + cbn [fst snd]. rewrite quantity_for_cons, units_for_cons. cbn [fst snd].
      unfold set_Quantity. cbn [ProductID Quantity].
      specialize (IH (bump consumed (ProductID it)
                        (total (ProductID it) - consumed (ProductID it)))).
      case_decide; lia.
    + specialize (IH (bump consumed (ProductID it) (Quantity it))).
      destruct (_ =? _); cbn [fst snd]; rewrite units_for_cons; cbn [fst snd];
        case_decide; lia.
Qed.

(** The walk restores, for each product, what is still to be returned or
    what the lines hold, whichever is less. *)
Lemma greedy_walk_units_min total items k : forall consumed,
  Forall (fun it => 0 < Quantity it) items ->
  (forall j, 0 <= consumed j <= total j) ->
  units_for k (snd (greedy_walk total consumed items))
  = Z.min (total k - consumed k) (quantity_for k items).
Proof.
  induction items as [|it items IH]; intros consumed Hpos Hc.
  - simpl. pose proof (Hc k). lia.
  - apply Forall_cons in Hpos as [Hq Hpos]. cbn [greedy_walk].
    rewrite quantity_for_cons.
    pose proof (quantity_for_nonneg k items Hpos) as Hnn.
    pose proof (Hc (ProductID it)) as Hcp. pose proof (Hc k) as Hck.
    destruct (Z.leb_spec (total (ProductID it)) (consumed (ProductID it))).
    + cbn [snd]. rewrite (IH consumed Hpos Hc). case_decide; subst; lia.
    + destruct (Z.ltb_spec (total (ProductID it) - consumed (ProductID it))
                           (Quantity it)).
      * cbn [snd]. rewrite units_for_cons. cbn [fst snd]. rewrite IH.
        -- unfold bump. repeat case_decide; subst; try congruence; lia.
        -- exact Hpos.
        -- intros j. unfold bump. pose proof (Hc j). case_decide; subst; lia.
      * assert (Hgo : units_for k
                  ((ProductID it, Quantity it)
                   :: snd (greedy_walk total
                             (bump consumed (ProductID it) (Quantity it)) items))
                = Z.min (total k - consumed k)
                    (if decide (ProductID it = k)
                     then Quantity it + quantity_for k items
                     else quantity_for k items)).
        { rewrite units_for_cons. cbn [fst snd]. rewrite IH.
          - unfold bump. repeat case_decide; subst; try congruence; lia.
          - exact Hpos.
          - intros j. unfold bump. pose proof (Hc j). case_decide; subst; lia. }
        destruct (_ =? _); cbn [snd]; exact Hgo.
Qed.

(** After a successful [PartialReturn] without 64-bit overflow, each
    product's stock has grown, and the quantity the order holds of it has
    shrunk, by the quantity requested for it or by the quantity the order
    held, whichever is less. *)
Lemma PartialReturn_amounts now id returns m o o' m' :
  store_ok m ->
  partial_return_fits m id returns ->
  ordersByID m !! id = Some o ->
  OrderService.PartialReturn now id returns m = (Ok o', m') ->
  forall k,
    let moved := Z.min (quantity_for k returns) (quantity_for k (Items o)) in
    stock_of m' k = (fun n => n + moved) <$> stock_of m k /\
    quantity_for k (Items o') = quantity_for k (Items o) - moved.
Proof.
  intros Hok Hfit Hlk Hrun k.
  destruct (PartialReturn_Ok_walk _ _ _ _ _ _ _ Hok Hfit Hlk Hrun)
    as (-> & Hpos & _ & _ & Hstock).
  destruct Hok as [_ Ho]. destruct (Ho _ _ Hlk) as [_ Hlines].
  assert (Hunits : units_for k (snd (spec_walk returns (Items o)))
                   = Z.min (quantity_for k returns) (quantity_for k (Items o))).
  { unfold spec_walk. rewrite greedy_walk_units_min.
    - f_equal. lia.
    - apply line_ok_pos, Hlines.
    - intros j. pose proof (quantity_for_nonneg j returns Hpos). lia. }
  cbn zeta. split.
  - unfold stock_of. rewrite Hstock, Hunits.
    destruct (productsByID m !! k); reflexivity.
  - simpl. rewrite <- Hunits.
    pose proof (greedy_walk_conservation
                  (fun pid => quantity_for pid returns) (Items o) k
                  (fun _ => 0)) as Hcons.
    cbn zeta in Hcons. unfold spec_walk. lia.
Qed.

(** C5 (as amended). When the request asks of no product more than the
    order holds and no 64-bit sum overflows, a successful [PartialReturn]
    raises every product's stock by exactly the total quantity requested
    for it and lowers the quantity the order holds of it by the same. *)
Theorem PartialReturn_exact_amounts
    (m : MemoryStore) (now id : Z) (returns : list OrderItem) :
  store_ok m ->
  partial_return_fits m id returns ->
  within_held m id returns ->
  partial_return_moves_requested m now id returns.
Proof.
  intros Hok Hfit Hheld o o' m' Hlk Hrun k.
  pose proof (PartialReturn_amounts _ _ _ _ _ _ _ Hok Hfit Hlk Hrun k) as Hmoved.
  cbn zeta in Hmoved. rewrite Z.min_l in Hmoved by (apply (Hheld o Hlk)).
  exact Hmoved.
Qed.

(** C5 as stated fails, in two ways. In [store_A_full] the stock is the
    largest 64-bit value and returning one unit wraps it around. And when
    order 1 holds 4 units, the request (1,3), (1,3) for 6 units is accepted
    and moves 4. *)
Lemma PartialReturn_amounts_differ :
  ~ partial_return_moves_requested store_A_full 2 1 [mkItem 1 1] /\
  ~ partial_return_moves_requested (store_A_ordered 10 [mkItem 1 4]) 1 1
      [mkItem 1 3; mkItem 1 3].
Proof.
  split; intros Hclaim.
  - eassert (Hlk : ordersByID store_A_full !! 1 = Some _)
      by (vm_compute; reflexivity).
    eassert (Hrun : OrderService.PartialReturn 2 1 [mkItem 1 1] store_A_full
                    = (Ok _, _)) by (vm_compute; reflexivity).
    destruct (Hclaim _ _ _ Hlk Hrun 1) as [Hstock _].
    vm_compute in Hstock. discriminate.
  - eassert (Hlk : ordersByID (store_A_ordered 10 [mkItem 1 4]) !! 1 = Some _)
      by (vm_compute; reflexivity).
    eassert (Hrun : OrderService.PartialReturn 1 1 [mkItem 1 3; mkItem 1 3]
                      (store_A_ordered 10 [mkItem 1 4]) = (Ok _, _))
      by (vm_compute; reflexivity).
    destruct (Hclaim _ _ _ Hlk Hrun 1) as [Hstock _].
    vm_compute in Hstock. discriminate.
Qed.

(** ** The check of PartialReturn, entry by entry *)

(** The quantities [PartialReturn] tallies per product are the exact sums
    as long as these fit in 64 bits. *)
Lemma qtyByProduct_exact items k :
  Forall line_ok items ->
  quantity_for k items <= max_int64 ->
  default 0 (OrderService.qtyByProduct items !! k) = quantity_for k items.
Proof.
  intros Hl Hfit. unfold OrderService.qtyByProduct.
  assert (Hgen : forall acc : gmap Z Z,
            0 <= default 0 (acc !! k) ->
            default 0 (acc !! k) + quantity_for k items <= max_int64 ->
            default 0 (fold_left
                         (fun m it => OrderService.map_add m (ProductID it)
                                        (Quantity it)) items acc !! k)
            = default 0 (acc !! k) + quantity_for k items).
  { clear Hfit. induction Hl as [|it items Hit Hl IH]; intros acc Hacc Hfit.
    - simpl. lia.
    - rewrite quantity_for_cons in Hfit |- *. cbn [fold_left].
      pose proof (quantity_for_nonneg k items (line_ok_pos _ Hl)) as Hnn.
      unfold line_ok in Hit. unfold OrderService.map_add at 2.
      destruct (decide (ProductID it = k)) as [Heq|Hne].
      + rewrite IH; rewrite Heq, lookup_insert_eq; simpl;
          rewrite add64_exact
            by (unfold in_int64, min_int64, max_int64 in *; lia); lia.
      + rewrite IH; rewrite lookup_insert_ne by exact Hne; lia. }
  rewrite Hgen; rewrite lookup_empty; simpl; lia.
Qed.

(** X28. What the check does catch: a single entry asking for more than the
    order holds of its product makes [PartialReturn] fail with
    [ErrInvalidInput], the store untouched. *)
Lemma PartialReturn_entry_exceeds now id returns m o r :
  store_ok m ->
  0 < id ->
  existsb OrderService.invalid_item returns = false ->
  ordersByID m !! id = Some o ->
  Status o = OrderStatusConfirmed ->
  r ∈ returns ->
  Quantity r <= max_int64 ->
  quantity_for (ProductID r) (Items o) < Quantity r ->
  OrderService.PartialReturn now id returns m = (Err ErrInvalidInput, m).
Proof.
  intros [_ Ho] Hid Hvalid Hlk Hst Hin Hr Hexc.
  destruct (Ho _ _ Hlk) as [_ Hlines].
  unfold OrderService.PartialReturn, WithTransaction.
  destruct (Z.leb_spec id 0); [lia|].
  destruct returns as [|r0 returns]; [apply elem_of_nil in Hin; contradiction|].
  cbn [length Nat.eqb orb]. rewrite Hvalid.
  unfold bind, Orders.GetByID. rewrite Hlk.
  destruct (decide (Status o = OrderStatusConfirmed)); [|contradiction].
  assert (Hex : existsb (OrderService.exceeds (OrderService.qtyByProduct (Items o)))
                  (r0 :: returns) = true).
  { apply existsb_exists. exists r. split; [apply list_elem_of_In, Hin|].
    unfold OrderService.exceeds. rewrite qtyByProduct_exact by (assumption || lia).
    apply Z.ltb_lt, Hexc. }
  rewrite Hex. reflexivity.
Qed.

(** C3 (the code departs from it). Order 1 holds 3 units of product 1. A
    return with the entries (1,2) and (1,2) asks for 4 units, more than the
    order holds; each entry alone passes the check, the call succeeds,
    empties the order and restores 3 units of stock. *)
Theorem PartialReturn_repeated_entry_accepted :
  let m := store_A_ordered 10 [mkItem 1 3] in
  let returns := [mkItem 1 2; mkItem 1 2] in
  let call := OrderService.PartialReturn 1 1 returns in
  Status <$> ordersByID m !! 1 = Some OrderStatusConfirmed /\
  quantity_for 1 <$> (Items <$> ordersByID m !! 1) = Some 3 /\
  quantity_for 1 returns = 4 /\
  is_ok (eval call m) = true /\
  Items <$> ordersByID (exec call m) !! 1 = Some [] /\
  stock_of m 1 = Some 7 /\
  stock_of (exec call m) 1 = Some 10.
Proof. vm_compute. auto 10. Qed.

(** ** Sequences of calls *)

Lemma step_ok o m : op_fits o m -> store_ok m -> store_ok (step o m).
Proof.
  destruct o; simpl; intros Hfit Hok.
  - apply ProductService_Create_ok; assumption.
  - apply ProductService_Update_ok; assumption.
  - apply ProductService_Delete_ok; assumption.
  - apply CreateOrder_ok; assumption.
  - apply CancelOrder_ok; assumption.
  - apply PartialReturn_ok; assumption.
Qed.

Lemma fits_along_app ops1 ops2 : forall m,
  fits_along (ops1 ++ ops2) m -> fits_along ops1 m.
Proof.
  induction ops1 as [|o ops1 IH]; intros m; simpl; [auto|].
  intros [Ho Hrest]. split; [exact Ho | apply IH, Hrest].
Qed.

Lemma run_ok ops : forall m, fits_along ops m -> store_ok m -> store_ok (run ops m).
Proof.
  induction ops as [|o ops IH]; intros m; simpl; [auto|].
  intros [Ho Hrest] Hok. apply IH; [exact Hrest | apply step_ok; assumption].
Qed.

(** C8 (as amended). Along any sequence of product creations, updates and
    deletions, order creations, cancellations and partial returns run from
    the empty store, as long as the stocks handed in are 64-bit values and
    no cancellation or return takes a stock past the 64-bit range, every
    stock is non-negative after each call. *)
Theorem stock_never_negative (ops rest : list op) :
  fits_along (ops ++ rest) NewMemoryStore ->
  stocks_nonneg (run ops NewMemoryStore).
Proof.
  intros Hfit. apply store_ok_stocks_nonneg, run_ok.
  - eapply fits_along_app, Hfit.
  - exact NewMemoryStore_ok.
Qed.

(** C8 as stated fails: a product is created with the largest 64-bit
    stock, one unit is ordered, the stock is set back to the largest value
    and the order is cancelled; the restored unit wraps the stock around to
    the smallest 64-bit value. *)
Lemma stock_negative_after_overflow :
  ~ stocks_nonneg (run ops_overflow NewMemoryStore).
Proof.
  intros Hnn.
  assert (Hs : stock_of (run ops_overflow NewMemoryStore) 1 = Some min_int64)
    by (vm_compute; reflexivity).
  unfold stock_of in Hs.
  destruct (productsByID (run ops_overflow NewMemoryStore) !! 1) as [p|] eqn:Hlk;
    [|discriminate].
  apply Hnn in Hlk. injection Hs as Hs. rewrite Hs in Hlk.
  unfold min_int64 in Hlk. lia.
Qed.

(** ** The statements at work on the scenarios *)

Lemma ProductService_Create_spec_witness :
  prod_counter_fresh NewMemoryStore /\
  exists p' m',
    ProductService.Create (productA 5) NewMemoryStore = (Ok p', m') /\
    Product_ID p' = 1 /\
    productsByID m' !! 1 = Some p'.
Proof.
  split; [exact NewMemoryStore_counter_fresh|].
  destruct (ProductService_Create_spec (productA 5) NewMemoryStore
              NewMemoryStore_counter_fresh) as [_ Hgood].
  destruct Hgood as (p' & m' & Hrun & -> & _ & _ & Hmap & _).
  { unfold invalid_product. vm_compute.
    intros [H|[H|[H|H]]]; discriminate. }
  eexists _, m'. split; [exact Hrun|]. split; [reflexivity|].
  rewrite Hmap. apply lookup_insert_eq.
Defined.

Lemma CancelOrder_requires_confirmed_witness :
  let m := store_A_ordered 10 [mkItem 1 3] in
  orders_keyed m /\
  exists o' m',
    OrderService.CancelOrder 1 1 m = (Ok o', m') /\
    Status o' = OrderStatusCancelled /\
    OrderService.CancelOrder 2 1 m' = (Err ErrInvalidState, m').
Proof.
  intros m. assert (Hkeyed : orders_keyed m) by compute_done.
  split; [exact Hkeyed|].
  eassert (Hrun : OrderService.CancelOrder 1 1 m = (Ok _, _))
    by (vm_compute; reflexivity).
  destruct (proj2 (CancelOrder_requires_confirmed m 1 1 Hkeyed) _ _ 2 Hrun)
    as (Hst & _ & Hagain).
  eauto.
Defined.

Lemma CancelOrder_empty_order_witness :
  let o := mkOrder 1 "Jane" [] OrderStatusConfirmed 0 1 in
  orders_keyed store_A_emptied /\
  ordersByID store_A_emptied !! 1 = Some o /\
  exists o' m',
    OrderService.CancelOrder 2 1 store_A_emptied = (Ok o', m') /\
    Status o' = OrderStatusCancelled /\
    Items o' = [] /\
    ordersByID m' !! 1 = Some o' /\
    productsByID m' = productsByID store_A_emptied.
Proof.
  intros o. assert (Hkeyed : orders_keyed store_A_emptied) by compute_done.
  assert (Hlk : ordersByID store_A_emptied !! 1 = Some o)
    by (vm_compute; reflexivity).
  split; [exact Hkeyed|]. split; [exact Hlk|].
  apply (CancelOrder_empty_order store_A_emptied 2 1 o Hkeyed);
    [lia | exact Hlk | reflexivity | reflexivity].
Defined.

Lemma PartialReturn_greedy_walk_witness :
  let returns := [mkItem 1 4] in
  store_ok store_A_two_lines /\
  partial_return_fits store_A_two_lines 1 returns /\
  partial_return_as_walk store_A_two_lines 2 1 returns /\
  Items <$> ordersByID store_A_two_lines !! 1 = Some [mkItem 1 2; mkItem 1 3] /\
  is_ok (eval (OrderService.PartialReturn 2 1 returns) store_A_two_lines) = true /\
  spec_walk returns [mkItem 1 2; mkItem 1 3] = ([mkItem 1 1], [(1, 2); (1, 2)]).
Proof.
  intros returns.
  assert (Hok : store_ok store_A_two_lines) by compute_done.
  assert (Hfit : partial_return_fits store_A_two_lines 1 returns) by compute_done.
  split; [exact Hok|]. split; [exact Hfit|].
  split; [exact (PartialReturn_greedy_walk store_A_two_lines 2 1 returns Hok Hfit)|].
  vm_compute. auto.
Defined.

Lemma PartialReturn_exact_amounts_witness :
  let returns := [mkItem 1 4] in
  store_ok store_A_two_lines /\
  partial_return_fits store_A_two_lines 1 returns /\
  within_held store_A_two_lines 1 returns /\
  partial_return_moves_requested store_A_two_lines 2 1 returns /\
  is_ok (eval (OrderService.PartialReturn 2 1 returns) store_A_two_lines) = true /\
  stock_of store_A_two_lines 1 = Some 7 /\
  stock_of (exec (OrderService.PartialReturn 2 1 returns) store_A_two_lines) 1
    = Some 11.
Proof.
  intros returns.
  assert (Hok : store_ok store_A_two_lines) by compute_done.
  assert (Hfit : partial_return_fits store_A_two_lines 1 returns) by compute_done.
  assert (Hheld : within_held store_A_two_lines 1 returns).
  { intros o Hlk k. vm_compute in Hlk. injection Hlk as <-.
    unfold returns, quantity_for. simpl. repeat case_decide; lia. }
  split; [exact Hok|]. split; [exact Hfit|]. split; [exact Hheld|].
  split; [exact (PartialReturn_exact_amounts store_A_two_lines 2 1 returns
                   Hok Hfit Hheld)|].
  vm_compute. auto.
Defined.

Lemma stock_never_negative_witness :
  fits_along (ops_order_cancel ++ []) NewMemoryStore /\
  stocks_nonneg (run ops_order_cancel NewMemoryStore) /\
  stock_of (run ops_order_cancel NewMemoryStore) 1 = Some 5.
Proof.
  assert (Hfit : fits_along (ops_order_cancel ++ []) NewMemoryStore)
    by compute_done.
  split; [exact Hfit|].
  split; [exact (stock_never_negative ops_order_cancel [] Hfit)|].
  vm_compute. reflexivity.
Defined.

(** ** The product service: create, read, update, delete *)

(** X1. A product the service has created is read back by its identifier,
    with the fields it was given, and every product stored before is still
    read back unchanged. *)
Theorem ProductService_Create_GetByID (p p' : Product) (m m' : MemoryStore) :
  prod_counter_fresh m ->
  ProductService.Create p m = (Ok p', m') ->
  ProductService.GetByID (Product_ID p') m' = (Ok p', m') /\
  (Name p' = Name p /\ SKU p' = SKU p /\ Price p' = Price p /\
   Stock p' = Stock p) /\
  forall k q, productsByID m !! k = Some q ->
              Products.GetByID k m' = (Ok q, m').
Proof.
  intros [Hpos Hfresh]. unfold ProductService.Create.
  destruct (_ || _ || _ || _)%bool; [discriminate|].
  unfold Products.Create. intros [= <- <-]. cbn [Product_ID set_Product_ID].
  split; [|split; [auto|]].
  - unfold ProductService.GetByID, Products.GetByID.
    destruct (Z.leb_spec (nextProdID m) 0); [lia|].
    cbn [productsByID]. rewrite lookup_insert_eq. reflexivity.
  - intros k q Hk. unfold Products.GetByID. cbn [productsByID].
    rewrite lookup_insert_ne; [rewrite Hk; reflexivity|].
    intros <-. rewrite Hfresh in Hk by lia. discriminate.
Qed.


(** X3. [ProductService.Delete] in full. It fails with [ErrInvalidInput]
    on a non-positive identifier and with [ErrNotFound] on an identifier
    that is not stored, without touching the store. Otherwise exactly that
    product is removed and the orders are left as they are (an order that
    names the product keeps its lines): a later read or a second delete of
    the identifier fails with [ErrNotFound]. *)
Theorem ProductService_Delete_spec (id : Z) (m : MemoryStore) :
  match ProductService.Delete id m with
  | (Ok _, m') =>
      is_Some (productsByID m !! id) /\
      productsByID m' = delete id (productsByID m) /\
      ordersByID m' = ordersByID m /\
      nextProdID m' = nextProdID m /\ nextOrderID m' = nextOrderID m /\
      ProductService.GetByID id m' = (Err ErrNotFound, m') /\
      ProductService.Delete id m' = (Err ErrNotFound, m')
  | (Err e, m') =>
      m' = m /\
      (e = ErrInvalidInput /\ id <= 0
       \/ e = ErrNotFound /\ 0 < id /\ productsByID m !! id = None)
  end.
Proof.
  unfold ProductService.Delete.
  destruct (Z.leb_spec id 0) as [Hid|Hid].
  { split; [reflexivity|]. left. auto. }
  unfold Products.Delete.
  destruct (productsByID m !! id) as [q|] eqn:Hlk.
  - split; [eauto|]. repeat (split; [reflexivity|]).
    unfold ProductService.GetByID, Products.GetByID, Products.Delete.
    destruct (Z.leb_spec id 0); [lia|].
    simpl. rewrite lookup_delete_eq. auto.
  - split; [reflexivity|]. right. auto.
Qed.

(** ** Listing products *)

Lemma List_over_filter ToLower f ps :
  List_over ToLower f ps = filter (fun p => skipped ToLower f p = false) ps.
Proof.
  unfold List_over.
  assert (Hgen : forall acc,
            fold_left (fun out p => if skipped ToLower f p then out
                                    else out ++ [p]) ps acc
            = acc ++ filter (fun p => skipped ToLower f p = false) ps).
  { induction ps as [|p ps IH]; intros acc.
    - simpl. rewrite app_nil_r. reflexivity.
    - cbn [fold_left]. rewrite IH.
      destruct (skipped ToLower f p) eqn:Hs.
      + rewrite filter_cons_False by congruence. reflexivity.
      + rewrite filter_cons_True by exact Hs.
        rewrite <- app_assoc. reflexivity. }
  apply Hgen.
Qed.

Lemma skipped_false ToLower f p :
  skipped ToLower f p = false <->
  containsIgnoreCase ToLower (Name p) (NameSubstring f) = true /\
  (forall lo, MinPrice f = Some lo -> PrimFloat.ltb (Price p) lo = false) /\
  (forall hi, MaxPrice f = Some hi -> PrimFloat.ltb hi (Price p) = false).
Proof.
  unfold skipped. rewrite !orb_false_iff, negb_false_iff.
  destruct (MinPrice f) as [lo|], (MaxPrice f) as [hi|]; split;
    intros [[H1 H2] H3] || intros (H1 & H2 & H3);
    repeat split; auto; try (intros ? [= <-]; assumption);
    try discriminate.
Qed.

(** X4. [List] leaves the store as it is and returns the stored products
    that pass the filter, and only those: the name contains the substring
    (in the sense of [containsIgnoreCase]), the price is not below the
    minimum and not above the maximum, where a bound is given. No more
    products are returned than are stored, and on a store filed by
    identifier no identifier is returned twice. *)
Theorem Products_List_spec (ToLower : string -> string)
    (f : ProductFilter) (m : MemoryStore) :
  exists out,
    ProductService_List ToLower f m = (Ok out, m) /\
    (forall p, p ∈ out <->
       (exists k, productsByID m !! k = Some p) /\
       containsIgnoreCase ToLower (Name p) (NameSubstring f) = true /\
       (forall lo, MinPrice f = Some lo -> PrimFloat.ltb (Price p) lo = false) /\
       (forall hi, MaxPrice f = Some hi -> PrimFloat.ltb hi (Price p) = false)) /\
    (length out <= size (productsByID m))%nat /\
    (products_keyed m -> NoDup (Product_ID <$> out)).
Proof.
  eexists. split; [reflexivity|]. rewrite List_over_filter.
  split; [|split].
  - intros p. rewrite list_elem_of_filter, skipped_false, list_elem_of_fmap.
    split.
    + intros [Hpass ([k q] & -> & Hin)]. apply elem_of_map_to_list in Hin.
      split; [eauto | exact Hpass].
    + intros [[k Hk] Hpass]. split; [exact Hpass|].
      exists (k, p). split; [reflexivity | apply elem_of_map_to_list, Hk].
  - etransitivity; [apply length_filter|].
    rewrite length_fmap, length_map_to_list. reflexivity.
  - intros Hkeyed.
    apply (sublist_NoDup _ (Product_ID <$> (snd <$> map_to_list (productsByID m)))).
    + rewrite (copies_ids _ Hkeyed). apply NoDup_fst_map_to_list.
    + apply fmap_sublist, sublist_filter.
Qed.

(** X5. With no substring and no price bound, [List] returns every stored
    product, each once, whatever [ToLower] does. *)
Theorem Products_List_all (ToLower : string -> string) (m : MemoryStore) :
  exists out,
    ProductService_List ToLower (mkFilter "" None None) m = (Ok out, m) /\
    out ≡ₚ snd <$> map_to_list (productsByID m).
Proof.
  eexists. split; [reflexivity|]. rewrite List_over_filter.
  assert (Hall : forall ps : list Product,
            filter (fun p => skipped ToLower (mkFilter "" None None) p = false) ps
            = ps).
  { induction ps as [|p ps IH]; [reflexivity|].
    rewrite filter_cons_True by reflexivity. rewrite IH. reflexivity. }
  rewrite Hall. reflexivity.
Qed.

(** ** CreateOrder: its errors and what it stores *)

Lemma reserve_loop_reads items : forall copies m r m',
  foldM OrderService.reserve copies items m = (r, m') ->
  m' = m /\
  match r with
  | Ok _ => True
  | Err e => e = ErrNotFound \/ e = ErrNotEnoughStock
  end.
Proof.
  induction items as [|it items IH]; intros copies m r m' Hrun.
  - injection Hrun as <- <-. auto.
  - cbn [foldM] in Hrun. unfold bind at 1 in Hrun.
    unfold OrderService.reserve at 1 in Hrun.
    unfold bind at 1, Products.GetByID in Hrun.
    destruct (productsByID m !! ProductID it) as [p|].
    2: { injection Hrun as <- <-. auto. }
    destruct (Stock p <? Quantity it).
    { injection Hrun as <- <-. auto. }
    unfold ret in Hrun. eapply IH, Hrun.
Qed.

Lemma persist_list_frame ps m r m' :
  OrderService.persist_list ps m = (r, m') ->
  ordersByID m' = ordersByID m /\
  nextOrderID m' = nextOrderID m /\ nextProdID m' = nextProdID m /\
  match r with Ok _ => True | Err e => e = ErrNotFound end.
Proof.
  unfold OrderService.persist_list. revert m.
  induction ps as [|p ps IH]; intros m Hrun.
  - injection Hrun as <- <-. auto.
  - cbn [foldM] in Hrun. unfold bind at 1 in Hrun.
    destruct (Products.Update p m) as [[[]|e] m1] eqn:Hupd;
      apply Products_Update_inv in Hupd.
    + destruct Hupd as [_ ->]. apply IH in Hrun. exact Hrun.
    + destruct Hupd as (-> & _ & ->). injection Hrun as <- <-. auto.
Qed.

Lemma CreateOrder_valid now customer items :
  customer <> EmptyString -> items <> [] ->
  existsb OrderService.invalid_item items = false ->
  OrderService.CreateOrder now customer items =
  (let* productCopies := foldM OrderService.reserve ∅ items in
   do* OrderService.persist productCopies in
   Orders.Create now (mkOrder 0 customer items OrderStatusConfirmed 0 0)).
Proof.
  intros Hc Hi Hv. unfold OrderService.CreateOrder, WithTransaction.
  destruct (String.eqb_spec customer "") as [|_]; [contradiction|].
  destruct items as [|it items]; [contradiction|].
  cbn [length Nat.eqb orb]. rewrite Hv. reflexivity.
Qed.

Lemma invalid_item_Exists items :
  existsb OrderService.invalid_item items = true <->
  Exists (fun it => ProductID it <= 0 \/ Quantity it <= 0) items.
Proof.
  rewrite existsb_exists, Exists_exists. unfold OrderService.invalid_item.
  split; intros (it & Hin & Hit); exists it;
    (split; [apply list_elem_of_In || apply list_elem_of_In; exact Hin|]).
  - apply orb_true_iff in Hit. rewrite !Z.leb_le in Hit. exact Hit.
  - apply orb_true_iff. rewrite !Z.leb_le. exact Hit.
Qed.

(** X6. [CreateOrder] fails with [ErrInvalidInput] exactly when the
    customer name is empty, there is no item, or some item has a
    non-positive product identifier or quantity; the store is then
    untouched. Nothing inside the transaction produces that error. *)
Theorem CreateOrder_InvalidInput_iff now customer items m :
  ((exists m', OrderService.CreateOrder now customer items m
               = (Err ErrInvalidInput, m')) <->
   customer = EmptyString \/ items = [] \/
   Exists (fun it => ProductID it <= 0 \/ Quantity it <= 0) items) /\
  (forall m', OrderService.CreateOrder now customer items m
              = (Err ErrInvalidInput, m') -> m' = m).
Proof.
  destruct (String.eqb_spec customer "") as [Hc|Hc].
  { unfold OrderService.CreateOrder. rewrite Hc. simpl.
    split; [split; [auto | eauto] | intros m' [= <-]; reflexivity]. }
  destruct items as [|it0 items0] eqn:Hitems.
  { unfold OrderService.CreateOrder. rewrite (proj2 (String.eqb_neq _ _) Hc).
    simpl. split; [split; [auto | eauto] | intros m' [= <-]; reflexivity]. }
  rewrite <- Hitems in *. assert (Hne : items <> []) by (rewrite Hitems; discriminate).
  clear Hitems.
  destruct (existsb OrderService.invalid_item items) eqn:Hv.
  { assert (Hrun : OrderService.CreateOrder now customer items m
                   = (Err ErrInvalidInput, m)).
    { unfold OrderService.CreateOrder.
      rewrite (proj2 (String.eqb_neq _ _) Hc).
      destruct items; [contradiction|]. cbn [length Nat.eqb orb].
      rewrite Hv. reflexivity. }
    rewrite Hrun. apply invalid_item_Exists in Hv.
    split; [split; [auto | eauto] | intros m' [= <-]; reflexivity]. }
  assert (Hnever : forall m', OrderService.CreateOrder now customer items m
                              <> (Err ErrInvalidInput, m')).
  { intros m' Hrun. rewrite CreateOrder_valid in Hrun by assumption.
    apply bind_Err in Hrun as [Hloop | (copies & m1 & _ & Hrun)].
    - apply reserve_loop_reads in Hloop as [_ [?|?]]; discriminate.
    - apply bind_Err in Hrun as [Hp | ([] & m2 & _ & Hcreate)].
      + apply persist_list_frame in Hp as (_ & _ & _ & ?). discriminate.
      + discriminate. }
  split.
  - split.
    + intros [m' Hrun]. exfalso. exact (Hnever _ Hrun).
    + intros [?|[?|Hex]]; [contradiction | contradiction |].
      apply invalid_item_Exists in Hex. congruence.
  - intros m' Hrun. exfalso. exact (Hnever _ Hrun).
Qed.

Lemma CreateOrder_Ok_order now customer items m o m' :
  OrderService.CreateOrder now customer items m = (Ok o, m') ->
  o = mkOrder (nextOrderID m) customer items OrderStatusConfirmed now now /\
  ordersByID m' = <[nextOrderID m := o]> (ordersByID m) /\
  nextOrderID m' = add64 (nextOrderID m) 1 /\
  nextProdID m' = nextProdID m.
Proof.
  unfold OrderService.CreateOrder, WithTransaction.
  destruct (_ || _)%bool; [discriminate|].
  destruct (existsb _ items); [discriminate|].
  intros Hrun.
  apply bind_Ok in Hrun as (copies & m1 & Hloop & Hrun).
  apply reserve_loop_reads in Hloop as [-> _].
  apply bind_Ok in Hrun as ([] & m2 & Hpersist & Hcreate).
  apply persist_list_frame in Hpersist as (E1 & E2 & E3 & _).
  unfold Orders.Create in Hcreate. injection Hcreate as <- <-.
  unfold set_UpdatedAt, set_CreatedAt, set_Order_ID. simpl.
  rewrite E1, E2, E3. auto.
Qed.

(** X7. An order [CreateOrder] has placed is read back by [GetOrder] under
    the identifier it was given: the customer and the items exactly as
    submitted (repeated products included), [Confirmed], created and
    updated at the time of the call. Every other stored order is as before. *)
Theorem CreateOrder_GetOrder now customer items m o m' :
  0 < nextOrderID m ->
  OrderService.CreateOrder now customer items m = (Ok o, m') ->
  OrderService.GetOrder (Order_ID o) m' = (Ok o, m') /\
  Order_ID o = nextOrderID m /\
  CustomerName o = customer /\ Items o = items /\
  Status o = OrderStatusConfirmed /\
  CreatedAt o = now /\ UpdatedAt o = now /\
  forall k, k <> Order_ID o -> ordersByID m' !! k = ordersByID m !! k.
Proof.
  intros Hpos Hrun.
  apply CreateOrder_Ok_order in Hrun as (-> & Hord & _ & _).
  cbn [Order_ID CustomerName Items Status CreatedAt UpdatedAt].
  split; [|repeat (split; [reflexivity|])].
  - unfold OrderService.GetOrder, Orders.GetByID.
    destruct (Z.leb_spec (nextOrderID m) 0); [lia|].
    rewrite Hord, lookup_insert_eq. reflexivity.
  - intros k Hk. rewrite Hord. apply lookup_insert_ne. congruence.
Qed.

(** X8. [CreateOrder] is all or nothing on a well-formed store: when it
    fails, with [ErrInvalidInput], [ErrNotFound] or [ErrNotEnoughStock] and
    never with [ErrInvalidState], no stock has been written and no order
    has been created. *)
Theorem CreateOrder_all_or_nothing now customer items m e m' :
  store_ok m ->
  OrderService.CreateOrder now customer items m = (Err e, m') ->
  m' = m /\ e <> ErrInvalidState.
Proof.
  intros Hok Hrun.
  destruct (CreateOrder_error_no_mutation _ _ _ _ _ _ Hok Hrun)
    as (-> & [-> | [-> | ->]]); split; (reflexivity || discriminate).
Qed.

(** ** CancelOrder: what it restores, and when it stops half way *)



(** The restoration loop succeeds only if every line's product is stored. *)
Lemma cancel_loop_present items : forall m m',
  products_keyed m ->
  foldM (fun _ it => OrderService.restore_stock (ProductID it) (Quantity it))
        tt items m = (Ok tt, m') ->
  Forall (fun it => is_Some (productsByID m !! ProductID it)) items.
Proof.
  induction items as [|it items IH]; intros m m' Hkeyed Hrun; [constructor|].
  cbn [foldM] in Hrun. unfold bind in Hrun.
  rewrite restore_stock_eq in Hrun by exact Hkeyed.
  destruct (productsByID m !! ProductID it) as [p|] eqn:Hlk; [|discriminate].
  constructor; [rewrite Hlk; eauto|].
  apply IH in Hrun.
  - eapply Forall_impl; [exact Hrun|]. intros x Hx. simpl in Hx.
    destruct (decide (ProductID x = ProductID it)) as [->|Hne].
    + rewrite Hlk. eauto.
    + rewrite lookup_insert_ne in Hx by congruence. exact Hx.
  - intros k q Hk. simpl in Hk.
    destruct (decide (k = ProductID it)) as [->|Hne].
    + rewrite lookup_insert_eq in Hk. injection Hk as <-. simpl.
      exact (Hkeyed _ _ Hlk).
    + rewrite lookup_insert_ne in Hk by congruence. exact (Hkeyed _ _ Hk).
Qed.

Lemma store_ok_products_keyed m : store_ok m -> products_keyed m.
Proof. intros [Hp _] k p Hk. exact (proj1 (Hp k p Hk)). Qed.

Lemma stock_of_fmap m m' (d : Z -> Z) :
  (forall k, productsByID m' !! k =
             (fun p => set_Stock p (Stock p + d k)) <$> productsByID m !! k) ->
  forall k, stock_of m' k = (fun n => n + d k) <$> stock_of m k.
Proof.
  intros H k. unfold stock_of. rewrite H.
  destruct (productsByID m !! k); reflexivity.
Qed.

(** A successful [CancelOrder] on a well-formed store, when the quantities
    given back fit on top of the stocks. *)
Lemma CancelOrder_Ok_stock now id m o o' m' :
  store_ok m -> restore_fits m id ->
  ordersByID m !! id = Some o ->
  OrderService.CancelOrder now id m = (Ok o', m') ->
  o' = set_UpdatedAt (set_Status o OrderStatusCancelled) now /\
  ordersByID m' = <[id := o']> (ordersByID m) /\
  forall k, stock_of m' k
            = (fun n => n + quantity_for k (Items o)) <$> stock_of m k.
Proof.
  intros Hok Hfit Hlk Hrun.
  pose proof Hok as [Hp Ho]. destruct (Ho _ _ Hlk) as [Hoid Hlines].
  unfold restore_fits in Hfit. rewrite Hlk in Hfit.
  apply CancelOrder_Ok_inv in Hrun
    as (o0 & m1 & _ & Hlk0 & _ & Hloop & Hupd).
  rewrite Hlk in Hlk0. injection Hlk0 as <-.
  pose proof (cancel_loop_present _ _ _ (store_ok_products_keyed _ Hok) Hloop)
    as Hpres.
  destruct (cancel_loop_spec (Items o) m Hp Hlines Hfit Hpres)
    as (m2 & Hloop2 & Hord & Hstock).
  rewrite Hloop in Hloop2. injection Hloop2 as <-.
  unfold Orders.Update in Hupd. simpl in Hupd.
  rewrite Hord, Hoid, Hlk in Hupd. injection Hupd as <- <-.
  split; [reflexivity|]. split; [reflexivity|].
  apply (stock_of_fmap m _ (fun k => quantity_for k (Items o))).
  exact Hstock.
Qed.

(** X9. On a well-formed store where giving back the order's quantities
    overflows no stock, [CancelOrder] of a stored [Confirmed] order succeeds
    exactly when the product of every line is still stored. When it
    succeeds, the order comes back [Cancelled] with the time of the call as
    its update time and replaces the stored one, and the stock of every
    product has grown by the quantity the order held of it, summed over
    its lines. *)
Theorem CancelOrder_restores_held now id m o :
  store_ok m -> restore_fits m id -> 0 < id ->
  ordersByID m !! id = Some o ->
  Status o = OrderStatusConfirmed ->
  (Forall (fun it => is_Some (productsByID m !! ProductID it)) (Items o) <->
   exists o' m', OrderService.CancelOrder now id m = (Ok o', m')) /\
  forall o' m',
    OrderService.CancelOrder now id m = (Ok o', m') ->
    o' = set_UpdatedAt (set_Status o OrderStatusCancelled) now /\
    ordersByID m' = <[id := o']> (ordersByID m) /\
    forall k, stock_of m' k
              = (fun n => n + quantity_for k (Items o)) <$> stock_of m k.
Proof.
  intros Hok Hfit0 Hid Hlk Hst.
  pose proof Hok as [Hp Ho]. destruct (Ho _ _ Hlk) as [Hoid Hlines].
  pose proof Hfit0 as Hfit.
  unfold restore_fits in Hfit. rewrite Hlk in Hfit.
  assert (Hcall : forall m1,
    foldM (fun _ it => OrderService.restore_stock (ProductID it) (Quantity it))
          tt (Items o) m = (Ok tt, m1) ->
    ordersByID m1 = ordersByID m ->
    OrderService.CancelOrder now id m =
    (Ok (set_UpdatedAt (set_Status o OrderStatusCancelled) now),
     set_orders m1 (<[id := set_UpdatedAt (set_Status o OrderStatusCancelled) now]>
                      (ordersByID m1)))).
  { intros m1 Hloop Hord.
    unfold OrderService.CancelOrder, WithTransaction.
    destruct (Z.leb_spec id 0); [lia|].
    unfold bind at 1, Orders.GetByID. rewrite Hlk.
    destruct (decide (Status o = OrderStatusConfirmed)); [|contradiction].
    unfold bind. rewrite Hloop. unfold Orders.Update. simpl.
    rewrite Hord, Hoid, Hlk. reflexivity. }
  split.
  - split.
    + intros Hpres.
      destruct (cancel_loop_spec (Items o) m Hp Hlines Hfit Hpres)
        as (m1 & Hloop & Hord & _).
      eexists _, _. apply (Hcall m1 Hloop Hord).
    + intros (o' & m' & Hrun).
      apply CancelOrder_Ok_inv in Hrun
        as (o0 & m1 & _ & Hlk0 & _ & Hloop & _).
      rewrite Hlk in Hlk0. injection Hlk0 as <-.
      eapply cancel_loop_present; [|exact Hloop].
      apply store_ok_products_keyed, Hok.
  - intros o' m' Hrun.
    apply (CancelOrder_Ok_stock now id m o o' m' Hok Hfit0 Hlk Hrun).
Qed.


(** What a failed [CancelOrder] tells about the call and leaves of the store. *)
Lemma CancelOrder_Err_inv now id m e m' :
  OrderService.CancelOrder now id m = (Err e, m') ->
  (ordersByID m' = ordersByID m /\ nextOrderID m' = nextOrderID m /\
   nextProdID m' = nextProdID m) /\
  match e with
  | ErrInvalidInput => id <= 0 /\ m' = m
  | ErrInvalidState =>
      0 < id /\ m' = m /\
      exists o, ordersByID m !! id = Some o /\ Status o <> OrderStatusConfirmed
  | ErrNotFound =>
      0 < id /\
      match ordersByID m !! id with
      | None => m' = m
      | Some o => Status o = OrderStatusConfirmed
      end
  | ErrNotEnoughStock => False
  end.
Proof.
  unfold OrderService.CancelOrder, WithTransaction.
  destruct (Z.leb_spec id 0) as [Hid|Hid].
  { intros [= <- <-]. auto. }
  unfold bind at 1, Orders.GetByID.
  destruct (ordersByID m !! id) as [o|] eqn:Hlk.
  2: { intros [= <- <-]. auto. }
  destruct (decide (Status o = OrderStatusConfirmed)) as [Hst|Hst].
  2: { intros [= <- <-]. eauto 10. }
  intros Hrun. apply bind_Err in Hrun as [Hloop | ([] & m1 & Hloop & Hupd)].
  - pose proof (restore_loop_orders _ _ _ _ Hloop) as Hsame.
    split; [exact Hsame|].
    assert (He : e = ErrNotFound).
    { clear Hsame Hlk. revert m Hloop.
      induction (Items o) as [|it its IH]; intros m Hloop; [discriminate|].
      cbn [foldM] in Hloop.
      apply bind_Err in Hloop as [H1 | ([] & m2 & _ & H2)].
      - apply restore_stock_inv in H1 as [-> _]. reflexivity.
      - eapply IH, H2. }
    subst e. auto.
  - pose proof (restore_loop_orders _ _ _ _ Hloop) as Hsame.
    unfold Orders.Update in Hupd.
    destruct (ordersByID m1 !! _); [discriminate|].
    injection Hupd as <- <-. split; [exact Hsame|]. auto.
Qed.

(** X11. The failures of [CancelOrder]. Whatever the error, the stored
    orders and the two counters are as before. [ErrInvalidInput] means a
    non-positive identifier and [ErrInvalidState] a stored order that is
    not [Confirmed], both with the store untouched; [ErrNotFound] means
    the order is not stored (store untouched) or a [Confirmed] order one of
    whose records could not be written; [ErrNotEnoughStock] never comes. *)
Theorem CancelOrder_errors now id m e m' :
  OrderService.CancelOrder now id m = (Err e, m') ->
  (ordersByID m' = ordersByID m /\ nextOrderID m' = nextOrderID m /\
   nextProdID m' = nextProdID m) /\
  match e with
  | ErrInvalidInput => id <= 0 /\ m' = m
  | ErrInvalidState =>
      0 < id /\ m' = m /\
      exists o, ordersByID m !! id = Some o /\ Status o <> OrderStatusConfirmed
  | ErrNotFound =>
      0 < id /\
      match ordersByID m !! id with
      | None => m' = m
      | Some o => Status o = OrderStatusConfirmed
      end
  | ErrNotEnoughStock => False
  end.
Proof. exact (CancelOrder_Err_inv now id m e m'). Qed.

(** ** What the order service leaves alone *)

Local Ltac in_cons :=
  let Hk := fresh "Hk" in
  intros ? Hk;
  first [ exact Hk
        | apply list_elem_of_singleton in Hk; subst; left
        | right; exact Hk
        | apply elem_of_nil in Hk; contradiction ].

Lemma only_stock_of_refl pids m : only_stock_of pids m m.
Proof.
  intros k. destruct (productsByID m !! k) as [p|]; [|exact I].
  split; [|reflexivity]. unfold same_but_stock. destruct p. reflexivity.
Qed.

Lemma only_stock_of_trans pids1 pids2 pids m1 m2 m3 :
  (forall k, k ∈ pids1 -> k ∈ pids) ->
  (forall k, k ∈ pids2 -> k ∈ pids) ->
  only_stock_of pids1 m1 m2 -> only_stock_of pids2 m2 m3 ->
  only_stock_of pids m1 m3.
Proof.
  intros H1 H2 H12 H23 k. specialize (H12 k). specialize (H23 k).
  destruct (productsByID m1 !! k) as [p1|], (productsByID m2 !! k) as [p2|],
    (productsByID m3 !! k) as [p3|]; try contradiction; try exact I.
  destruct H12 as [S12 F12], H23 as [S23 F23]. split.
  - unfold same_but_stock in *. rewrite <- S12, <- S23.
    destruct p3. reflexivity.
  - intros Hk. rewrite F23, F12; auto.
Qed.

Lemma only_stock_of_products pids m m' m'' :
  productsByID m'' = productsByID m' ->
  only_stock_of pids m m' -> only_stock_of pids m m''.
Proof. intros E H k. rewrite E. apply H. Qed.

Lemma restore_stock_only_stock id n m r m' :
  products_keyed m ->
  OrderService.restore_stock id n m = (r, m') ->
  only_stock_of [id] m m' /\ products_keyed m'.
Proof.
  intros Hkeyed. rewrite restore_stock_eq by exact Hkeyed.
  destruct (productsByID m !! id) as [p|] eqn:Hlk; intros [= <- <-].
  2: { split; [apply only_stock_of_refl | exact Hkeyed]. }
  split.
  - intros k. simpl. destruct (decide (k = id)) as [->|Hne].
    + rewrite Hlk, lookup_insert_eq. split.
      * unfold same_but_stock. destruct p. reflexivity.
      * intros Hk. exfalso. apply Hk. left.
    + rewrite lookup_insert_ne by congruence.
      apply (only_stock_of_refl [id] m k).
  - intros k q Hk. simpl in Hk. destruct (decide (k = id)) as [->|Hne].
    + rewrite lookup_insert_eq in Hk. injection Hk as <-. simpl.
      exact (Hkeyed _ _ Hlk).
    + rewrite lookup_insert_ne in Hk by congruence. exact (Hkeyed _ _ Hk).
Qed.

Lemma cancel_loop_only_stock items : forall m r m',
  products_keyed m ->
  foldM (fun _ it => OrderService.restore_stock (ProductID it) (Quantity it))
        tt items m = (r, m') ->
  only_stock_of (ProductID <$> items) m m'.
Proof.
  induction items as [|it items IH]; intros m r m' Hkeyed Hrun.
  - injection Hrun as <- <-. apply only_stock_of_refl.
  - cbn [foldM] in Hrun. unfold bind in Hrun.
    destruct (OrderService.restore_stock _ _ m) as [[[]|e] m1] eqn:Hstep;
      apply restore_stock_only_stock in Hstep as [Hone Hk1]; try exact Hkeyed.
    + apply IH in Hrun; [|exact Hk1].
      eapply only_stock_of_trans; [| |exact Hone|exact Hrun];
        cbn [fmap list_fmap]; in_cons.
    + injection Hrun as <- <-.
      eapply only_stock_of_trans;
        [| |exact Hone|apply (only_stock_of_refl [])];
        cbn [fmap list_fmap]; in_cons.
Qed.

Lemma totalReturn_unnamed returns pid :
  pid ∉ ProductID <$> returns -> OrderService.totalReturn returns pid = 0.
Proof.
  unfold OrderService.totalReturn. generalize 0.
  induction returns as [|r returns IH]; intros acc Hpid; [reflexivity|].
  cbn [fold_left]. cbn [fmap list_fmap] in Hpid.
  apply not_elem_of_cons in Hpid as [Hne Hpid].
  destruct (Z.eqb_spec (ProductID r) pid) as [Heq|_]; [congruence|].
  apply IH, Hpid.
Qed.

(** The main loop of [PartialReturn] writes only to products that a line
    of the order and an entry of the request both name. *)
Lemma return_loop_only_stock returns items : forall acc m r m',
  products_keyed m ->
  (forall k, k ∉ ProductID <$> returns -> snd acc !! k = None) ->
  foldM (OrderService.return_step returns) acc items m = (r, m') ->
  only_stock_of (filter (.∈ ProductID <$> returns) (ProductID <$> items)) m m'.
Proof.
  induction items as [|it items IH]; intros [newItems consumed] m r m'
    Hkeyed Hcons Hrun.
  - injection Hrun as <- <-. apply only_stock_of_refl.
  - cbn [foldM] in Hrun. unfold bind at 1 in Hrun.
    unfold OrderService.return_step at 1 in Hrun. cbn [snd] in Hcons.
    assert (Hstep : forall n k, k ∉ ProductID <$> returns ->
              ProductID it ∈ ProductID <$> returns ->
              OrderService.map_add consumed (ProductID it) n !! k = None).
    { intros n k Hk Hin. unfold OrderService.map_add.
      rewrite lookup_insert_ne by (intros Heq; subst k; contradiction).
      apply Hcons, Hk. }
    assert (Hafter : forall (acc1 : list OrderItem * gmap Z Z) n,
              (ProductID it ∈ ProductID <$> returns ->
               forall k, k ∉ ProductID <$> returns -> snd acc1 !! k = None) ->
              (let* acc' :=
                 (do* OrderService.restore_stock (ProductID it) n in ret acc1)
               in foldM (OrderService.return_step returns) acc' items) m
              = (r, m') ->
              ProductID it ∈ ProductID <$> returns ->
              only_stock_of
                (filter (.∈ ProductID <$> returns) (ProductID <$> it :: items))
                m m').
    { intros acc1 n Hacc1 Hrun1 Hin. unfold bind at 1 2 in Hrun1.
      destruct (OrderService.restore_stock _ _ m) as [[[]|e] m1] eqn:Hres;
        apply restore_stock_only_stock in Hres as [Hone Hk1];
        try exact Hkeyed.
      - unfold ret in Hrun1. apply IH in Hrun1; [|exact Hk1|auto].
        eapply only_stock_of_trans; [| |exact Hone|exact Hrun1];
          cbn [fmap list_fmap]; rewrite filter_cons_True by exact Hin;
          in_cons.
      - injection Hrun1 as <- <-.
        eapply only_stock_of_trans;
          [| |exact Hone|apply (only_stock_of_refl [])];
          cbn [fmap list_fmap];
          rewrite filter_cons_True by exact Hin; in_cons. }
    destruct (decide (ProductID it ∈ ProductID <$> returns)) as [Hin|Hout].
    + destruct (_ <=? _).
      { unfold ret in Hrun. apply IH in Hrun; [|exact Hkeyed|exact Hcons].
        eapply only_stock_of_trans;
          [| |apply (only_stock_of_refl [])|exact Hrun];
          cbn [fmap list_fmap];
          rewrite filter_cons_True by exact Hin; in_cons. }
      destruct (_ <? _); [|destruct (_ =? _)];
        (eapply Hafter; [|exact Hrun|exact Hin]; intros _ k Hk; cbn [snd];
         apply Hstep; assumption).
    + rewrite (totalReturn_unnamed _ _ Hout), (Hcons _ Hout) in Hrun.
      cbn [default] in Hrun. change (0 <=? 0) with true in Hrun.
      unfold ret in Hrun. apply IH in Hrun; [|exact Hkeyed|exact Hcons].
      cbn [fmap list_fmap]. rewrite filter_cons_False by exact Hout.
      exact Hrun.
Qed.

Lemma last_line_unnamed k items :
  k ∉ ProductID <$> items -> last_line k items = None.
Proof.
  intros Hk. destruct (last_line k items) as [it|] eqn:Hl; [|reflexivity].
  apply last_line_Some in Hl as [<- Hin]. exfalso. apply Hk.
  apply list_elem_of_fmap. eauto.
Qed.

(** X12. The order service never adds or removes a product and never
    changes a name, an SKU or a price, whether the call succeeds or fails:
    on a well-formed store [CreateOrder] changes at most the stock of
    products its items name, [CancelOrder] at most the stock of products
    the order's lines name, and [PartialReturn] at most the stock of
    products named both by a line of the order and by an entry of the
    request. *)
Theorem order_calls_only_move_stock (m : MemoryStore) :
  store_ok m ->
  (forall now customer items,
     only_stock_of (ProductID <$> items) m
       (exec (OrderService.CreateOrder now customer items) m)) /\
  (forall now id o,
     ordersByID m !! id = Some o ->
     only_stock_of (ProductID <$> Items o) m
       (exec (OrderService.CancelOrder now id) m)) /\
  (forall now id returns o,
     ordersByID m !! id = Some o ->
     only_stock_of
       (filter (.∈ ProductID <$> returns) (ProductID <$> Items o)) m
       (exec (OrderService.PartialReturn now id returns) m)).
Proof.
  intros Hok. pose proof (store_ok_products_keyed _ Hok) as Hkeyed.
  split; [|split].
  - intros now customer items. unfold exec.
    destruct (OrderService.CreateOrder now customer items m) as [[o|e] m']
      eqn:Hrun; cbn [snd].
    + apply CreateOrder_Ok_spec in Hrun as (_ & _ & Hprod); [|exact Hok].
      intros k. rewrite Hprod.
      destruct (productsByID m !! k) as [p|]; [|exact I]. cbn [fmap option_fmap option_map].
      split.
      * unfold same_but_stock, reserved.
        destruct (last_line k items); destruct p; reflexivity.
      * intros Hk. rewrite (last_line_unnamed _ _ Hk). reflexivity.
    + apply CreateOrder_error_no_mutation in Hrun as [-> _]; [|exact Hok].
      apply only_stock_of_refl.
  - intros now id o Hlk. unfold exec, OrderService.CancelOrder, WithTransaction.
    destruct (id <=? 0); [apply only_stock_of_refl|].
    unfold bind at 1, Orders.GetByID. rewrite Hlk.
    destruct (decide (Status o = OrderStatusConfirmed));
      [|apply only_stock_of_refl].
    unfold bind.
    destruct (foldM _ tt (Items o) m) as [[[]|e1] m1] eqn:Hloop;
      apply cancel_loop_only_stock in Hloop; try exact Hkeyed; cbn [snd].
    + unfold Orders.Update.
      destruct (ordersByID m1 !! _); cbn [snd]; [|exact Hloop].
      eapply only_stock_of_products; [|exact Hloop]. reflexivity.
    + exact Hloop.
  - intros now id returns o Hlk.
    unfold exec, OrderService.PartialReturn, WithTransaction.
    destruct (_ || _)%bool; [apply only_stock_of_refl|].
    destruct (existsb OrderService.invalid_item returns);
      [apply only_stock_of_refl|].
    unfold bind at 1, Orders.GetByID. rewrite Hlk.
    destruct (decide (Status o = OrderStatusConfirmed));
      [|apply only_stock_of_refl].
    destruct (existsb (OrderService.exceeds _) returns);
      [apply only_stock_of_refl|].
    unfold bind.
    destruct (foldM _ _ (Items o) m) as [[acc|e1] m1] eqn:Hloop;
      apply return_loop_only_stock in Hloop; try exact Hkeyed;
      try (intros k _; apply lookup_empty); cbn [snd].
    + unfold Orders.Update.
      destruct (ordersByID m1 !! _); cbn [snd]; [|exact Hloop].
      eapply only_stock_of_products; [|exact Hloop]. reflexivity.
    + exact Hloop.
Qed.

(** ** PartialReturn: conservation, structure and failures *)

(** A successful [PartialReturn] on a well-formed store, when giving back
    all the order holds would overflow no stock: the walk with the totals
    the code computes. *)
Lemma PartialReturn_Ok_conserve now id returns m o o' m' :
  store_ok m -> restore_fits m id ->
  ordersByID m !! id = Some o ->
  OrderService.PartialReturn now id returns m = (Ok o', m') ->
  store_ok m' /\
  Status o' = OrderStatusConfirmed /\
  ordersByID m' = <[id := o']> (ordersByID m) /\
  forall k,
    0 <= quantity_for k (Items o') <= quantity_for k (Items o) /\
    stock_of m' k =
    (fun n => n + (quantity_for k (Items o) - quantity_for k (Items o')))
      <$> stock_of m k.
Proof.
  intros Hok Hfit Hlk Hrun.
  pose proof (PartialReturn_ok now id returns m Hok Hfit) as Hok'.
  unfold exec in Hok'. rewrite Hrun in Hok'. cbn [snd] in Hok'.
  split; [exact Hok'|].
  destruct Hok as [Hp Ho]. destruct (Ho _ _ Hlk) as [Hoid Hlines].
  unfold restore_fits in Hfit. rewrite Hlk in Hfit.
  apply PartialReturn_Ok_inv in Hrun
    as (o1 & acc & m1 & Hid & Hpos & Hlk1 & Hst & _ & Hloop & Hupd).
  rewrite Hlk in Hlk1. injection Hlk1 as <-.
  set (total := OrderService.totalReturn returns) in *.
  pose proof (line_ok_pos _ Hlines) as Hqpos.
  apply return_loop_walk with (c := fun _ => 0) in Hloop;
    [| exact Hlines | apply empty_counter_lookup
     | intros _; unfold max_int64; lia | exact Hp |].
  2: { intros k p Hk. specialize (Hfit k p Hk). cbv beta in Hfit.
       pose proof (greedy_walk_units_le total (Items o) k (fun _ => 0) Hqpos).
       unfold total in *. lia. }
  destruct Hloop as (_ & Hord & Hacc & Hstock). cbn zeta in Hacc, Hstock.
  simpl in Hacc.
  unfold Orders.Update in Hupd. simpl in Hupd.
  rewrite Hord, Hoid, Hlk in Hupd. injection Hupd as <- <-.
  cbn [Status set_UpdatedAt set_Items Items ordersByID set_orders].
  split; [exact Hst|]. split; [reflexivity|].
  intros k. rewrite Hacc.
  pose proof (greedy_walk_conservation total (Items o) k (fun _ => 0)) as Hc.
  cbn zeta in Hc.
  pose proof (units_for_nonneg k _
                (greedy_walk_units_nonneg total (Items o) (fun _ => 0) Hqpos)).
  pose proof (quantity_for_nonneg k _
                (line_ok_pos _ (greedy_walk_lines_ok total (Items o)
                                  (fun _ => 0) Hlines))).
  unfold total in *. split; [lia|].
  unfold stock_of. cbn [productsByID set_orders]. rewrite Hstock.
  destruct (productsByID m !! k) as [p|]; [|reflexivity].
  cbn. f_equal. lia.
Qed.

(** X13. A successful [PartialReturn] neither creates nor loses units: on
    a well-formed store where giving back all the order holds would
    overflow no stock, and whatever the request, the units that leave the
    order's lines for a product are exactly those added to its stock; the
    order never holds more of a product than before, and it stays
    [Confirmed] under its identifier. *)
Theorem PartialReturn_conservation now id returns m o o' m' :
  store_ok m -> restore_fits m id ->
  ordersByID m !! id = Some o ->
  OrderService.PartialReturn now id returns m = (Ok o', m') ->
  Status o' = OrderStatusConfirmed /\
  ordersByID m' !! id = Some o' /\
  forall k,
    0 <= quantity_for k (Items o') <= quantity_for k (Items o) /\
    stock_of m' k =
    (fun n => n + (quantity_for k (Items o) - quantity_for k (Items o')))
      <$> stock_of m k.
Proof.
  intros Hok Hfit Hlk Hrun.
  destruct (PartialReturn_Ok_conserve _ _ _ _ _ _ _ Hok Hfit Hlk Hrun)
    as (_ & Hst & Hord & Hall).
  split; [exact Hst|]. split; [|exact Hall].
  rewrite Hord. apply lookup_insert_eq.
Qed.

(** X14. The amount a successful [PartialReturn] moves, when no 64-bit sum
    overflows: for each product, the total the request asks for or the
    quantity the order holds, whichever is less, is added to the stock and
    taken off the order's lines. *)
Theorem PartialReturn_moves_min now id returns m o o' m' :
  store_ok m ->
  partial_return_fits m id returns ->
  ordersByID m !! id = Some o ->
  OrderService.PartialReturn now id returns m = (Ok o', m') ->
  forall k,
    stock_of m' k =
    (fun n => n + Z.min (quantity_for k returns) (quantity_for k (Items o)))
      <$> stock_of m k /\
    quantity_for k (Items o') =
    quantity_for k (Items o)
    - Z.min (quantity_for k returns) (quantity_for k (Items o)).
Proof.
  intros Hok Hfit Hlk Hrun k.
  exact (PartialReturn_amounts _ _ _ _ _ _ _ Hok Hfit Hlk Hrun k).
Qed.

(** X15. A partial return followed by the cancellation of the order gives
    back, in total, exactly what the order held before the return: on a
    well-formed store where that overflows no stock, when both calls
    succeed every stock has grown by the quantity the original lines held
    of the product, and the order ends [Cancelled]. *)
Theorem PartialReturn_CancelOrder now now' id returns m o o1 m1 o2 m2 :
  store_ok m -> restore_fits m id ->
  ordersByID m !! id = Some o ->
  OrderService.PartialReturn now id returns m = (Ok o1, m1) ->
  OrderService.CancelOrder now' id m1 = (Ok o2, m2) ->
  Status o2 = OrderStatusCancelled /\
  ordersByID m2 !! id = Some o2 /\
  forall k, stock_of m2 k
            = (fun n => n + quantity_for k (Items o)) <$> stock_of m k.
Proof.
  intros Hok Hfit Hlk Hret Hcancel.
  destruct (PartialReturn_Ok_conserve _ _ _ _ _ _ _ Hok Hfit Hlk Hret)
    as (Hok1 & _ & Hord1 & Hall).
  assert (Hlk1 : ordersByID m1 !! id = Some o1)
    by (rewrite Hord1; apply lookup_insert_eq).
  assert (Hfit1 : restore_fits m1 id).
  { unfold restore_fits. rewrite Hlk1. intros k p1 Hk1.
    destruct (Hall k) as [Hq Hs]. unfold stock_of in Hs. rewrite Hk1 in Hs.
    unfold restore_fits in Hfit. rewrite Hlk in Hfit.
    destruct (productsByID m !! k) as [p|] eqn:Hk; [|discriminate].
    specialize (Hfit k p Hk). cbv beta in Hfit.
    cbn in Hs. injection Hs as Hs. lia. }
  destruct (CancelOrder_Ok_stock _ _ _ _ _ _ Hok1 Hfit1 Hlk1 Hcancel)
    as (-> & Hord2 & Hstock).
  split; [reflexivity|]. split; [rewrite Hord2; apply lookup_insert_eq|].
  intros k. rewrite Hstock. destruct (Hall k) as [Hq ->].
  destruct (stock_of m k) as [n|]; [|reflexivity]. cbn. f_equal. lia.
Qed.

(** X16. When does a partial return leave the order with no line? When no
    64-bit sum overflows, exactly when the request asks, for every
    product, for at least the quantity the order holds of it. The order is
    [Confirmed] either way. *)
Theorem PartialReturn_empties_order now id returns m o o' m' :
  store_ok m ->
  partial_return_fits m id returns ->
  ordersByID m !! id = Some o ->
  OrderService.PartialReturn now id returns m = (Ok o', m') ->
  Status o' = OrderStatusConfirmed /\
  (Items o' = [] <->
   forall k, quantity_for k (Items o) <= quantity_for k returns).
Proof.
  intros Hok Hfit Hlk Hrun.
  pose proof (PartialReturn_amounts _ _ _ _ _ _ _ Hok Hfit Hlk Hrun) as Hmoved.
  destruct (PartialReturn_Ok_walk _ _ _ _ _ _ _ Hok Hfit Hlk Hrun)
    as (Ho' & Hpos & Hst & _ & _).
  destruct Hok as [_ Ho]. destruct (Ho _ _ Hlk) as [_ Hlines].
  assert (Hl' : Forall line_ok (Items o')).
  { rewrite Ho'. cbn [Items set_UpdatedAt set_Items].
    apply greedy_walk_lines_ok, Hlines. }
  split; [rewrite Ho'; exact Hst|]. split.
  - intros Hnil k. destruct (Hmoved k) as [_ Hq]. rewrite Hnil in Hq.
    cbn in Hq. lia.
  - intros Hall. destruct (Items o') as [|it rest] eqn:Hits; [reflexivity|].
    exfalso. apply Forall_cons in Hl' as [Hit Hrest].
    destruct (Hmoved (ProductID it)) as [_ Hq].
    rewrite quantity_for_cons, decide_True in Hq by reflexivity.
    pose proof (quantity_for_nonneg (ProductID it) rest (line_ok_pos _ Hrest)).
    specialize (Hall (ProductID it)). unfold line_ok in Hit. lia.
Qed.

(** The main loop of [PartialReturn] only appends to [newItems], and what
    it appends are lines of the order, in their order, some left out. *)
Lemma return_loop_sublist returns items : forall acc m acc' m',
  foldM (OrderService.return_step returns) acc items m = (Ok acc', m') ->
  exists kept,
    fst acc' = fst acc ++ kept /\
    sublist (ProductID <$> kept) (ProductID <$> items).
Proof.
  induction items as [|it items IH]; intros [newItems consumed] m acc' m' Hrun.
  - injection Hrun as <- <-. exists []. split; [symmetry; apply app_nil_r|].
    constructor.
  - cbn [foldM] in Hrun. apply bind_Ok in Hrun as (acc1 & m1 & Hstep & Hrun).
    apply IH in Hrun as (kept & Hacc & Hsub).
    unfold OrderService.return_step in Hstep.
    assert (Hdrop : forall n cs,
              (do* OrderService.restore_stock (ProductID it) n
               in ret (newItems, cs)) m = (Ok acc1, m1) ->
              exists kept0, fst acc' = newItems ++ kept0 /\
                sublist (ProductID <$> kept0) (ProductID <$> it :: items)).
    { intros n cs H. apply bind_Ok in H as ([] & m2 & _ & H).
      injection H as <- <-. exists kept. split; [exact Hacc|].
      cbn [fmap list_fmap]. apply sublist_cons, Hsub. }
    assert (Hkeep : forall it0, ProductID it0 = ProductID it ->
              fst acc1 = newItems ++ [it0] ->
              exists kept0, fst acc' = newItems ++ kept0 /\
                sublist (ProductID <$> kept0) (ProductID <$> it :: items)).
    { intros it0 Hpid Hacc1. exists (it0 :: kept). split.
      - rewrite Hacc, Hacc1, <- app_assoc. reflexivity.
      - cbn [fmap list_fmap]. rewrite Hpid. apply sublist_skip, Hsub. }
    cbn [fst].
    destruct (_ <=? _).
    { injection Hstep as <- <-. apply (Hkeep it); reflexivity. }
    destruct (_ <? _).
    { apply bind_Ok in Hstep as ([] & m2 & _ & H). injection H as <- <-.
      eapply Hkeep; [|reflexivity]. reflexivity. }
    destruct (_ =? _); eapply Hdrop, Hstep.
Qed.

(** X17. A successful [PartialReturn] never adds or reorders lines: the
    products of the lines it leaves are those of the order's lines, in
    the stored order, with some left out. The order it returns and stores
    is otherwise the one it read (same identifier, customer and creation
    time, still [Confirmed]) with the time of the call as its update time. *)
Theorem PartialReturn_keeps_line_order now id returns m o' m' :
  OrderService.PartialReturn now id returns m = (Ok o', m') ->
  exists o,
    ordersByID m !! id = Some o /\
    sublist (ProductID <$> Items o') (ProductID <$> Items o) /\
    o' = set_UpdatedAt (set_Items o (Items o')) now /\
    Status o' = OrderStatusConfirmed /\
    ordersByID m' !! Order_ID o = Some o'.
Proof.
  intros Hrun.
  apply PartialReturn_Ok_inv in Hrun
    as (o & acc & m1 & _ & _ & Hlk & Hst & _ & Hloop & Hupd).
  exists o. split; [exact Hlk|].
  apply return_loop_sublist in Hloop as (kept & Hacc & Hsub).
  cbn [fst app] in Hacc.
  unfold Orders.Update in Hupd.
  destruct (ordersByID m1 !! _); [|discriminate].
  injection Hupd as <- <-.
  cbn [Items Status Order_ID set_UpdatedAt set_Items ordersByID set_orders].
  rewrite Hacc. split; [exact Hsub|]. split; [reflexivity|].
  split; [exact Hst|]. apply lookup_insert_eq.
Qed.

Lemma return_loop_errors returns items : forall acc m e m',
  foldM (OrderService.return_step returns) acc items m = (Err e, m') ->
  e = ErrNotFound.
Proof.
  induction items as [|it items IH]; intros [newItems consumed] m e m' Hrun;
    [discriminate|].
  cbn [foldM] in Hrun. apply bind_Err in Hrun as [Hstep | (acc1 & m1 & _ & H)].
  2: { eapply IH, H. }
  unfold OrderService.return_step in Hstep.
  assert (Hres : forall n (acc1 : list OrderItem * gmap Z Z),
            (do* OrderService.restore_stock (ProductID it) n in ret acc1) m
            = (Err e, m') -> e = ErrNotFound).
  { intros n acc1 H. apply bind_Err in H as [H | ([] & m2 & _ & H)].
    - apply restore_stock_inv in H as [-> _]. reflexivity.
    - discriminate. }
  destruct (_ <=? _); [discriminate|].
  destruct (_ <? _); [|destruct (_ =? _)]; eapply Hres, Hstep.
Qed.

Lemma return_loop_orders returns items : forall acc m r m',
  foldM (OrderService.return_step returns) acc items m = (r, m') ->
  ordersByID m' = ordersByID m /\ nextOrderID m' = nextOrderID m /\
  nextProdID m' = nextProdID m.
Proof.
  induction items as [|it items IH]; intros [newItems consumed] m r m' Hrun.
  - injection Hrun as <- <-. auto.
  - cbn [foldM] in Hrun. unfold bind at 1 in Hrun.
    destruct (OrderService.return_step returns (newItems, consumed) it m)
      as [[acc1|e1] m1] eqn:Hstep.
    + apply IH in Hrun. 
      assert (Hsame : ordersByID m1 = ordersByID m /\
                      nextOrderID m1 = nextOrderID m /\
                      nextProdID m1 = nextProdID m).
      { unfold OrderService.return_step in Hstep.
        destruct (_ <=? _); [injection Hstep as <- <-; auto|].
        destruct (_ <? _); [|destruct (_ =? _)];
          (apply bind_Ok in Hstep as ([] & m2 & Hres & H);
           injection H as <- <-;
           exact (restore_stock_orders _ _ _ _ _ Hres)). }
      destruct Hrun as (-> & -> & ->). exact Hsame.
    + injection Hrun as <- <-.
      unfold OrderService.return_step in Hstep.
      destruct (_ <=? _); [discriminate|].
      destruct (_ <? _); [|destruct (_ =? _)];
        (apply bind_Err in Hstep as [Hres | ([] & m2 & _ & H)];
         [exact (restore_stock_orders _ _ _ _ _ Hres) | discriminate]).
Qed.

(** What a failed [PartialReturn] tells about the call and leaves of the store. *)
Lemma PartialReturn_Err_inv now id returns m e m' :
  OrderService.PartialReturn now id returns m = (Err e, m') ->
  (ordersByID m' = ordersByID m /\ nextOrderID m' = nextOrderID m /\
   nextProdID m' = nextProdID m) /\
  match e with
  | ErrInvalidInput =>
      m' = m /\
      (id <= 0 \/ returns = [] \/
       Exists (fun r => ProductID r <= 0 \/ Quantity r <= 0) returns \/
       exists o, ordersByID m !! id = Some o /\
                 Status o = OrderStatusConfirmed /\
                 Exists (fun r => default 0 (OrderService.qtyByProduct (Items o)
                                               !! ProductID r) < Quantity r)
                        returns)
  | ErrInvalidState =>
      0 < id /\ m' = m /\
      exists o, ordersByID m !! id = Some o /\ Status o <> OrderStatusConfirmed
  | ErrNotFound =>
      0 < id /\
      match ordersByID m !! id with
      | None => m' = m
      | Some o => Status o = OrderStatusConfirmed
      end
  | ErrNotEnoughStock => False
  end.
Proof.
  unfold OrderService.PartialReturn, WithTransaction.
  destruct (Z.leb_spec id 0) as [Hid|Hid].
  { intros [= <- <-]. auto. }
  cbn [orb].
  destruct returns as [|r0 returns0] eqn:Hret.
  { intros [= <- <-]. auto 6. }
  rewrite <- Hret. cbn [length Nat.eqb].
  replace (Nat.eqb (length returns) 0) with false by (rewrite Hret; reflexivity).
  destruct (existsb OrderService.invalid_item returns) eqn:Hvalid.
  { intros [= <- <-]. apply invalid_item_Exists in Hvalid. auto 6. }
  unfold bind at 1, Orders.GetByID.
  destruct (ordersByID m !! id) as [o|] eqn:Hlk.
  2: { intros [= <- <-]. auto. }
  destruct (decide (Status o = OrderStatusConfirmed)) as [Hst|Hst].
  2: { intros [= <- <-]. eauto 10. }
  destruct (existsb (OrderService.exceeds _) returns) eqn:Hex.
  { intros [= <- <-]. split; [auto|]. split; [reflexivity|].
    right; right; right. exists o. split; [reflexivity|]. split; [exact Hst|].
    apply existsb_exists in Hex as (r & Hin & Hr).
    apply Exists_exists. exists r. split; [apply list_elem_of_In, Hin|].
    unfold OrderService.exceeds in Hr. apply Z.ltb_lt in Hr. exact Hr. }
  intros Hrun. apply bind_Err in Hrun as [Hloop | (acc & m1 & Hloop & Hupd)].
  - pose proof (return_loop_orders _ _ _ _ _ _ Hloop) as Hsame.
    apply return_loop_errors in Hloop as ->. auto.
  - pose proof (return_loop_orders _ _ _ _ _ _ Hloop) as Hsame.
    unfold Orders.Update in Hupd.
    destruct (ordersByID m1 !! _); [discriminate|].
    injection Hupd as <- <-. auto.
Qed.

(** X18. The failures of [PartialReturn]. Whatever the error, the stored
    orders and the two counters are as before. [ErrInvalidInput] always
    leaves the whole store untouched, and comes from a non-positive
    identifier, an empty request, an entry with a non-positive product
    identifier or quantity, or an entry asking for more than the quantity
    table holds for its product; [ErrInvalidState] means a stored order
    that is not [Confirmed], the store untouched; [ErrNotFound] means the
    order is not stored (store untouched) or a [Confirmed] order one of
    whose records could not be written; [ErrNotEnoughStock] never comes. *)
Theorem PartialReturn_errors now id returns m e m' :
  OrderService.PartialReturn now id returns m = (Err e, m') ->
  (ordersByID m' = ordersByID m /\ nextOrderID m' = nextOrderID m /\
   nextProdID m' = nextProdID m) /\
  match e with
  | ErrInvalidInput =>
      m' = m /\
      (id <= 0 \/ returns = [] \/
       Exists (fun r => ProductID r <= 0 \/ Quantity r <= 0) returns \/
       exists o, ordersByID m !! id = Some o /\
                 Status o = OrderStatusConfirmed /\
                 Exists (fun r => default 0 (OrderService.qtyByProduct (Items o)
                                               !! ProductID r) < Quantity r)
                        returns)
  | ErrInvalidState =>
      0 < id /\ m' = m /\
      exists o, ordersByID m !! id = Some o /\ Status o <> OrderStatusConfirmed
  | ErrNotFound =>
      0 < id /\
      match ordersByID m !! id with
      | None => m' = m
      | Some o => Status o = OrderStatusConfirmed
      end
  | ErrNotEnoughStock => False
  end.
Proof. exact (PartialReturn_Err_inv now id returns m e m'). Qed.

(** ** Identifiers *)

Lemma keeps_keys_refl m : keeps_keys m m.
Proof. unfold keeps_keys. auto. Qed.

Lemma keeps_keys_trans m1 m2 m3 :
  keeps_keys m1 m2 -> keeps_keys m2 m3 -> keeps_keys m1 m3.
Proof.
  intros (P1 & O1 & A1 & B1) (P2 & O2 & A2 & B2).
  unfold keeps_keys. rewrite A2, B2. auto.
Qed.

Lemma Products_Update_keys p m r m' :
  Products.Update p m = (r, m') -> keeps_keys m m'.
Proof.
  intros H. apply Products_Update_inv in H. destruct r as [[]|e].
  - destruct H as [[q Hq] ->]. unfold keeps_keys. cbn.
    split; [|auto]. intros k Hk.
    rewrite lookup_insert_ne by congruence. exact Hk.
  - destruct H as (_ & _ & ->). apply keeps_keys_refl.
Qed.

Lemma Orders_Update_keys now o m r m' :
  Orders.Update now o m = (r, m') -> keeps_keys m m'.
Proof.
  unfold Orders.Update.
  destruct (ordersByID m !! Order_ID o) as [o0|] eqn:Hlk; intros [= <- <-].
  - unfold keeps_keys. cbn. split; [auto|]. split; [|auto].
    intros k Hk. rewrite lookup_insert_ne by congruence. exact Hk.
  - apply keeps_keys_refl.
Qed.

Lemma bind_keys {A B} (c : M A) (k : A -> M B) m r m' :
  (forall r1 m1, c m = (r1, m1) -> keeps_keys m m1) ->
  (forall a m1 r2 m2, c m = (Ok a, m1) -> k a m1 = (r2, m2) ->
                      keeps_keys m1 m2) ->
  bind c k m = (r, m') -> keeps_keys m m'.
Proof.
  intros Hc Hk. unfold bind.
  destruct (c m) as [[a|e] m1] eqn:Hrun.
  - intros H. eapply keeps_keys_trans; [eapply Hc; reflexivity|].
    eapply Hk; [reflexivity | exact H].
  - intros [= <- <-]. eapply Hc. reflexivity.
Qed.

Lemma restore_stock_keys id n m r m' :
  OrderService.restore_stock id n m = (r, m') -> keeps_keys m m'.
Proof.
  unfold OrderService.restore_stock. apply bind_keys.
  - intros r1 m1 H. apply Products_GetByID_inv in H as [-> _].
    apply keeps_keys_refl.
  - intros p m1 r2 m2 _. apply Products_Update_keys.
Qed.

Lemma foldM_keys {A B} (body : B -> A -> M B) :
  (forall acc x m r m', body acc x m = (r, m') -> keeps_keys m m') ->
  forall xs acc m r m', foldM body acc xs m = (r, m') -> keeps_keys m m'.
Proof.
  intros Hbody xs. induction xs as [|x xs IH]; intros acc m r m'.
  - intros [= <- <-]. apply keeps_keys_refl.
  - cbn [foldM]. apply bind_keys.
    + intros r1 m1. apply Hbody.
    + intros a m1 r2 m2 _. apply IH.
Qed.

Lemma return_step_keys returns acc it m r m' :
  OrderService.return_step returns acc it m = (r, m') -> keeps_keys m m'.
Proof.
  destruct acc as [newItems consumed]. unfold OrderService.return_step.
  assert (Hres : forall n (acc1 : list OrderItem * gmap Z Z),
            (do* OrderService.restore_stock (ProductID it) n in ret acc1) m
            = (r, m') -> keeps_keys m m').
  { intros n acc1. apply bind_keys.
    - intros r1 m1. apply restore_stock_keys.
    - intros [] m1 r2 m2 _ [= <- <-]. apply keeps_keys_refl. }
  destruct (_ <=? _); [intros [= <- <-]; apply keeps_keys_refl|].
  destruct (_ <? _); [|destruct (_ =? _)]; apply Hres.
Qed.

Lemma ProductService_Update_keys p m :
  keeps_keys m (exec (ProductService.Update p) m).
Proof.
  unfold exec, ProductService.Update.
  destruct (_ || _)%bool; [apply keeps_keys_refl|].
  destruct (bind _ _ m) as [r m'] eqn:Hrun. cbn [snd]. revert Hrun.
  apply bind_keys.
  - intros r1 m1. apply Products_Update_keys.
  - intros [] m1 r2 m2 _ [= <- <-]. apply keeps_keys_refl.
Qed.

Lemma ProductService_Delete_keys id m :
  keeps_keys m (exec (ProductService.Delete id) m).
Proof.
  unfold exec, ProductService.Delete.
  destruct (id <=? 0); [apply keeps_keys_refl|].
  unfold Products.Delete.
  destruct (productsByID m !! id); [|apply keeps_keys_refl].
  unfold keeps_keys. cbn. split; [|auto].
  intros k Hk. apply lookup_delete_None. auto.
Qed.

Lemma CancelOrder_keys now id m :
  keeps_keys m (exec (OrderService.CancelOrder now id) m).
Proof.
  unfold exec, OrderService.CancelOrder, WithTransaction.
  destruct (id <=? 0); [apply keeps_keys_refl|].
  destruct (bind _ _ m) as [r m'] eqn:Hrun. cbn [snd]. revert Hrun.
  apply bind_keys.
  - intros r1 m1. unfold Orders.GetByID.
    destruct (ordersByID m !! id); intros [= <- <-]; apply keeps_keys_refl.
  - intros o m1 r2 m2 _.
    destruct (decide (Status o = OrderStatusConfirmed));
      [|intros [= <- <-]; apply keeps_keys_refl].
    apply bind_keys.
    + intros r1 m3. apply foldM_keys.
      intros acc x m4 r4 m5. apply restore_stock_keys.
    + intros [] m3 r3 m4 _. apply Orders_Update_keys.
Qed.

Lemma PartialReturn_keys now id returns m :
  keeps_keys m (exec (OrderService.PartialReturn now id returns) m).
Proof.
  unfold exec, OrderService.PartialReturn, WithTransaction.
  destruct (_ || _)%bool; [apply keeps_keys_refl|].
  destruct (existsb OrderService.invalid_item returns);
    [apply keeps_keys_refl|].
  destruct (bind _ _ m) as [r m'] eqn:Hrun. cbn [snd]. revert Hrun.
  apply bind_keys.
  - intros r1 m1. unfold Orders.GetByID.
    destruct (ordersByID m !! id); intros [= <- <-]; apply keeps_keys_refl.
  - intros o m1 r2 m2 _.
    destruct (decide (Status o = OrderStatusConfirmed));
      [|intros [= <- <-]; apply keeps_keys_refl].
    destruct (existsb (OrderService.exceeds _) returns);
      [intros [= <- <-]; apply keeps_keys_refl|].
    apply bind_keys.
    + intros r1 m3. apply foldM_keys.
      intros acc x m4 r4 m5. apply return_step_keys.
    + intros acc m3 r3 m4 _. apply Orders_Update_keys.
Qed.

(** X19. Updating or deleting a product, cancelling an order and returning
    part of it never issue an identifier and never file a record under a
    key that was not in use, whether they succeed or fail: the two
    counters are as before and a key with no product, or no order, still
    has none. *)
Theorem calls_that_keep_keys (m : MemoryStore) :
  (forall p, keeps_keys m (exec (ProductService.Update p) m)) /\
  (forall id, keeps_keys m (exec (ProductService.Delete id) m)) /\
  (forall now id, keeps_keys m (exec (OrderService.CancelOrder now id) m)) /\
  (forall now id returns,
     keeps_keys m (exec (OrderService.PartialReturn now id returns) m)).
Proof.
  split; [|split; [|split]]; intros.
  - apply ProductService_Update_keys.
  - apply ProductService_Delete_keys.
  - apply CancelOrder_keys.
  - apply PartialReturn_keys.
Qed.

Lemma NewMemoryStore_order_counter_fresh : order_counter_fresh NewMemoryStore.
Proof. split; [reflexivity | intros k _; apply lookup_empty]. Qed.

Lemma keeps_keys_fresh m m' :
  keeps_keys m m' ->
  prod_counter_fresh m -> order_counter_fresh m ->
  (prod_counter_fresh m' /\ order_counter_fresh m') /\
  nextProdID m' = nextProdID m /\ nextOrderID m' = nextOrderID m.
Proof.
  intros (P & O & A & B) [Hp1 Hp2] [Ho1 Ho2].
  unfold prod_counter_fresh, order_counter_fresh. rewrite A, B.
  repeat split; auto.
Qed.

Lemma CreateOrder_keys now customer items m r m' :
  OrderService.CreateOrder now customer items m = (r, m') ->
  match r with
  | Err _ => keeps_keys m m'
  | Ok _ =>
      (forall k, productsByID m !! k = None -> productsByID m' !! k = None) /\
      nextProdID m' = nextProdID m
  end.
Proof.
  unfold OrderService.CreateOrder, WithTransaction.
  destruct (_ || _)%bool; [intros [= <- <-]; apply keeps_keys_refl|].
  destruct (existsb _ items); [intros [= <- <-]; apply keeps_keys_refl|].
  intros Hrun. unfold bind at 1 in Hrun.
  destruct (foldM OrderService.reserve ∅ items m) as [[copies|e] m1] eqn:Hloop;
    apply reserve_loop_reads in Hloop as [-> _].
  2: { injection Hrun as <- <-. apply keeps_keys_refl. }
  unfold bind at 1 in Hrun.
  destruct (OrderService.persist copies m) as [[[]|e] m2] eqn:Hp.
  - assert (Hk : keeps_keys m m2).
    { unfold OrderService.persist, OrderService.persist_list in Hp.
      eapply foldM_keys; [|exact Hp].
      intros acc x m3 r3 m4. apply Products_Update_keys. }
    unfold Orders.Create in Hrun. injection Hrun as <- <-. cbn.
    destruct Hk as (P & _ & A & _). auto.
  - injection Hrun as <- <-.
    unfold OrderService.persist, OrderService.persist_list in Hp.
    eapply foldM_keys; [|exact Hp].
    intros acc x m3 r3 m4. apply Products_Update_keys.
Qed.

(** One call keeps both counters ahead of the stored keys, and moves each
    of them by one at most. *)
Lemma step_counters_fresh o m :
  nextProdID m < max_int64 -> nextOrderID m < max_int64 ->
  prod_counter_fresh m -> order_counter_fresh m ->
  (prod_counter_fresh (step o m) /\ order_counter_fresh (step o m)) /\
  nextProdID m <= nextProdID (step o m) <= nextProdID m + 1 /\
  nextOrderID m <= nextOrderID (step o m) <= nextOrderID m + 1.
Proof.
  intros Hpm Hom Hp Ho.
  assert (Hkeep : forall m', keeps_keys m m' ->
    (prod_counter_fresh m' /\ order_counter_fresh m') /\
    nextProdID m <= nextProdID m' <= nextProdID m + 1 /\
    nextOrderID m <= nextOrderID m' <= nextOrderID m + 1).
  { intros m' Hk.
    destruct (keeps_keys_fresh _ _ Hk Hp Ho) as (Hf & -> & ->).
    split; [exact Hf|]. lia. }
  destruct o as [p|p|id|now customer items|now id|now id returns]; cbn [step].
  - unfold exec, ProductService.Create.
    destruct (_ || _)%bool; [apply Hkeep, keeps_keys_refl|].
    pose proof (Products_Create_counter_fresh p m Hp Hpm) as Hp'.
    unfold exec in Hp'. split; [split; [exact Hp'|]|].
    + unfold Products.Create. cbn. exact Ho.
    + unfold Products.Create. cbn.
      rewrite add64_exact
        by (destruct Hp; unfold in_int64, min_int64, max_int64 in *; lia).
      lia.
  - apply Hkeep, ProductService_Update_keys.
  - apply Hkeep, ProductService_Delete_keys.
  - unfold exec.
    destruct (OrderService.CreateOrder now customer items m) as [[o|e] m']
      eqn:Hrun; cbn [snd].
    + pose proof (CreateOrder_keys _ _ _ _ _ _ Hrun) as [Hnone _].
      apply CreateOrder_Ok_order in Hrun as (_ & Hord & Hnext & Hprod).
      destruct Ho as [Ho1 Ho2], Hp as [Hp1 Hp2].
      rewrite add64_exact in Hnext
        by (unfold in_int64, min_int64, max_int64 in *; lia).
      split; [split|rewrite Hnext, Hprod; lia].
      * split; [lia|]. rewrite Hprod. intros k Hk. apply Hnone, Hp2, Hk.
      * split; [lia|]. intros k Hk. rewrite Hord.
        rewrite lookup_insert_ne by lia. apply Ho2. lia.
    + apply Hkeep. exact (CreateOrder_keys _ _ _ _ _ _ Hrun).
  - apply Hkeep, CancelOrder_keys.
  - apply Hkeep, PartialReturn_keys.
Qed.

Lemma run_counters_fresh ops : forall m n,
  prod_counter_fresh m -> order_counter_fresh m ->
  nextProdID m <= 1 + n -> nextOrderID m <= 1 + n ->
  n + Z.of_nat (length ops) < max_int64 - 1 ->
  (prod_counter_fresh (run ops m) /\ order_counter_fresh (run ops m)) /\
  nextProdID (run ops m) <= 1 + n + Z.of_nat (length ops) /\
  nextOrderID (run ops m) <= 1 + n + Z.of_nat (length ops).
Proof.
  induction ops as [|o ops IH]; intros m n Hp Ho Hpn Hon Hlen.
  - cbn. split; [split; assumption|]. lia.
  - change (run (o :: ops) m) with (run ops (step o m)).
    cbn [length] in Hlen |- *.
    destruct (step_counters_fresh o m) as ([Hp1 Ho1] & Hpb & Hob);
      [lia | lia | exact Hp | exact Ho |].
    destruct (IH (step o m) (n + 1) Hp1 Ho1) as (Hf & Hpn' & Hon');
      [lia | lia | lia |].
    split; [exact Hf|]. lia.
Qed.

(** X20. Identifiers are never reused. After any sequence of fewer than
    2^63 - 2 calls to the two services from the empty store, both counters
    are positive and ahead of every key in use, so that the next product
    and the next order are filed under a key that holds nothing; and
    each counter is at most one more than the number of calls. *)
Theorem counters_stay_fresh (ops : list op) :
  Z.of_nat (length ops) < max_int64 - 1 ->
  let m := run ops NewMemoryStore in
  prod_counter_fresh m /\ order_counter_fresh m /\
  productsByID m !! nextProdID m = None /\
  ordersByID m !! nextOrderID m = None /\
  nextProdID m <= 1 + Z.of_nat (length ops) /\
  nextOrderID m <= 1 + Z.of_nat (length ops).
Proof.
  intros Hlen m.
  destruct (run_counters_fresh ops NewMemoryStore 0
              NewMemoryStore_counter_fresh NewMemoryStore_order_counter_fresh)
    as ([Hp Ho] & Hpn & Hon); [cbn; lia | cbn; lia | lia |].
  fold m in Hp, Ho, Hpn, Hon.
  split; [exact Hp|]. split; [exact Ho|].
  split; [apply Hp; lia|]. split; [apply Ho; lia|]. lia.
Qed.

(** ** The HTTP handlers *)

Lemma CreateOrder_never_InvalidState now customer items m m' :
  OrderService.CreateOrder now customer items m <> (Err ErrInvalidState, m').
Proof.
  unfold OrderService.CreateOrder, WithTransaction.
  destruct (_ || _)%bool; [discriminate|].
  destruct (existsb _ items); [discriminate|].
  intros Hrun.
  apply bind_Err in Hrun as [Hloop | (copies & m1 & _ & Hrun)].
  - apply reserve_loop_reads in Hloop as [_ [?|?]]; discriminate.
  - apply bind_Err in Hrun as [Hp | ([] & m2 & _ & Hcreate)].
    + apply persist_list_frame in Hp as (_ & _ & _ & ?). discriminate.
    + discriminate.
Qed.

Lemma ProductService_Update_Err p m e m' :
  ProductService.Update p m = (Err e, m') ->
  m' = m /\ (e = ErrInvalidInput \/ e = ErrNotFound).
Proof.
  unfold ProductService.Update.
  destruct (_ || _)%bool; [intros [= <- <-]; auto|].
  intros H. apply bind_Err in H as [H | ([] & m1 & _ & H)]; [|discriminate].
  apply Products_Update_inv in H as (-> & _ & ->). auto.
Qed.

(** X21. A product updated over HTTP loses its SKU: the request of
    [updateProduct] carries a name, a price and a stock only, so when the
    handler replies 200 the product stored under the identifier, which is
    also the body of the reply, has the fields of the request and the
    empty SKU, whatever SKU was stored before (and although
    [ProductService.Create] refuses an empty SKU). *)
Theorem updateProduct_clears_SKU id req m b m' :
  Server.updateProduct (Some id) (Some req) m = ((StatusOK, b), m') ->
  let p := mkProduct id (req_Name req) "" (req_Price req) (req_Stock req) in
  b = ProductBody p /\
  productsByID m' !! id = Some p /\
  SKU p = EmptyString /\
  0 < id /\ is_Some (productsByID m !! id) /\
  forall k, k <> id -> productsByID m' !! k = productsByID m !! k.
Proof.
  unfold Server.updateProduct, respond.
  destruct (ProductService.Update _ m) as [[q|e] m1] eqn:Hrun.
  2: { destruct e; discriminate. }
  intros [= <- <-]. unfold ProductService.Update in Hrun.
  cbn [Product_ID Name Price Stock] in Hrun.
  destruct (Z.leb_spec id 0) as [|Hid]; [discriminate|]. cbn [orb] in Hrun.
  destruct (_ || _)%bool; [discriminate|].
  apply bind_Ok in Hrun as ([] & m2 & Hupd & Hret).
  injection Hret as <- <-.
  apply Products_Update_inv in Hupd as [Hsome ->].
  cbn [Product_ID productsByID set_products] in *.
  split; [reflexivity|]. split; [apply lookup_insert_eq|].
  split; [reflexivity|]. split; [exact Hid|]. split; [exact Hsome|].
  intros k Hk. apply lookup_insert_ne. congruence.
Qed.

(** X22. What the handlers reply, and when they have changed nothing.
    [updateProduct] replies 200, 400 or 404 and [deleteProduct] 204, 400
    or 404, and every reply but the success leaves the store untouched;
    [createOrder] replies 201, 400 or 404, never 409, and on a
    well-formed store every reply but 201 leaves the store untouched;
    [cancelOrder] and [partialReturn] reply 200, 400, 404 or 409, and a
    400 or a 409 leaves the store untouched. *)
Theorem handlers_replies (m : MemoryStore) :
  (forall id req st b m',
     Server.updateProduct id req m = ((st, b), m') ->
     (st = StatusOK \/ st = StatusBadRequest \/ st = StatusNotFound) /\
     (st <> StatusOK -> m' = m)) /\
  (forall id st b m',
     Server.deleteProduct id m = ((st, b), m') ->
     (st = StatusNoContent \/ st = StatusBadRequest \/ st = StatusNotFound) /\
     (st <> StatusNoContent -> m' = m)) /\
  (forall now req st b m',
     Server.createOrder now req m = ((st, b), m') ->
     (st = StatusCreated \/ st = StatusBadRequest \/ st = StatusNotFound) /\
     (store_ok m -> st <> StatusCreated -> m' = m)) /\
  (forall now id st b m',
     Server.cancelOrder now id m = ((st, b), m') ->
     (st = StatusOK \/ st = StatusBadRequest \/ st = StatusNotFound \/
      st = StatusConflict) /\
     (st = StatusBadRequest \/ st = StatusConflict -> m' = m)) /\
  (forall now id req st b m',
     Server.partialReturn now id req m = ((st, b), m') ->
     (st = StatusOK \/ st = StatusBadRequest \/ st = StatusNotFound \/
      st = StatusConflict) /\
     (st = StatusBadRequest \/ st = StatusConflict -> m' = m)).
Proof.
  split; [|split; [|split; [|split]]].
  - intros [id|] [req|] st b m'; unfold Server.updateProduct, bad_request;
      try (intros [= <- <- <-]; auto).
    unfold respond.
    destruct (ProductService.Update _ m) as [[q|e] m1] eqn:Hrun;
      intros [= <- <- <-]; [split; [auto | intros H; contradiction]|].
    apply ProductService_Update_Err in Hrun as [-> [-> | ->]]; auto.
  - intros [id|] st b m'; unfold Server.deleteProduct, bad_request;
      try (intros [= <- <- <-]; auto).
    unfold respond, ProductService.Delete.
    destruct (id <=? 0); [intros [= <- <- <-]; auto|].
    unfold Products.Delete.
    destruct (productsByID m !! id); intros [= <- <- <-];
      [split; [auto | intros H; contradiction] | auto].
  - intros now [req|] st b m'; unfold Server.createOrder, bad_request;
      try (intros [= <- <- <-]; auto).
    unfold respond.
    destruct (OrderService.CreateOrder _ _ _ m) as [[o|e] m1] eqn:Hrun;
      intros [= <- <- <-]; [split; [auto | intros _ H; contradiction]|].
    split.
    + destruct e; cbn; auto.
      exfalso. exact (CreateOrder_never_InvalidState _ _ _ _ _ Hrun).
    + intros Hok _.
      apply (CreateOrder_error_no_mutation _ _ _ _ _ _ Hok) in Hrun as [-> _].
      reflexivity.
  - intros now [id|] st b m'; unfold Server.cancelOrder, bad_request;
      try (intros [= <- <- <-]; auto).
    unfold respond.
    destruct (OrderService.CancelOrder now id m) as [[o|e] m1] eqn:Hrun;
      intros [= <- <- <-]; [split; [auto | intros [H|H]; discriminate]|].
    apply CancelOrder_Err_inv in Hrun as [_ He].
    destruct e; cbn; try contradiction.
    + destruct He as [_ ->]. auto.
    + split; [auto | intros [H|H]; discriminate].
    + destruct He as (_ & -> & _). auto 6.
  - intros now [id|] [req|] st b m'; unfold Server.partialReturn, bad_request;
      try (intros [= <- <- <-]; auto).
    unfold respond.
    destruct (OrderService.PartialReturn now id req m) as [[o|e] m1] eqn:Hrun;
      intros [= <- <- <-]; [split; [auto | intros [H|H]; discriminate]|].
    apply PartialReturn_Err_inv in Hrun as [_ He].
    destruct e; cbn; try contradiction.
    + destruct He as [-> _]. auto.
    + split; [auto | intros [H|H]; discriminate].
    + destruct He as (_ & -> & _). auto 6.
Qed.

(** X23. Cancelling twice over HTTP: when [cancelOrder] has replied 200
    for an order, on a store whose orders are filed under their
    identifier, the body is the order as [Cancelled] and the same request
    again is answered 409 with the body "invalid state", the store left as
    the first call made it. *)
Theorem cancelOrder_twice now now' id m b m1 :
  orders_keyed m ->
  Server.cancelOrder now (Some id) m = ((StatusOK, b), m1) ->
  (exists o, b = OrderBody o /\ Status o = OrderStatusCancelled /\
             ordersByID m1 !! id = Some o) /\
  Server.cancelOrder now' (Some id) m1
  = ((StatusConflict, ErrorBody "invalid state"), m1).
Proof.
  intros Hkeyed. unfold Server.cancelOrder, respond.
  destruct (OrderService.CancelOrder now id m) as [[o|e] m2] eqn:Hrun.
  2: { destruct e; discriminate. }
  intros [= <- <-].
  apply CancelOrder_Ok_inv in Hrun as (o0 & m3 & Hid & Hlk & Hst & Hloop & Hupd).
  apply restore_loop_orders in Hloop as (Hord & _ & _).
  unfold Orders.Update in Hupd. simpl in Hupd.
  rewrite Hord, (Hkeyed _ _ Hlk), Hlk in Hupd.
  injection Hupd as <- <-. cbn.
  split.
  - eexists. split; [reflexivity|]. split; [reflexivity|].
    apply lookup_insert_eq.
  - unfold OrderService.CancelOrder, WithTransaction, bind, Orders.GetByID.
    destruct (Z.leb_spec id 0); [lia|]. cbn.
    rewrite lookup_insert_eq. reflexivity.
Qed.

(** ** The further statements at work on the scenarios *)

Lemma ProductService_Create_GetByID_witness :
  let m := store_A 10 in
  prod_counter_fresh m /\
  exists p' m',
    ProductService.Create (productB 8) m = (Ok p', m') /\
    Product_ID p' = 2 /\
    ProductService.GetByID 2 m' = (Ok p', m') /\
    Products.GetByID 1 m' = (Ok (mkProduct 1 "A" "SKU1" 10 10), m').
Proof.
  intros m.
  assert (Hfresh : prod_counter_fresh m).
  { exact (Products_Create_counter_fresh (productA 10) NewMemoryStore
             NewMemoryStore_counter_fresh eq_refl). }
  split; [exact Hfresh|].
  eassert (Hrun : ProductService.Create (productB 8) m = (Ok _, _))
    by (vm_compute; reflexivity).
  destruct (ProductService_Create_GetByID _ _ _ _ Hfresh Hrun)
    as (Hget & _ & Hold).
  eexists _, _. split; [exact Hrun|]. split; [reflexivity|].
  split; [exact Hget|].
  apply Hold. vm_compute. reflexivity.
Defined.

Lemma CreateOrder_GetOrder_witness :
  let m := store_A 10 in
  0 < nextOrderID m /\
  exists o m',
    OrderService.CreateOrder 5 "Jane" [mkItem 1 3] m = (Ok o, m') /\
    OrderService.GetOrder (Order_ID o) m' = (Ok o, m') /\
    Items o = [mkItem 1 3] /\ CreatedAt o = 5.
Proof.
  intros m. assert (Hpos : 0 < nextOrderID m) by reflexivity.
  split; [exact Hpos|].
  eassert (Hrun : OrderService.CreateOrder 5 "Jane" [mkItem 1 3] m = (Ok _, _))
    by (vm_compute; reflexivity).
  destruct (CreateOrder_GetOrder _ _ _ _ _ _ Hpos Hrun)
    as (Hget & _ & _ & Hits & _ & Hat & _).
  eexists _, _. split; [exact Hrun|]. split; [exact Hget|].
  split; [exact Hits | exact Hat].
Defined.

Lemma CreateOrder_all_or_nothing_witness :
  let m := store_A 10 in
  store_ok m /\
  exists e m',
    OrderService.CreateOrder 5 "Jane" [mkItem 1 11] m = (Err e, m') /\
    m' = m /\ e <> ErrInvalidState.
Proof.
  intros m. assert (Hok : store_ok m) by compute_done.
  split; [exact Hok|].
  eassert (Hrun : OrderService.CreateOrder 5 "Jane" [mkItem 1 11] m
                  = (Err _, _)) by (vm_compute; reflexivity).
  eexists _, _. split; [exact Hrun|].
  exact (CreateOrder_all_or_nothing _ _ _ _ _ _ Hok Hrun).
Defined.

Lemma CancelOrder_restores_held_witness :
  let m := store_AB_ordered in
  let o := mkOrder 1 "Jane" [mkItem 1 2; mkItem 2 3] OrderStatusConfirmed 0 0 in
  store_ok m /\ restore_fits m 1 /\ ordersByID m !! 1 = Some o /\
  stock_of m 1 = Some 8 /\ stock_of m 2 = Some 5 /\
  exists o' m',
    OrderService.CancelOrder 5 1 m = (Ok o', m') /\
    Status o' = OrderStatusCancelled /\
    stock_of m' 1 = Some 10 /\ stock_of m' 2 = Some 8.
Proof.
  intros m o.
  assert (Hok : store_ok m) by compute_done.
  assert (Hfit : restore_fits m 1) by compute_done.
  assert (Hlk : ordersByID m !! 1 = Some o) by (vm_compute; reflexivity).
  split; [exact Hok|]. split; [exact Hfit|]. split; [exact Hlk|].
  split; [vm_compute; reflexivity|]. split; [vm_compute; reflexivity|].
  destruct (CancelOrder_restores_held 5 1 m o Hok Hfit eq_refl Hlk eq_refl)
    as [[Hex _] Hall].
  destruct Hex as (o' & m' & Hrun).
  { repeat constructor; vm_compute; eauto. }
  destruct (Hall _ _ Hrun) as (-> & _ & Hstock).
  exists (set_UpdatedAt (set_Status o OrderStatusCancelled) 5), m'.
  split; [exact Hrun|]. split; [reflexivity|].
  rewrite !Hstock. split; vm_compute; reflexivity.
Defined.


Lemma CancelOrder_errors_witness :
  let m := run ops_order_cancel NewMemoryStore in
  exists e m',
    OrderService.CancelOrder 2 1 m = (Err e, m') /\
    e = ErrInvalidState /\ m' = m /\
    exists o, ordersByID m !! 1 = Some o /\ Status o <> OrderStatusConfirmed.
Proof.
  intros m.
  eassert (Hrun : OrderService.CancelOrder 2 1 m = (Err ErrInvalidState, _))
    by (vm_compute; reflexivity).
  destruct (CancelOrder_errors _ _ _ _ _ Hrun) as [_ (_ & Heq & Hex)].
  eexists _, _. split; [exact Hrun|]. split; [reflexivity|].
  split; [exact Heq | exact Hex].
Defined.

Lemma order_calls_only_move_stock_witness :
  let m := store_AB_ordered in
  let o := mkOrder 1 "Jane" [mkItem 1 2; mkItem 2 3] OrderStatusConfirmed 0 0 in
  store_ok m /\ ordersByID m !! 1 = Some o /\
  only_stock_of [1; 2] m (exec (OrderService.CancelOrder 5 1) m) /\
  only_stock_of [2] m (exec (OrderService.PartialReturn 5 1 [mkItem 2 1]) m) /\
  only_stock_of [1] m (exec (OrderService.CreateOrder 5 "Joe" [mkItem 1 1]) m).
Proof.
  intros m o.
  assert (Hok : store_ok m) by compute_done.
  assert (Hlk : ordersByID m !! 1 = Some o) by (vm_compute; reflexivity).
  split; [exact Hok|]. split; [exact Hlk|].
  destruct (order_calls_only_move_stock m Hok) as (Hcreate & Hcancel & Hreturn).
  split; [exact (Hcancel 5 1 o Hlk)|].
  split; [exact (Hreturn 5 1 [mkItem 2 1] o Hlk)|].
  exact (Hcreate 5 "Joe"%string [mkItem 1 1]).
Defined.

Lemma PartialReturn_conservation_witness :
  let m := store_A_two_lines in
  let o := mkOrder 1 "Jane" [mkItem 1 2; mkItem 1 3] OrderStatusConfirmed 0 0 in
  store_ok m /\ restore_fits m 1 /\ ordersByID m !! 1 = Some o /\
  exists o' m',
    OrderService.PartialReturn 2 1 [mkItem 1 4] m = (Ok o', m') /\
    Items o' = [mkItem 1 1] /\
    stock_of m' 1 = (fun n => n + (5 - 1)) <$> stock_of m 1.
Proof.
  intros m o.
  assert (Hok : store_ok m) by compute_done.
  assert (Hfit : restore_fits m 1) by compute_done.
  assert (Hlk : ordersByID m !! 1 = Some o) by (vm_compute; reflexivity).
  split; [exact Hok|]. split; [exact Hfit|]. split; [exact Hlk|].
  eassert (Hrun : OrderService.PartialReturn 2 1 [mkItem 1 4] m = (Ok _, _))
    by (vm_compute; reflexivity).
  destruct (PartialReturn_conservation _ _ _ _ _ _ _ Hok Hfit Hlk Hrun)
    as (_ & _ & Hall).
  eexists _, _. split; [exact Hrun|]. split; [reflexivity|].
  exact (proj2 (Hall 1)).
Defined.

Lemma PartialReturn_moves_min_witness :
  let m := store_A_ordered 10 [mkItem 1 4] in
  let o := mkOrder 1 "Jane" [mkItem 1 4] OrderStatusConfirmed 0 0 in
  let returns := [mkItem 1 3; mkItem 1 3] in
  store_ok m /\ partial_return_fits m 1 returns /\
  ordersByID m !! 1 = Some o /\
  exists o' m',
    OrderService.PartialReturn 2 1 returns m = (Ok o', m') /\
    stock_of m' 1 = (fun n => n + Z.min 6 4) <$> stock_of m 1 /\
    quantity_for 1 (Items o') = 4 - Z.min 6 4.
Proof.
  intros m o returns.
  assert (Hok : store_ok m) by compute_done.
  assert (Hfit : partial_return_fits m 1 returns) by compute_done.
  assert (Hlk : ordersByID m !! 1 = Some o) by (vm_compute; reflexivity).
  split; [exact Hok|]. split; [exact Hfit|]. split; [exact Hlk|].
  eassert (Hrun : OrderService.PartialReturn 2 1 returns m = (Ok _, _))
    by (vm_compute; reflexivity).
  eexists _, _. split; [exact Hrun|].
  exact (PartialReturn_moves_min _ _ _ _ _ _ _ Hok Hfit Hlk Hrun 1).
Defined.

Lemma PartialReturn_CancelOrder_witness :
  let m := store_A_two_lines in
  let o := mkOrder 1 "Jane" [mkItem 1 2; mkItem 1 3] OrderStatusConfirmed 0 0 in
  store_ok m /\ restore_fits m 1 /\ ordersByID m !! 1 = Some o /\
  exists o1 m1 o2 m2,
    OrderService.PartialReturn 2 1 [mkItem 1 4] m = (Ok o1, m1) /\
    OrderService.CancelOrder 3 1 m1 = (Ok o2, m2) /\
    Status o2 = OrderStatusCancelled /\
    stock_of m2 1 = (fun n => n + 5) <$> stock_of m 1.
Proof.
  intros m o.
  assert (Hok : store_ok m) by compute_done.
  assert (Hfit : restore_fits m 1) by compute_done.
  assert (Hlk : ordersByID m !! 1 = Some o) by (vm_compute; reflexivity).
  split; [exact Hok|]. split; [exact Hfit|]. split; [exact Hlk|].
  set (m1 := exec (OrderService.PartialReturn 2 1 [mkItem 1 4]) m).
  eassert (Hret : OrderService.PartialReturn 2 1 [mkItem 1 4] m = (Ok _, m1))
    by (vm_compute; reflexivity).
  eassert (Hcancel : OrderService.CancelOrder 3 1 m1 = (Ok _, _))
    by (vm_compute; reflexivity).
  destruct (PartialReturn_CancelOrder _ _ _ _ _ _ _ _ _ _
              Hok Hfit Hlk Hret Hcancel) as (Hst & _ & Hstock).
  eexists _, _, _, _. split; [exact Hret|]. split; [exact Hcancel|].
  split; [exact Hst | exact (Hstock 1)].
Defined.

Lemma PartialReturn_empties_order_witness :
  let m := store_A_ordered 10 [mkItem 1 3] in
  let o := mkOrder 1 "Jane" [mkItem 1 3] OrderStatusConfirmed 0 0 in
  store_ok m /\ partial_return_fits m 1 [mkItem 1 3] /\
  ordersByID m !! 1 = Some o /\
  exists o' m',
    OrderService.PartialReturn 2 1 [mkItem 1 3] m = (Ok o', m') /\
    Status o' = OrderStatusConfirmed /\
    (Items o' = [] <->
     forall k, quantity_for k (Items o) <= quantity_for k [mkItem 1 3]).
Proof.
  intros m o.
  assert (Hok : store_ok m) by compute_done.
  assert (Hfit : partial_return_fits m 1 [mkItem 1 3]) by compute_done.
  assert (Hlk : ordersByID m !! 1 = Some o) by (vm_compute; reflexivity).
  split; [exact Hok|]. split; [exact Hfit|]. split; [exact Hlk|].
  eassert (Hrun : OrderService.PartialReturn 2 1 [mkItem 1 3] m = (Ok _, _))
    by (vm_compute; reflexivity).
  eexists _, _. split; [exact Hrun|].
  exact (PartialReturn_empties_order _ _ _ _ _ _ _ Hok Hfit Hlk Hrun).
Defined.

Lemma PartialReturn_keeps_line_order_witness :
  let m := store_AB_ordered in
  exists o' m',
    OrderService.PartialReturn 2 1 [mkItem 1 2] m = (Ok o', m') /\
    exists o,
      ordersByID m !! 1 = Some o /\
      sublist (ProductID <$> Items o') (ProductID <$> Items o) /\
      o' = set_UpdatedAt (set_Items o (Items o')) 2 /\
      Status o' = OrderStatusConfirmed /\
      ordersByID m' !! Order_ID o = Some o'.
Proof.
  intros m.
  eassert (Hrun : OrderService.PartialReturn 2 1 [mkItem 1 2] m = (Ok _, _))
    by (vm_compute; reflexivity).
  eexists _, _. split; [exact Hrun|].
  exact (PartialReturn_keeps_line_order _ _ _ _ _ _ Hrun).
Defined.

Lemma PartialReturn_errors_witness :
  let m := store_A_ordered 10 [mkItem 1 3] in
  exists e m',
    OrderService.PartialReturn 2 1 [mkItem 1 5] m = (Err e, m') /\
    e = ErrInvalidInput /\ m' = m.
Proof.
  intros m.
  eassert (Hrun : OrderService.PartialReturn 2 1 [mkItem 1 5] m
                  = (Err ErrInvalidInput, _)) by (vm_compute; reflexivity).
  destruct (PartialReturn_errors _ _ _ _ _ _ Hrun) as [_ [Heq _]].
  eexists _, _. split; [exact Hrun|]. split; [reflexivity | exact Heq].
Defined.

Lemma counters_stay_fresh_witness :
  Z.of_nat (length ops_order_cancel) < max_int64 - 1 /\
  let m := run ops_order_cancel NewMemoryStore in
  prod_counter_fresh m /\ order_counter_fresh m /\
  productsByID m !! nextProdID m = None /\
  ordersByID m !! nextOrderID m = None /\
  nextProdID m <= 1 + Z.of_nat (length ops_order_cancel) /\
  nextOrderID m <= 1 + Z.of_nat (length ops_order_cancel).
Proof.
  assert (Hlen : Z.of_nat (length ops_order_cancel) < max_int64 - 1)
    by reflexivity.
  split; [exact Hlen|].
  exact (counters_stay_fresh ops_order_cancel Hlen).
Defined.

Lemma updateProduct_clears_SKU_witness :
  let m := store_A 10 in
  let req := mkUpdateProductReq "A2" 12 60 in
  SKU <$> productsByID m !! 1 = Some "SKU1"%string /\
  exists b m',
    Server.updateProduct (Some 1) (Some req) m = ((StatusOK, b), m') /\
    productsByID m' !! 1 = Some (mkProduct 1 "A2" "" 12 60).
Proof.
  intros m req. split; [vm_compute; reflexivity|].
  eassert (Hrun : Server.updateProduct (Some 1) (Some req) m
                  = ((StatusOK, _), _)) by (vm_compute; reflexivity).
  destruct (updateProduct_clears_SKU _ _ _ _ _ Hrun) as (_ & Hlk & _).
  eexists _, _. split; [exact Hrun | exact Hlk].
Defined.

Lemma cancelOrder_twice_witness :
  let m := store_A_ordered 10 [mkItem 1 3] in
  orders_keyed m /\
  exists b m1,
    Server.cancelOrder 1 (Some 1) m = ((StatusOK, b), m1) /\
    Server.cancelOrder 2 (Some 1) m1
    = ((StatusConflict, ErrorBody "invalid state"), m1).
Proof.
  intros m. assert (Hkeyed : orders_keyed m) by compute_done.
  split; [exact Hkeyed|].
  eassert (Hrun : Server.cancelOrder 1 (Some 1) m = ((StatusOK, _), _))
    by (vm_compute; reflexivity).
  eexists _, _. split; [exact Hrun|].
  exact (proj2 (cancelOrder_twice 1 2 1 m _ _ Hkeyed Hrun)).
Defined.

Lemma CreateOrder_distinct_products_witness :
  let m := store_AB in
  let items := [mkItem 1 2; mkItem 2 3] in
  store_ok m /\ NoDup (ProductID <$> items) /\
  exists o m',
    OrderService.CreateOrder 5 "Jane" items m = (Ok o, m') /\
    stock_of m' 1 = (fun n => n - 2) <$> stock_of m 1 /\
    stock_of m' 2 = (fun n => n - 3) <$> stock_of m 2.
Proof.
  intros m items.
  assert (Hok : store_ok m) by compute_done.
  assert (Hnd : NoDup (ProductID <$> items)) by compute_done.
  split; [exact Hok|]. split; [exact Hnd|].
  eassert (Hrun : OrderService.CreateOrder 5 "Jane" items m = (Ok _, _))
    by (vm_compute; reflexivity).
  pose proof (CreateOrder_distinct_products _ _ _ _ _ _ Hok Hnd Hrun) as Hall.
  eexists _, _. split; [exact Hrun|].
  split; [exact (Hall 1) | exact (Hall 2)].
Defined.

Lemma CreateOrder_line_exceeds_witness :
  let m := store_AB in
  let items := [mkItem 1 2; mkItem 2 9] in
  stock_of m 2 = Some 8 /\
  OrderService.CreateOrder 5 "Jane" items m = (Err ErrNotEnoughStock, m).
Proof.
  intros m items. split; [vm_compute; reflexivity|].
  apply CreateOrder_line_exceeds.
  - discriminate.
  - reflexivity.
  - repeat constructor; vm_compute; eauto.
  - apply Exists_cons_tl, Exists_cons_hd.
    eexists. split; [vm_compute; reflexivity | vm_compute; reflexivity].
Defined.


Lemma CreateOrder_CancelOrder_distinct_witness :
  let m := store_AB in
  let items := [mkItem 1 2; mkItem 2 3] in
  store_ok m /\ 0 < nextOrderID m /\ NoDup (ProductID <$> items) /\
  exists o m1 o' m2,
    OrderService.CreateOrder 5 "Jane" items m = (Ok o, m1) /\
    OrderService.CancelOrder 6 (Order_ID o) m1 = (Ok o', m2) /\
    Status o' = OrderStatusCancelled /\
    forall k, stock_of m2 k = stock_of m k.
Proof.
  intros m items.
  assert (Hok : store_ok m) by compute_done.
  assert (Hpos : 0 < nextOrderID m) by reflexivity.
  assert (Hnd : NoDup (ProductID <$> items)) by compute_done.
  split; [exact Hok|]. split; [exact Hpos|]. split; [exact Hnd|].
  eassert (Hrun : OrderService.CreateOrder 5 "Jane" items m = (Ok _, _))
    by (vm_compute; reflexivity).
  destruct (CreateOrder_CancelOrder_distinct 5 6 _ _ _ _ _ Hok Hpos Hnd Hrun)
    as (o' & m2 & Hcancel & Hst & _ & Hstock).
  eexists _, _, o', m2. split; [exact Hrun|]. split; [exact Hcancel|].
  split; [exact Hst | exact Hstock].
Defined.

Lemma PartialReturn_entry_exceeds_witness :
  let m := store_A_ordered 10 [mkItem 1 3] in
  let o := mkOrder 1 "Jane" [mkItem 1 3] OrderStatusConfirmed 0 0 in
  store_ok m /\ ordersByID m !! 1 = Some o /\
  OrderService.PartialReturn 2 1 [mkItem 1 5] m = (Err ErrInvalidInput, m).
Proof.
  intros m o.
  assert (Hok : store_ok m) by compute_done.
  assert (Hlk : ordersByID m !! 1 = Some o) by (vm_compute; reflexivity).
  split; [exact Hok|]. split; [exact Hlk|].
  apply (PartialReturn_entry_exceeds 2 1 [mkItem 1 5] m o (mkItem 1 5));
    try reflexivity; try assumption.
  - left.
  - discriminate.
Defined.

Lemma persist_list_Permutation_witness :
  let m := store_AB in
  let a := mkProduct 1 "A" "SKU1" 10 4 in
  let b := mkProduct 2 "B" "SKU2" 20 5 in
  OrderService.persist_list [a; b] m = OrderService.persist_list [b; a] m /\
  stock_of (exec (OrderService.persist_list [a; b]) m) 2 = Some 5.
Proof.
  intros m a b. split; [|vm_compute; reflexivity].
  apply persist_list_Permutation.
  - apply perm_swap.
  - repeat constructor; vm_compute; eauto.
  - compute_done.
Defined.
